(** * pihole-api: the request / session reliability core

    A shallow embedding of the TypeScript sources [errors.ts], [result.ts],
    [http.ts], [session.ts] and [client.ts], followed by the properties
    established about them.

    Conventions of the embedding.
    - A JavaScript [number] that the code uses as an integer (HTTP status,
      retry count, milliseconds) is a [Z].
    - A JavaScript string is a [string] of 8-bit characters; [toLowerCase]
      folds the ASCII letters.
    - An optional member ([x?: T], or a value that may be [undefined] or
      [null]) is an [option].
    - The network and the clock are an explicit [World] that every effectful
      function threads, together with a [Network] oracle that answers each
      [fetch]. A call of an [async] function is run to its end in one go,
      except in [EventLoop], where several calls of [ensureSession] are in
      flight at once and each runs piece by piece, from [await] to [await]. *)

From Stdlib Require Import ZArith List String Ascii Bool Lia Arith.
From Stdlib Require Import DecimalString.
Import ListNotations.
Open Scope string_scope.
Open Scope Z_scope.

(** ** Strings as the code uses them *)

Module Str.

(** [!s] on a string: only the empty string is falsy. *)
Definition truthy (s : string) : bool :=
  match s with
  | EmptyString => false
  | String _ _ => true
  end.

(** [!s] on [string | undefined | null]. *)
Definition truthy_opt (s : option string) : bool :=
  match s with
  | Some s => truthy s
  | None => false
  end.

Definition lower_ascii (c : ascii) : ascii :=
  let n := nat_of_ascii c in
  if ((65 <=? n) && (n <=? 90))%nat then ascii_of_nat (n + 32) else c.

(** [String.prototype.toLowerCase]. *)
Fixpoint toLowerCase (s : string) : string :=
  match s with
  | EmptyString => EmptyString
  | String c s' => String (lower_ascii c) (toLowerCase s')
  end.

(** [s.includes(sub)]: [sub] occurs in [s] at some offset. *)
Fixpoint includes (s sub : string) : bool :=
  if String.prefix sub s then true
  else match s with
       | EmptyString => false
       | String _ s' => includes s' sub
       end.

(** The template literal [`${n}`] for an integer [n]. *)
Definition of_Z (n : Z) : string :=
  NilZero.string_of_int (Z.to_int n).

End Str.

(** ** result.ts *)

Module ResultT.

Inductive Result (T E : Type) : Type :=
| ok (data : T)
| err (error : E).
Arguments ok {T E} data.
Arguments err {T E} error.

Definition isOk {T E} (result : Result T E) : bool :=
  match result with
  | ok _ => true
  | err _ => false
  end.

Definition isErr {T E} (result : Result T E) : bool :=
  negb (isOk result).

Definition unwrapOr {T E} (result : Result T E) (defaultValue : T) : T :=
  match result with
  | ok data => data
  | err _ => defaultValue
  end.

Definition map {T U E} (result : Result T E) (fn : T -> U) : Result U E :=
  match result with
  | ok data => ok (fn data)
  | err e => err e
  end.

Definition mapErr {T E F} (result : Result T E) (fn : E -> F) : Result T F :=
  match result with
  | ok data => ok data
  | err e => err (fn e)
  end.

Definition andThen {T U E} (result : Result T E) (fn : T -> Result U E)
  : Result U E :=
  match result with
  | ok data => fn data
  | err e => err e
  end.

End ResultT.

(** ** errors.ts *)

Module Errors.

Inductive PiholeErrorCode : Type :=
| Unauthorized | TotpRequired | InvalidTotp | SessionExpired
| NetworkError | Timeout | ConnectionRefused | CertificateError
| BadRequest | NotFound | Conflict | ValidationError
| ServerError | ServiceUnavailable
| ParseError | Unknown.

Definition code_eqb (a b : PiholeErrorCode) : bool :=
  match a, b with
  | Unauthorized, Unauthorized | TotpRequired, TotpRequired
  | InvalidTotp, InvalidTotp | SessionExpired, SessionExpired
  | NetworkError, NetworkError | Timeout, Timeout
  | ConnectionRefused, ConnectionRefused
  | CertificateError, CertificateError
  | BadRequest, BadRequest | NotFound, NotFound | Conflict, Conflict
  | ValidationError, ValidationError
  | ServerError, ServerError | ServiceUnavailable, ServiceUnavailable
  | ParseError, ParseError | Unknown, Unknown => true
  | _, _ => false
  end.

Record PiholeError : Type := mkError {
  code : PiholeErrorCode;
  message : string;
  hint : option string;
  status : Z;
  apiKey : option string
}.

(** [createError(code, message, status, options?)]; an absent [options]
    is [None, None]. *)
Definition createError (c : PiholeErrorCode) (msg : string) (st : Z)
           (opt_hint opt_apiKey : option string) : PiholeError :=
  {| code := c; message := msg; status := st;
     hint := opt_hint; apiKey := opt_apiKey |}.

Definition statusToErrorCode (status : Z) : PiholeErrorCode :=
  if status =? 400 then BadRequest
  else if status =? 401 then Unauthorized
  else if status =? 403 then Unauthorized
  else if status =? 404 then NotFound
  else if status =? 409 then Conflict
  else if status =? 422 then ValidationError
  else if status =? 500 then ServerError
  else if (status =? 502) || (status =? 503) || (status =? 504)
       then ServiceUnavailable
  else if (status >=? 400) && (status <? 500) then BadRequest
  else ServerError.

Definition apiKeyToErrorCode (key : string) : PiholeErrorCode :=
  if (key =? "unauthorized")%string || (key =? "auth_failed")%string
  then Unauthorized
  else if (key =? "totp_required")%string then TotpRequired
  else if (key =? "bad_totp")%string then InvalidTotp
  else if (key =? "session_expired")%string then SessionExpired
  else if (key =? "not_found")%string then NotFound
  else if (key =? "conflict")%string then Conflict
  else if (key =? "bad_request")%string then BadRequest
  else Unknown.

Definition isRetryable (c : PiholeErrorCode) : bool :=
  code_eqb c NetworkError || code_eqb c Timeout
  || code_eqb c ServiceUnavailable || code_eqb c ServerError.

Definition isAuthError (c : PiholeErrorCode) : bool :=
  code_eqb c Unauthorized || code_eqb c SessionExpired
  || code_eqb c TotpRequired.

End Errors.

(** ** types/auth.ts *)

Module Auth.

Record Session : Type := mkSession {
  valid : bool;
  sid : string;
  csrf : string;
  validity : Z;
  totp : bool
}.

End Auth.

(** ** http.ts *)

Module Http.
Import ResultT Errors.

Inductive Method : Type := GET | POST | PUT | PATCH | DELETE.

(** A [Record<string, string>]: keys in insertion order. *)
Definition Headers : Type := list (string * string).

(** Request bodies ([body?: unknown]): the login body [{password, totp?}]
    the core builds, or a caller's value: [null], a boolean, a number, a
    string, or an object or array kept as its JSON text. *)
Inductive ReqBody : Type :=
| LoginBody (password : string) (totp : option string)
| NullBody
| BoolBody (b : bool)
| NumberBody (n : Z)
| StringBody (s : string)
| JsonBody (text : string).

(** The test [options.body ? ... : ...]: objects and arrays are truthy;
    [null], [false], [0] and the empty string are not. *)
Definition truthyBody (b : ReqBody) : bool :=
  match b with
  | LoginBody _ _ => true
  | NullBody => false
  | BoolBody b => b
  | NumberBody n => negb (n =? 0)
  | StringBody s => Str.truthy s
  | JsonBody _ => true
  end.

(** [HttpRequestOptions]; [opt_timeout] is its member [timeout], and an
    absent [noRetry] is [false]. *)
Record HttpRequestOptions : Type := mkOptions {
  method : Method;
  path : string;
  body : option ReqBody;
  headers : option Headers;
  opt_timeout : option Z;
  noRetry : bool
}.

(** [HttpConfig] as an [HttpClient] holds it. The constructor spreads a
    [Partial<HttpConfig>] over the defaults, and a member given as
    [undefined] replaces its default: [timeout] and [maxRetries], which
    [PiholeClient] passes on as its caller gave them, are [None] then. *)
Record HttpConfig : Type := mkConfig {
  baseUrl : string;
  timeout : option Z;
  maxRetries : option Z;
  retryDelayBase : Z;
  retryDelayMax : Z;
  backoffMultiplier : Z
}.

Definition DEFAULT_HTTP_CONFIG : HttpConfig :=
  {| baseUrl := ""; timeout := Some 10000; maxRetries := Some 3;
     retryDelayBase := 1000; retryDelayMax := 10000;
     backoffMultiplier := 2 |}.

(** *** What [fetch] exchanges with the outside *)

(** The arguments of one [fetch] call; [f_body] is the value whose JSON
    text is sent, and [f_timeout] is the delay given to [setTimeout] for the
    abort controller ([None] when it is [undefined]). *)
Record FetchReq : Type := mkFetchReq {
  f_url : string;
  f_method : Method;
  f_headers : Headers;
  f_body : option ReqBody;
  f_timeout : option Z
}.

(** A value caught by [catch (error)]: an [Error] instance with its [name]
    and [message], or any other thrown value. *)
Inductive Thrown : Type :=
| ThrownError (name msg : string)
| ThrownOther.

(** The member [error] of an error body: [{key?, message?, hint?}]. *)
Record ErrorBody : Type := mkErrorBody {
  e_key : option string;
  e_message : option string;
  e_hint : option string
}.

(** A parsed JSON body, as far as the core reads it: its member [error]
    and its member [session], each [None] when the value has no such member
    (or is not an object at all). *)
Record Payload : Type := mkPayload {
  p_error : option ErrorBody;
  p_session : option Auth.Session
}.

(** What [response.json()] gives: a rejection, or the parsed value. *)
Inductive RespBody : Type :=
| NotJson
| Json (p : Payload).

Record Response : Type := mkResponse {
  r_status : Z;
  r_body : RespBody
}.

(** [response.ok]: the status is in the range 200-299. *)
Definition response_ok (r : Response) : bool :=
  (200 <=? r_status r) && (r_status r <=? 299).

Inductive FetchOutcome : Type :=
| Rejects (t : Thrown)
| Resolves (r : Response).

(** The answer to one [fetch]: how long it took and how it settled. *)
Record NetReply : Type := mkReply {
  elapsed : Z;
  outcome : FetchOutcome
}.

(** The outside world: the answer to the [n]-th [fetch] of the run
    (counting from 0), given its arguments. *)
Definition Network : Type := nat -> FetchReq -> NetReply.

(** Function calls whose entry is recorded in the trace; a call of
    [HttpClient.request] is recorded with its two arguments. *)
Inductive Call : Type :=
| CallHttpRequest (options : HttpRequestOptions)
                  (authHeaders : option Headers)
| CallEnsureSession
| CallAuthenticate
| CallLogout
| CallHandleUnauthorized
| CallClientRequest.

Inductive Event : Type :=
| EvFetch (r : FetchReq)
| EvSleep (ms : Z)
| EvCall (c : Call).

(** The state outside the objects: the clock read by [Date.now()] and the
    events so far, oldest first. *)
Record World : Type := mkWorld {
  now : Z;
  trace : list Event
}.

Definition is_fetch (e : Event) : bool :=
  match e with EvFetch _ => true | _ => false end.

Definition fetch_count (t : list Event) : nat :=
  List.length (List.filter is_fetch t).

Definition emit (e : Event) (w : World) : World :=
  {| now := now w; trace := trace w ++ [e] |}.

Definition enter (c : Call) (w : World) : World := emit (EvCall c) w.

(** The value [T] of a successful call: [undefined] (HTTP 204) or the
    parsed body. *)
Inductive Data : Type :=
| Undefined
| Parsed (p : Payload).

Definition HttpResult : Type := Result Data PiholeError.

(** *** Object spread *)

Fixpoint set_header (k v : string) (hs : Headers) : Headers :=
  match hs with
  | [] => [(k, v)]
  | (k', v') :: rest =>
      if (k' =? k)%string then (k', v) :: rest
      else (k', v') :: set_header k v rest
  end.

(** [{...base, ...extra}]; spreading [undefined] adds nothing. *)
Definition spread (base : Headers) (extra : option Headers) : Headers :=
  match extra with
  | None => base
  | Some hs =>
      fold_left (fun acc kv => set_header (fst kv) (snd kv) acc) hs base
  end.

(** *** HttpClient *)

Definition handleFetchError (error : Thrown) : PiholeError :=
  match error with
  | ThrownError name message =>
      if (name =? "AbortError")%string
      then createError Timeout "Request timed out" 0 None None
      else
        let msg := Str.toLowerCase message in
        if Str.includes msg "ssl" || Str.includes msg "certificate"
           || Str.includes msg "cert_" || Str.includes msg "sec_error"
        then createError CertificateError "SSL certificate error" 0
               (Some "Accept the certificate in your browser first") None
        else if Str.includes msg "econnrefused"
                || Str.includes msg "connection refused"
        then createError ConnectionRefused "Connection refused" 0 None None
        else createError NetworkError message 0 None None
  | ThrownOther => createError Unknown "Unknown error occurred" 0 None None
  end.

Definition parseErrorResponse (response : Response) : PiholeError :=
  let errorData_error :=
    match r_body response with
    | Json p => p_error p
    | NotJson => None
    end in
  let apiKey :=
    match errorData_error with
    | Some e => e_key e
    | None => None
    end in
  let code :=
    match apiKey with
    | Some k =>
        if Str.truthy k then apiKeyToErrorCode k
        else statusToErrorCode (r_status response)
    | None => statusToErrorCode (r_status response)
    end in
  createError code
    match errorData_error with
    | Some {| e_message := Some m |} => m
    | _ => "HTTP " ++ Str.of_Z (r_status response)
    end
    (r_status response)
    match errorData_error with
    | Some e => e_hint e
    | None => None
    end
    apiKey.

Definition handleResponse (response : Response) : HttpResult :=
  if negb (response_ok response) then err (parseErrorResponse response)
  else if r_status response =? 204 then ok Undefined
  else match r_body response with
       | Json p => ok (Parsed p)
       | NotJson =>
           err (createError ParseError "Failed to parse response"
                  (r_status response) None None)
       end.

Section Client.
Variable config : HttpConfig.
Variable net : Network.

Definition calculateDelay (attempt : Z) : Z :=
  let delay := retryDelayBase config * backoffMultiplier config ^ attempt in
  Z.min delay (retryDelayMax config).

(** [await this.sleep(ms)]: the timer fires [ms] later (at once for a
    negative delay). *)
Definition sleep (ms : Z) (w : World) : World :=
  {| now := now w + Z.max 0 ms; trace := trace w ++ [EvSleep ms] |}.

(** The arguments [executeRequest] hands to [fetch]. *)
Definition fetchReq (options : HttpRequestOptions)
           (authHeaders : option Headers) (timeout : option Z) : FetchReq :=
  {| f_url := baseUrl config ++ path options;
     f_method := method options;
     f_headers :=
       spread (spread [("Content-Type", "application/json")] authHeaders)
              (headers options);
     f_body :=
       match body options with
       | Some b => if truthyBody b then Some b else None
       | None => None
       end;
     f_timeout := timeout |}.

(** How the single attempt made as the [n]-th fetch of the run ends. *)
Definition attemptResult (options : HttpRequestOptions)
           (authHeaders : option Headers) (timeout : option Z) (n : nat)
  : HttpResult :=
  match outcome (net n (fetchReq options authHeaders timeout)) with
  | Resolves response => handleResponse response
  | Rejects error => err (handleFetchError error)
  end.

Definition executeRequest (options : HttpRequestOptions)
           (authHeaders : option Headers) (timeout : option Z) (w : World)
  : HttpResult * World :=
  let req := fetchReq options authHeaders timeout in
  let n := fetch_count (trace w) in
  let w' := {| now := now w + elapsed (net n req);
               trace := trace w ++ [EvFetch req] |} in
  (attemptResult options authHeaders timeout n, w').

(** [a < b] for a number [b] that may be [NaN] ([None]): a comparison with
    [NaN] is false. *)
Definition lessThan (a : Z) (b : option Z) : bool :=
  match b with
  | Some b => a <? b
  | None => false
  end.

(** [b - 1]; [NaN - 1] is [NaN]. *)
Definition minusOne (b : option Z) : option Z :=
  match b with
  | Some b => Some (b - 1)
  | None => None
  end.

(** The iterations [for (attempt = 0; attempt < maxAttempts; attempt++)] can
    make: none when [maxAttempts] is [NaN] or not positive. *)
Definition iterations (maxAttempts : option Z) : nat :=
  match maxAttempts with
  | Some m => Z.to_nat m
  | None => O
  end.

(** The [for] loop of [request], from the iteration at index [attempt]
    on. [fuel] bounds the iterations still to run; [request] passes
    [iterations maxAttempts], which is never too few. *)
Fixpoint requestLoop (options : HttpRequestOptions)
         (authHeaders : option Headers) (timeout maxAttempts : option Z)
         (fuel : nat) (attempt : Z) (lastError : option PiholeError)
         (w : World) : HttpResult * World :=
  let exhausted :=
    (err match lastError with
         | Some e => e
         | None => createError Unknown "Request failed" 0 None None
         end, w) in
  match fuel with
  | O => exhausted
  | S fuel' =>
      if lessThan attempt maxAttempts then
        let '(result, w1) := executeRequest options authHeaders timeout w in
        match result with
        | ok _ => (result, w1)
        | err error =>
            if negb (isRetryable (code error)) then (result, w1)
            else
              let w2 :=
                if lessThan attempt (minusOne maxAttempts)
                then sleep (calculateDelay attempt) w1
                else w1 in
              requestLoop options authHeaders timeout maxAttempts
                fuel' (attempt + 1) (Some error) w2
        end
      else exhausted
  end.

(** [options.noRetry ? 1 : this.config.maxRetries + 1]; the sum
    [undefined + 1] is [NaN] ([None]). *)
Definition maxAttemptsOf (options : HttpRequestOptions) : option Z :=
  if noRetry options then Some 1
  else match maxRetries config with
       | Some retries => Some (retries + 1)
       | None => None
       end.

(** [options.timeout ?? this.config.timeout]. *)
Definition timeoutOf (options : HttpRequestOptions) : option Z :=
  match opt_timeout options with
  | Some t => Some t
  | None => timeout config
  end.

Definition request (options : HttpRequestOptions)
           (authHeaders : option Headers) (w : World)
  : HttpResult * World :=
  let w := enter (CallHttpRequest options authHeaders) w in
  if negb (Str.truthy (baseUrl config)) then
    (err (createError BadRequest "Base URL not configured" 0 None None), w)
  else
    let timeout := timeoutOf options in
    let maxAttempts := maxAttemptsOf options in
    requestLoop options authHeaders timeout maxAttempts
      (iterations maxAttempts) 0 None w.

End Client.

End Http.

(** ** session.ts *)

Module Session.
Import ResultT Errors Http.

Record SessionState : Type := mkState {
  sid : string;
  csrf : string;
  expiresAt : Z;
  totpRequired : bool
}.

(** [SessionConfig]; [cfg_password], [cfg_sid] and [cfg_csrf] are its
    members [password], [sid] and [csrf]. *)
Record SessionConfig : Type := mkSessionConfig {
  cfg_password : option string;
  cfg_sid : option string;
  cfg_csrf : option string;
  autoRefresh : bool;
  refreshThreshold : Z
}.

(** How a call of an [async] function ends: it returns a value, or it
    throws (the promise rejects). *)
Inductive Completion (A : Type) : Type :=
| Returned (a : A)
| Threw.
Arguments Returned {A} a.
Arguments Threw {A}.

(** The fields of a [SessionManager]. Between two calls a [refreshPromise]
    that is not [null] is a settled promise, kept as its completion. *)
Record SessionManager : Type := mkManager {
  config : SessionConfig;
  state : option SessionState;
  password : option string;
  refreshPromise : option (Completion bool)
}.

Definition set_state (s : option SessionState) (sm : SessionManager)
  : SessionManager :=
  {| config := config sm; state := s; password := password sm;
     refreshPromise := refreshPromise sm |}.

Definition set_refreshPromise (p : option (Completion bool))
           (sm : SessionManager) : SessionManager :=
  {| config := config sm; state := state sm; password := password sm;
     refreshPromise := p |}.

(** [new SessionManager(http, config)] at clock reading [now]. *)
Definition constructor (cfg : SessionConfig) (now : Z) : SessionManager :=
  {| config := cfg;
     state :=
       match cfg_sid cfg, cfg_csrf cfg with
       | Some s, Some c =>
           if Str.truthy s && Str.truthy c
           then Some {| sid := s; csrf := c; expiresAt := now + 300000;
                        totpRequired := false |}
           else None
       | _, _ => None
       end;
     password :=
       if Str.truthy_opt (cfg_password cfg) then cfg_password cfg else None;
     refreshPromise := None |}.

Definition isExpired (sm : SessionManager) (now : Z) : bool :=
  match state sm with
  | None => true
  | Some s => now >=? expiresAt s
  end.

Definition hasSession (sm : SessionManager) (now : Z) : bool :=
  match state sm with
  | None => false
  | Some _ => negb (isExpired sm now)
  end.

Definition needsRefresh (sm : SessionManager) (now : Z) : bool :=
  match state sm with
  | None => false
  | Some s =>
      if negb (autoRefresh (config sm)) then false
      else
        let threshold := refreshThreshold (config sm) * 1000 in
        now >=? expiresAt s - threshold
  end.

Definition isTotpRequired (sm : SessionManager) : bool :=
  match state sm with
  | Some s => totpRequired s
  | None => false
  end.

Definition getAuthHeaders (sm : SessionManager) : option Headers :=
  match state sm with
  | None => None
  | Some s => Some [("X-FTL-SID", sid s); ("X-FTL-CSRF", csrf s)]
  end.

Definition setPassword (pw : string) (sm : SessionManager) : SessionManager :=
  {| config := config sm; state := state sm; password := Some pw;
     refreshPromise := refreshPromise sm |}.

Definition clear (sm : SessionManager) : SessionManager :=
  {| config := config sm; state := None; password := password sm;
     refreshPromise := None |}.

Definition updateSession (session : Auth.Session) (now : Z)
           (sm : SessionManager) : SessionManager :=
  set_state
    (Some {| sid := Auth.sid session;
             csrf := Auth.csrf session;
             expiresAt := now + Auth.validity session * 1000;
             totpRequired := false |})
    sm.

(** The options of the login call. *)
Definition loginOptions (pw : string) (totp : option string)
  : HttpRequestOptions :=
  {| method := POST; path := "/api/auth";
     body := Some (LoginBody pw (if Str.truthy_opt totp then totp else None));
     headers := None; opt_timeout := None; noRetry := true |}.

Definition logoutOptions : HttpRequestOptions :=
  {| method := DELETE; path := "/api/auth"; body := None;
     headers := None; opt_timeout := None; noRetry := true |}.

(** The state in which a second factor is outstanding. *)
Definition totpState : SessionState :=
  {| sid := ""; csrf := ""; expiresAt := 0; totpRequired := true |}.

(** [authenticate] after its [await]: what it does with the result of the
    login call, at clock reading [now]. Reading [result.data.session] of a
    body that has none, and then a member of it, throws a [TypeError]. *)
Definition authenticateSettle (result : HttpResult) (now : Z)
           (sm : SessionManager) : Completion bool * SessionManager :=
  match result with
  | err error =>
      (Returned false,
       if code_eqb (code error) TotpRequired
       then set_state (Some totpState) sm
       else sm)
  | ok Undefined => (Threw, sm)
  | ok (Parsed p) =>
      match p_session p with
      | None => (Threw, sm)
      | Some session => (Returned true, updateSession session now sm)
      end
  end.

Section Manager.
Variable http : HttpConfig.
Variable net : Network.

Definition authenticate (totp : option string) (sm : SessionManager)
           (w : World) : Completion bool * SessionManager * World :=
  let w := enter CallAuthenticate w in
  match password sm with
  | None => (Returned false, sm, w)
  | Some pw =>
      if negb (Str.truthy pw) then (Returned false, sm, w)
      else
        let '(result, w1) :=
          Http.request http net (loginOptions pw totp) None w in
        let '(c, sm1) := authenticateSettle result (now w1) sm in
        (c, sm1, w1)
  end.

Definition ensureSession (sm : SessionManager) (w : World)
  : Completion bool * SessionManager * World :=
  let w := enter CallEnsureSession w in
  if hasSession sm (now w) && negb (needsRefresh sm (now w))
  then (Returned true, sm, w)
  else
    match refreshPromise sm with
    | Some settled => (settled, sm, w)
    | None =>
        let '(c, sm1, w1) := authenticate None sm w in
        match c with
        | Returned result =>
            (Returned result, set_refreshPromise None sm1, w1)
        | Threw =>
            (Threw, set_refreshPromise (Some Threw) sm1, w1)
        end
    end.

Definition logout (sm : SessionManager) (w : World)
  : bool * SessionManager * World :=
  let w := enter CallLogout w in
  match state sm with
  | None => (true, sm, w)
  | Some _ =>
      let '(result, w1) :=
        Http.request http net logoutOptions (getAuthHeaders sm) w in
      let sm1 := clear sm in
      match result with
      | err error =>
          if status error =? 401 then (true, sm1, w1)
          else (isOk result, sm1, w1)
      | ok _ => (isOk result, sm1, w1)
      end
  end.

Definition handleUnauthorized (sm : SessionManager) (w : World)
  : Completion bool * SessionManager * World :=
  let w := enter CallHandleUnauthorized w in
  authenticate None (set_state None sm) w.

End Manager.

End Session.

(** ** client.ts *)

Module Client.
Import ResultT Errors Http Session.

Section Facade.
Variable http : HttpConfig.
Variable net : Network.

(** [PiholeClient.request(method, path, body)]: the facade owns the
    session manager [sm]; the HTTP client has the configuration [http]. *)
Definition request (m : Method) (p : string) (b : option ReqBody)
           (sm : SessionManager) (w : World)
  : Completion HttpResult * SessionManager * World :=
  let w := enter CallClientRequest w in
  let options :=
    {| method := m; path := p; body := b; headers := None;
       opt_timeout := None; noRetry := false |} in
  let '(c, sm1, w1) := ensureSession http net sm w in
  match c with
  | Threw => (Threw, sm1, w1)
  | Returned false =>
      (Returned
         (err (createError Unauthorized "Not authenticated" 401 None None)),
       sm1, w1)
  | Returned true =>
      let '(result, w2) :=
        Http.request http net options (getAuthHeaders sm1) w1 in
      match result with
      | err error =>
          if status error =? 401 then
            let '(c2, sm3, w3) := handleUnauthorized http net sm1 w2 in
            match c2 with
            | Threw => (Threw, sm3, w3)
            | Returned true =>
                let '(retried, w4) :=
                  Http.request http net options (getAuthHeaders sm3) w3 in
                (Returned retried, sm3, w4)
            | Returned false => (Returned result, sm3, w3)
            end
          else (Returned result, sm1, w2)
      | ok _ => (Returned result, sm1, w2)
      end
  end.

End Facade.

End Client.

(** * Vocabulary of the properties *)

Import ResultT Errors Http Session.
Open Scope list_scope.

(** ** Observing a run through its trace *)

(** The events between the world [w] and a later world [w']. *)
Definition since (w w' : World) : list Event :=
  skipn (List.length (trace w)) (trace w').

(** [w'] is [w] after some events. *)
Definition extends (w w' : World) : Prop :=
  exists d, trace w' = trace w ++ d.

(** The HTTP attempts (calls of [fetch]) made between [w] and [w']. *)
Definition attempts (w w' : World) : nat := fetch_count (since w w').

(** The calls of [HttpClient.request] in a trace, with their arguments. *)
Fixpoint requestsOf (t : list Event)
  : list (HttpRequestOptions * option Headers) :=
  match t with
  | [] => []
  | EvCall (CallHttpRequest options authHeaders) :: t' =>
      (options, authHeaders) :: requestsOf t'
  | _ :: t' => requestsOf t'
  end.

Definition is_handleUnauthorized (e : Event) : bool :=
  match e with EvCall CallHandleUnauthorized => true | _ => false end.

(** The calls of [SessionManager.handleUnauthorized] in a trace. *)
Definition reauthentications (t : list Event) : nat :=
  List.length (List.filter is_handleUnauthorized t).

(** A login call: [POST /api/auth], never retried, without auth headers. *)
Definition isLoginCall (c : HttpRequestOptions * option Headers) : Prop :=
  method (fst c) = POST /\ path (fst c) = "/api/auth"%string
  /\ noRetry (fst c) = true /\ snd c = None.

(** ** The retry loop, seen from outside *)

(** A result after which the loop goes on: a failure of a retryable kind. *)
Definition retryableFailure (r : HttpResult) : bool :=
  match r with
  | err e => isRetryable (code e)
  | ok _ => false
  end.

(** The number of attempts a loop with [budget] iterations left makes when
    its attempts end as [out n], [out (n + 1)], ...: it stops at the first
    result that is not a retryable failure. *)
Fixpoint attemptsMade (out : nat -> HttpResult) (n budget : nat) : nat :=
  match budget with
  | O => O
  | S b =>
      if retryableFailure (out n) then S (attemptsMade out (S n) b) else 1%nat
  end.

(** The events of [k] attempts from the iteration at index [attempt] on:
    a fetch each, and a sleep between two fetches. *)
Fixpoint loopEvents (req : FetchReq) (delay : Z -> Z) (attempt : Z) (k : nat)
  : list Event :=
  match k with
  | O => []
  | S k' =>
      match k' with
      | O => [EvFetch req]
      | S _ =>
          EvFetch req :: EvSleep (delay attempt)
            :: loopEvents req delay (attempt + 1) k'
      end
  end.

(** What [request] returns when the loop ends without a result. *)
Definition fallback (lastError : option PiholeError) : HttpResult :=
  err match lastError with
      | Some e => e
      | None => createError Unknown "Request failed" 0 None None
      end.

(** ** Transport exceptions, by what their message says *)

Definition mentionsCertificate (message : string) : bool :=
  let msg := Str.toLowerCase message in
  Str.includes msg "ssl" || Str.includes msg "certificate"
  || Str.includes msg "cert_" || Str.includes msg "sec_error".

Definition mentionsRefused (message : string) : bool :=
  let msg := Str.toLowerCase message in
  Str.includes msg "econnrefused" || Str.includes msg "connection refused".

(** ** Error bodies *)

(** The key an error response supplies: [error.key] of its parsed body. *)
Definition suppliedKey (response : Response) : option string :=
  match r_body response with
  | Json {| p_error := Some e |} => e_key e
  | _ => None
  end.

(** ** The shapes of a session *)

(** A session as the data model describes it at clock reading [now]: fully
    populated, or waiting for a second factor. *)
Definition fullyPopulated (s : SessionState) (now : Z) : bool :=
  Str.truthy (sid s) && Str.truthy (csrf s) && (now <? expiresAt s)
  && negb (totpRequired s).

Definition twoFactorRequired (s : SessionState) (now : Z) : bool :=
  negb (Str.truthy (sid s)) && negb (Str.truthy (csrf s))
  && (expiresAt s <=? now) && totpRequired s.

(** Absent, fully populated, or two-factor-required. *)
Definition shapeOK (sm : SessionManager) (now : Z) : bool :=
  match state sm with
  | None => true
  | Some s => fullyPopulated s now || twoFactorRequired s now
  end.

(** Every session a reply of the network carries has an identifier and a
    token that are not empty. *)
Definition wellFormedSessions (net : Network) : Prop :=
  forall n req response p session,
    outcome (net n req) = Resolves response ->
    r_body response = Json p ->
    p_session p = Some session ->
    Str.truthy (Auth.sid session) = true
    /\ Str.truthy (Auth.csrf session) = true.

(** What holds of the session of a manager after any operation: with the
    flag set it is the two-factor state; with the flag unset its identifier
    and token are not empty, as far as the network's sessions are so. *)
Definition sessionInvariant (net : Network) (sm : SessionManager) : Prop :=
  forall s,
    state sm = Some s ->
    (totpRequired s = true -> s = totpState)
    /\ (totpRequired s = false -> wellFormedSessions net ->
        Str.truthy (sid s) = true /\ Str.truthy (csrf s) = true).

(** The operations of a [SessionManager]. *)
Inductive Op : Type :=
| OpHasSession
| OpIsExpired
| OpNeedsRefresh
| OpIsTotpRequired
| OpGetAuthHeaders
| OpSetPassword (pw : string)
| OpClear
| OpEnsureSession
| OpAuthenticate (totp : option string)
| OpLogout
| OpHandleUnauthorized.

(** One operation on the manager [sm] in the world [w]; its return value is
    dropped. *)
Definition runOp (http : HttpConfig) (net : Network) (op : Op)
           (sm : SessionManager) (w : World) : SessionManager * World :=
  match op with
  | OpHasSession | OpIsExpired | OpNeedsRefresh | OpIsTotpRequired
  | OpGetAuthHeaders => (sm, w)
  | OpSetPassword pw => (setPassword pw sm, w)
  | OpClear => (clear sm, w)
  | OpEnsureSession =>
      let '(_, sm', w') := ensureSession http net sm w in (sm', w')
  | OpAuthenticate totp =>
      let '(_, sm', w') := authenticate http net totp sm w in (sm', w')
  | OpLogout =>
      let '(_, sm', w') := logout http net sm w in (sm', w')
  | OpHandleUnauthorized =>
      let '(_, sm', w') := handleUnauthorized http net sm w in (sm', w')
  end.

Fixpoint runOps (http : HttpConfig) (net : Network) (ops : list Op)
         (sm : SessionManager) (w : World) : SessionManager * World :=
  match ops with
  | [] => (sm, w)
  | op :: rest =>
      let '(sm', w') := runOp http net op sm w in
      runOps http net rest sm' w'
  end.

(** * ensureSession on the event loop *)

(** Several calls of [ensureSession] in flight on one manager. An [async]
    function runs without interruption from its call to its first [await],
    and from the settling of the awaited promise to its next [await] or its
    end; between these pieces the event loop may run a piece of any other
    call. A run is a schedule of such pieces. *)

Module EventLoop.

(** The caller that created the promise awaits it and then clears the
    marker; the others return the promise they found. *)
Inductive Role : Type := Own | Shared.

(** The promise [this.authenticate()] returns: pending while the login call
    is in flight ([result] is how that call ends), then settled. *)
Inductive Promise : Type :=
| Pending (result : HttpResult)
| Settled (c : Completion bool).

(** A call of [ensureSession]: not made yet; suspended on a pending promise;
    ready to continue with the completion of the promise; ended. *)
Inductive Caller : Type :=
| Idle
| Awaiting (r : Role)
| Queued (r : Role) (c : Completion bool)
| Finished (c : Completion bool).

(** The manager, its field [refreshPromise] (kept apart, as [marker],
    because here the promise can be pending), the callers and the world. *)
Record System : Type := mkSystem {
  manager : SessionManager;
  marker : option Promise;
  callers : list Caller;
  world : World
}.

(** The pieces: caller [i] calls [ensureSession] at clock reading [now]; the
    login call in flight ends and [authenticate] continues to its end at
    clock reading [now]; caller [i] continues after its [await]. *)
Inductive Label : Type :=
| Call (i : nat) (now : Z)
| Settle (now : Z)
| Resume (i : nat).

Fixpoint update (i : nat) (k : Caller) (l : list Caller) : list Caller :=
  match l, i with
  | [], _ => []
  | _ :: rest, O => k :: rest
  | x :: rest, S i' => x :: update i' k rest
  end.

(** A settled promise wakes every caller suspended on it. *)
Definition wake (c : Completion bool) (k : Caller) : Caller :=
  match k with
  | Awaiting r => Queued r c
  | _ => k
  end.

Section Steps.
Variable http : HttpConfig.
Variable net : Network.

(** [this.authenticate()] up to its [await]: without a password the promise
    is already resolved with [false]; otherwise the login call is made. *)
Definition startAuthenticate (sm : SessionManager) (w : World)
  : Promise * World :=
  let w := enter CallAuthenticate w in
  match password sm with
  | None => (Settled (Returned false), w)
  | Some pw =>
      if negb (Str.truthy pw) then (Settled (Returned false), w)
      else
        let '(result, w1) :=
          Http.request http net (loginOptions pw None) None w in
        (Pending result, w1)
  end.

Definition step (l : Label) (s : System) : option System :=
  match l with
  | Call i t =>
      match nth_error (callers s) i with
      | Some Idle =>
          let w := enter CallEnsureSession
                     {| now := t; trace := trace (world s) |} in
          if hasSession (manager s) t && negb (needsRefresh (manager s) t)
          then Some {| manager := manager s; marker := marker s;
                       callers := update i (Finished (Returned true))
                                    (callers s);
                       world := w |}
          else
            match marker s with
            | Some (Pending _) =>
                Some {| manager := manager s; marker := marker s;
                        callers := update i (Awaiting Shared) (callers s);
                        world := w |}
            | Some (Settled c) =>
                Some {| manager := manager s; marker := marker s;
                        callers := update i (Queued Shared c) (callers s);
                        world := w |}
            | None =>
                let '(promise, w1) := startAuthenticate (manager s) w in
                Some {| manager := manager s; marker := Some promise;
                        callers :=
                          update i
                            match promise with
                            | Pending _ => Awaiting Own
                            | Settled c => Queued Own c
                            end
                            (callers s);
                        world := w1 |}
            end
      | _ => None
      end
  | Settle t =>
      match marker s with
      | Some (Pending result) =>
          let '(c, sm') := authenticateSettle result t (manager s) in
          Some {| manager := sm'; marker := Some (Settled c);
                  callers := List.map (wake c) (callers s);
                  world := {| now := t; trace := trace (world s) |} |}
      | _ => None
      end
  | Resume i =>
      match nth_error (callers s) i with
      | Some (Queued Own (Returned result)) =>
          Some {| manager := manager s; marker := None;
                  callers := update i (Finished (Returned result)) (callers s);
                  world := world s |}
      | Some (Queued Own Threw) =>
          Some {| manager := manager s; marker := marker s;
                  callers := update i (Finished Threw) (callers s);
                  world := world s |}
      | Some (Queued Shared c) =>
          Some {| manager := manager s; marker := marker s;
                  callers := update i (Finished c) (callers s);
                  world := world s |}
      | _ => None
      end
  end.

(** A schedule runs from [s] when each of its pieces can run in turn. *)
Fixpoint run (schedule : list Label) (s : System) : option System :=
  match schedule with
  | [] => Some s
  | l :: rest =>
      match step l s with
      | Some s' => run rest s'
      | None => None
      end
  end.

End Steps.

(** [n] callers about to call [ensureSession] on the manager [sm]: a
    promise that [sm] still holds from an earlier call is a settled one. *)
Definition boot (sm : SessionManager) (n : nat) (w : World) : System :=
  {| manager := sm; marker := option_map Settled (refreshPromise sm);
     callers := List.repeat Idle n; world := w |}.

Definition isCall (l : Label) : bool :=
  match l with Call _ _ => true | _ => false end.

Definition isResume (l : Label) : bool :=
  match l with Resume _ => true | _ => false end.

(** The calls overlap: each is made before any caller continues. *)
Definition overlapping (schedule : list Label) : Prop :=
  forall before l after,
    schedule = before ++ l :: after ->
    isResume l = true ->
    forallb (fun l' => negb (isCall l')) after = true.

(** Every call is made at a clock reading (not negative) at which the
    session of [sm] is missing, expired or due for a refresh. *)
Definition needAuthentication (sm : SessionManager) (schedule : list Label)
  : Prop :=
  forall i t,
    In (Call i t) schedule ->
    0 <= t /\ hasSession sm t && negb (needsRefresh sm t) = false.

Definition isFinished (k : Caller) : bool :=
  match k with Finished _ => true | _ => false end.

Definition isQueued (k : Caller) : bool :=
  match k with Queued _ _ => true | _ => false end.

(** A caller that has called and is ready to continue, or has ended. *)
Definition woken (k : Caller) : Prop :=
  isQueued k = true \/ isFinished k = true.

(** No call is left after a caller has continued ([resumed]). *)
Fixpoint phased (resumed : bool) (schedule : list Label) : bool :=
  match schedule with
  | [] => true
  | Call _ _ :: rest => negb resumed && phased resumed rest
  | Settle _ :: rest => phased resumed rest
  | Resume _ :: rest => phased true rest
  end.

(** [ensureSession] returns [true] at once. *)
Definition usable (sm : SessionManager) (t : Z) : bool :=
  hasSession sm t && negb (needsRefresh sm t).

(** *** The states a run goes through *)

Section Reachable.
Variable http : HttpConfig.
Variable net : Network.
Variable sm0 : SessionManager.
Variable n : nat.
Variable w0 : World.

(** The login fetches of a run that needs to authenticate. *)
Definition expectedLogins : nat :=
  if Str.truthy_opt (password sm0) && Str.truthy (baseUrl http)
  then 1%nat else 0%nat.

(** [result] is the result of the login call of [sm0], made as the first HTTP
    call of the run. *)
Definition loginResult (result : HttpResult) : Prop :=
  exists pw w',
    password sm0 = Some pw /\ Str.truthy pw = true
    /\ fetch_count (trace w') = fetch_count (trace w0)
    /\ result = fst (Http.request http net (loginOptions pw None) None w').

(** The completion [c] and the manager [sm] are what one call of
    [authenticate] on [sm0] ends with: [false] at once without a password,
    or what it makes of the result of the login call. *)
Definition outcome (c : Completion bool) (sm : SessionManager) : Prop :=
  (Str.truthy_opt (password sm0) = false /\ c = Returned false /\ sm = sm0)
  \/ (exists result t,
        loginResult result /\ authenticateSettle result t sm0 = (c, sm)).

(** The manager after an attempt that ended with [c]: unless the attempt
    returned [true], its session is no more usable than it was. *)
Definition settledFrom (c : Completion bool) (sm : SessionManager) : Prop :=
  c = Returned true
  \/ forall t, 0 <= t -> usable sm0 t = false -> usable sm t = false.

Definition unaware (k : Caller) : Prop :=
  k = Idle \/ exists r, k = Awaiting r.

Definition aware (c : Completion bool) (k : Caller) : Prop :=
  k = Idle \/ (exists r, k = Queued r c) \/ k = Finished c.

(** A caller that found the promise [sm0] was left with. *)
Definition latecomer (c : Completion bool) (k : Caller) : Prop :=
  k = Idle \/ k = Queued Shared c \/ k = Finished c.

(** Before the first call; with the attempt in flight; with the attempt
    settled and the marker still set; with the marker cleared by the caller
    that owned the attempt; and, when [sm0] was left with a promise, with
    that promise as the marker throughout. *)
Inductive Phase (resumed : bool) (s : System) : Prop :=
| Stale (c : Completion bool) :
    refreshPromise sm0 = Some c ->
    marker s = Some (Settled c) ->
    manager s = sm0 ->
    Forall (latecomer c) (callers s) ->
    attempts w0 (world s) = 0%nat ->
    Phase resumed s
| Fresh :
    refreshPromise sm0 = None ->
    resumed = false ->
    marker s = None ->
    manager s = sm0 ->
    Forall (eq Idle) (callers s) ->
    attempts w0 (world s) = 0%nat ->
    Phase resumed s
| Flying (result : HttpResult) :
    refreshPromise sm0 = None ->
    resumed = false ->
    marker s = Some (Pending result) ->
    manager s = sm0 ->
    loginResult result ->
    Forall unaware (callers s) ->
    Exists (eq (Awaiting Own)) (callers s) ->
    attempts w0 (world s) = expectedLogins ->
    Phase resumed s
| Landed (c : Completion bool) :
    refreshPromise sm0 = None ->
    marker s = Some (Settled c) ->
    outcome c (manager s) ->
    Forall (aware c) (callers s) ->
    Exists (eq (Queued Own c)) (callers s) \/ c = Threw ->
    attempts w0 (world s) = expectedLogins ->
    Phase resumed s
| Cleared (c : Completion bool) :
    refreshPromise sm0 = None ->
    resumed = true ->
    marker s = None ->
    c <> Threw ->
    outcome c (manager s) ->
    Forall (aware c) (callers s) ->
    attempts w0 (world s) = expectedLogins ->
    Phase resumed s.

(** What every state of a run satisfies. *)
Definition reachable (resumed : bool) (s : System) : Prop :=
  List.length (callers s) = n
  /\ extends w0 (world s)
  /\ Phase resumed s.

End Reachable.

End EventLoop.

(** * Concrete runs *)

Module Scenario.

Definition piholeConfig : HttpConfig :=
  {| baseUrl := "http://pi.hole"; timeout := Some 10000;
     maxRetries := Some 3;
     retryDelayBase := 1000; retryDelayMax := 10000;
     backoffMultiplier := 2 |}.

(** The same client with a negative retry count. *)
Definition negativeRetries : HttpConfig :=
  {| baseUrl := "http://pi.hole"; timeout := Some 10000;
     maxRetries := Some (-2);
     retryDelayBase := 1000; retryDelayMax := 10000;
     backoffMultiplier := 2 |}.

(** The configuration of the HTTP client of
    [new PiholeClient({baseUrl: "http://pi.hole", password: "x"})]: the
    members [timeout] and [maxRetries] are [undefined]. *)
Definition omittedRetries : HttpConfig :=
  {| baseUrl := "http://pi.hole"; timeout := None; maxRetries := None;
     retryDelayBase := 1000; retryDelayMax := 10000;
     backoffMultiplier := 2 |}.

Definition start : World := {| now := 1700000000000; trace := [] |}.

Definition getSummary : HttpRequestOptions :=
  {| method := GET; path := "/api/stats/summary"; body := None;
     headers := None; opt_timeout := None; noRetry := false |}.

Definition getSummaryOnce : HttpRequestOptions :=
  {| method := GET; path := "/api/stats/summary"; body := None;
     headers := None; opt_timeout := None; noRetry := true |}.

Definition summaryFetch : FetchReq :=
  fetchReq piholeConfig getSummary None (timeoutOf piholeConfig getSummary).

Definition summaryCall : Event :=
  EvCall (CallHttpRequest getSummary None).

Definition emptyJson : RespBody :=
  Json {| p_error := None; p_session := None |}.

Definition respond (status : Z) (b : RespBody) : NetReply :=
  {| elapsed := 20;
     outcome := Resolves {| r_status := status; r_body := b |} |}.

Definition errorJson (key : string) : RespBody :=
  Json {| p_error := Some {| e_key := Some key; e_message := None;
                             e_hint := None |};
          p_session := None |}.

Definition sessionJson (s c : string) (v : Z) : RespBody :=
  Json {| p_error := None;
          p_session := Some {| Auth.valid := true; Auth.sid := s;
                               Auth.csrf := c; Auth.validity := v;
                               Auth.totp := false |} |}.

(** HTTP 503 on the first three fetches, then 200. *)
Definition unavailableThrice : Network :=
  fun n _ => if (n <? 3)%nat then respond 503 NotJson
             else respond 200 emptyJson.

(** HTTP 500 on every fetch. *)
Definition alwaysFailing : Network := fun _ _ => respond 500 NotJson.

Definition isLoginReq (r : FetchReq) : bool :=
  match f_method r with
  | POST => (f_url r =? "http://pi.hole/api/auth")%string
  | _ => false
  end.

(** A server that accepts every login and answers 401 to anything else. *)
Definition alwaysUnauthorized : Network :=
  fun _ r => if isLoginReq r then respond 200 (sessionJson "s1" "c1" 300)
             else respond 401 (errorJson "unauthorized").

(** A server that asks for a second factor on login. *)
Definition wantsTotp : Network :=
  fun _ _ => respond 401 (errorJson "totp_required").

(** A server without a password: its login answer carries an empty
    identifier and the validity -1. *)
Definition passwordless : Network :=
  fun _ _ => respond 200 (sessionJson "" "" (-1)).

Definition loggedIn : Network :=
  fun _ _ => respond 200 (sessionJson "s1" "c1" 300).

Definition sessionConfig : SessionConfig :=
  {| cfg_password := Some "x"; cfg_sid := None; cfg_csrf := None;
     autoRefresh := true; refreshThreshold := 60 |}.

Definition freshManager : SessionManager :=
  constructor sessionConfig (now start).

Definition liveSession : SessionState :=
  {| sid := "s1"; csrf := "c1"; expiresAt := now start + 300000;
     totpRequired := false |}.

Definition liveManager : SessionManager :=
  {| config := sessionConfig; state := Some liveSession;
     password := Some "x"; refreshPromise := None |}.

(** An error response whose body supplies the empty key. *)
Definition emptyKeyResponse : Response :=
  {| r_status := 404; r_body := errorJson "" |}.

(** A refused connection to a host whose name contains "ssl". *)
Definition refusedBySslHost : Thrown :=
  ThrownError "TypeError" "connect ECONNREFUSED ssl.example.com:443".

(** A network on which every fetch fails that way. *)
Definition refusing : Network :=
  fun _ _ => {| elapsed := 1; outcome := Rejects refusedBySslHost |}.

(** An abort whose message mentions a certificate. *)
Definition abortedDuringHandshake : Thrown :=
  ThrownError "AbortError" "aborted while verifying the certificate".

(** A server that answers every request, the login too, with 204. *)
Definition noContent : Network := fun _ _ => respond 204 NotJson.

Definition withoutPassword : SessionManager :=
  {| config := sessionConfig; state := None; password := None;
     refreshPromise := None |}.

(** The manager a call of [ensureSession] that threw leaves behind. *)
Definition rejected : SessionManager :=
  {| config := sessionConfig; state := None; password := Some "x";
     refreshPromise := Some Threw |}.

(** Three callers; the third calls once the login has ended. *)
Definition threeCalls : list EventLoop.Label :=
  [EventLoop.Call 0 (now start); EventLoop.Call 2 (now start);
   EventLoop.Settle (now start + 20); EventLoop.Call 1 (now start + 21);
   EventLoop.Resume 2; EventLoop.Resume 0].

Definition afterThreeCalls : EventLoop.System :=
  {| EventLoop.manager :=
       {| config := sessionConfig;
          state := Some {| sid := "s1"; csrf := "c1";
                           expiresAt := now start + 20 + 300000;
                           totpRequired := false |};
          password := Some "x"; refreshPromise := None |};
     EventLoop.marker := None;
     EventLoop.callers :=
       List.repeat (EventLoop.Finished (Returned true)) 3;
     EventLoop.world :=
       {| now := now start + 21;
          trace :=
            [EvCall CallEnsureSession; EvCall CallAuthenticate;
             EvCall (CallHttpRequest (loginOptions "x" None) None);
             EvFetch (fetchReq piholeConfig (loginOptions "x" None) None
                        (Some 10000));
             EvCall CallEnsureSession; EvCall CallEnsureSession] |} |}.

(** Two callers at the same instant. *)
Definition twoCalls : list EventLoop.Label :=
  [EventLoop.Call 0 (now start); EventLoop.Call 1 (now start);
   EventLoop.Resume 0; EventLoop.Resume 1].

(** One caller whose login call ends 20 ms later. *)
Definition oneCall : list EventLoop.Label :=
  [EventLoop.Call 0 (now start); EventLoop.Settle (now start + 20);
   EventLoop.Resume 0].

End Scenario.

(** * The rest of the core *)

(** ** http.ts: the base URL of the client *)

Module HttpClient.

(** [url.replace(/\/+$/, "")]: the slashes at the end of [url] go. *)
Fixpoint stripTrailingSlashes (url : string) : string :=
  match url with
  | EmptyString => EmptyString
  | String c rest =>
      match stripTrailingSlashes rest with
      | EmptyString =>
          if Ascii.eqb c "/" then EmptyString else String c EmptyString
      | String c' rest' => String c (String c' rest')
      end
  end.

Definition getBaseUrl (config : HttpConfig) : string := baseUrl config.

Definition setBaseUrl (url : string) (config : HttpConfig) : HttpConfig :=
  {| baseUrl := stripTrailingSlashes url;
     timeout := timeout config;
     maxRetries := maxRetries config;
     retryDelayBase := retryDelayBase config;
     retryDelayMax := retryDelayMax config;
     backoffMultiplier := backoffMultiplier config |}.

(** A [Partial<HttpConfig>]: each member is absent ([None]) or present.
    The members [timeout] and [maxRetries] can be present with the value
    [undefined], as they are in the object [PiholeClient] builds. *)
Record PartialHttpConfig : Type := mkPartial {
  p_baseUrl : option string;
  p_timeout : option (option Z);
  p_maxRetries : option (option Z);
  p_retryDelayBase : option Z;
  p_retryDelayMax : option Z;
  p_backoffMultiplier : option Z
}.

(** One member of [{...base, ...config}]: the one of [config] when it is
    present there, whatever its value is. *)
Definition over {A : Type} (given : option A) (b : A) : A :=
  match given with
  | Some v => v
  | None => b
  end.

(** [{...base, ...config}]. *)
Definition spreadConfig (base : HttpConfig) (config : PartialHttpConfig)
  : HttpConfig :=
  {| baseUrl := over (p_baseUrl config) (baseUrl base);
     timeout := over (p_timeout config) (timeout base);
     maxRetries := over (p_maxRetries config) (maxRetries base);
     retryDelayBase := over (p_retryDelayBase config) (retryDelayBase base);
     retryDelayMax := over (p_retryDelayMax config) (retryDelayMax base);
     backoffMultiplier :=
       over (p_backoffMultiplier config) (backoffMultiplier base) |}.

(** [new HttpClient(config)]. *)
Definition constructor (config : PartialHttpConfig) : HttpConfig :=
  spreadConfig DEFAULT_HTTP_CONFIG config.

(** [configure(config)]. *)
Definition configure (config : PartialHttpConfig) (current : HttpConfig)
  : HttpConfig :=
  spreadConfig current config.

End HttpClient.

(** ** client.ts: the other methods of the facade *)

Module PiholeClient.

(** [PiholeClientConfig]; a member the caller omits is [None]. *)
Record PiholeClientConfig : Type := mkClientConfig {
  c_baseUrl : string;
  c_password : option string;
  c_sid : option string;
  c_csrf : option string;
  c_timeout : option Z;
  c_maxRetries : option Z;
  c_autoRefresh : option bool;
  c_refreshThreshold : option Z
}.

(** The object [{baseUrl, timeout: config.timeout, maxRetries:
    config.maxRetries}] the constructor hands to [new HttpClient]: its three
    members are always present. *)
Definition httpConfigOf (config : PiholeClientConfig)
  : HttpClient.PartialHttpConfig :=
  {| HttpClient.p_baseUrl :=
       Some (HttpClient.stripTrailingSlashes (c_baseUrl config));
     HttpClient.p_timeout := Some (c_timeout config);
     HttpClient.p_maxRetries := Some (c_maxRetries config);
     HttpClient.p_retryDelayBase := None;
     HttpClient.p_retryDelayMax := None;
     HttpClient.p_backoffMultiplier := None |}.

(** [new PiholeClient(config)] at clock reading [now]: the configuration of
    its HTTP client and its session manager. *)
Definition constructor (config : PiholeClientConfig) (now : Z)
  : HttpConfig * SessionManager :=
  (HttpClient.constructor (httpConfigOf config),
   Session.constructor
     {| cfg_password := c_password config;
        cfg_sid := c_sid config;
        cfg_csrf := c_csrf config;
        autoRefresh :=
          match c_autoRefresh config with
          | Some b => b
          | None => true
          end;
        refreshThreshold :=
          match c_refreshThreshold config with
          | Some t => t
          | None => 60
          end |}
     now).

Section Facade.
Variable http : HttpConfig.
Variable net : Network.

(** [connect(totp?)]. *)
Definition connect (totp : option string) (sm : SessionManager) (w : World)
  : Completion HttpResult * SessionManager * World :=
  let '(success, sm1, w1) := authenticate http net totp sm w in
  match success with
  | Threw => (Threw, sm1, w1)
  | Returned true => (Returned (ok Undefined), sm1, w1)
  | Returned false =>
      if isTotpRequired sm1
      then (Returned
              (err (createError TotpRequired "TOTP code required" 401
                      None None)),
            sm1, w1)
      else (Returned
              (err (createError Unauthorized "Authentication failed" 401
                      None None)),
            sm1, w1)
  end.

(** [disconnect()]. *)
Definition disconnect (sm : SessionManager) (w : World)
  : HttpResult * SessionManager * World :=
  let '(success, sm1, w1) := logout http net sm w in
  if success then (ok Undefined, sm1, w1)
  else (err (createError Unknown "Logout failed" 0 None None), sm1, w1).

(** [isConnected()] at clock reading [now]. *)
Definition isConnected (sm : SessionManager) (now : Z) : bool :=
  hasSession sm now.

Definition testConnectionOptions : HttpRequestOptions :=
  {| method := GET; path := "/api/auth"; body := None; headers := None;
     opt_timeout := None; noRetry := true |}.

(** [testConnection()]. *)
Definition testConnection (w : World) : HttpResult * World :=
  let '(result, w1) := Http.request http net testConnectionOptions None w in
  match result with
  | err error =>
      if status error =? 401 then (ok Undefined, w1) else (result, w1)
  | ok _ => (result, w1)
  end.

Definition getEndpointsOptions : HttpRequestOptions :=
  {| method := GET; path := "/api/endpoints"; body := None; headers := None;
     opt_timeout := None; noRetry := false |}.

(** [getEndpoints()]. *)
Definition getEndpoints (sm : SessionManager) (w : World)
  : HttpResult * World :=
  Http.request http net getEndpointsOptions (getAuthHeaders sm) w.

End Facade.

End PiholeClient.

(** ** More vocabulary *)

(** [headers[key]]: the value of the first entry with that key. *)
Fixpoint getHeader (key : string) (hs : Headers) : option string :=
  match hs with
  | [] => None
  | (k, v) :: rest => if (k =? key)%string then Some v else getHeader key rest
  end.

(** [n] slashes. *)
Fixpoint slashes (n : nat) : string :=
  match n with
  | O => EmptyString
  | S n' => String "/" (slashes n')
  end.

(** The last character of [s] is a slash. *)
Fixpoint endsWithSlash (s : string) : bool :=
  match s with
  | EmptyString => false
  | String c EmptyString => Ascii.eqb c "/"
  | String _ rest => endsWithSlash rest
  end.

(** The delays of the sleeps in a trace, oldest first. *)
Fixpoint sleepsOf (t : list Event) : list Z :=
  match t with
  | [] => []
  | EvSleep ms :: t' => ms :: sleepsOf t'
  | _ :: t' => sleepsOf t'
  end.

(** The arguments of the fetches in a trace, oldest first. *)
Fixpoint fetchesOf (t : list Event) : list FetchReq :=
  match t with
  | [] => []
  | EvFetch r :: t' => r :: fetchesOf t'
  | _ :: t' => fetchesOf t'
  end.

Definition sum (l : list Z) : Z := fold_right Z.add 0 l.

(** The time the sleeps of a trace last: a timer with a negative delay
    fires at once. *)
Definition asleep (t : list Event) : Z :=
  sum (List.map (Z.max 0) (sleepsOf t)).

(** The time the fetches of a trace take, when the first of them is the
    [n]-th fetch of the run. *)
Fixpoint onNetwork (net : Network) (n : nat) (t : list Event) : Z :=
  match t with
  | [] => 0
  | EvFetch r :: t' => elapsed (net n r) + onNetwork net (S n) t'
  | _ :: t' => onNetwork net n t'
  end.

(** The sessions of the login replies in a trace, oldest first, when the
    first fetch of the trace is the [n]-th fetch of the run: a login reply is
    what a [POST] to [/api/auth] is answered with, a 2xx other than 204 whose
    JSON body has a member [session]. *)
Fixpoint loginSessions (http : HttpConfig) (net : Network) (n : nat)
         (t : list Event) : list Auth.Session :=
  match t with
  | [] => []
  | EvFetch r :: t' =>
      let rest := loginSessions http net (S n) t' in
      match f_method r with
      | POST =>
          if (f_url r =? baseUrl http ++ "/api/auth")%string then
            match Http.outcome (net n r) with
            | Resolves response =>
                match handleResponse response with
                | ok (Parsed {| p_session := Some session |}) =>
                    session :: rest
                | _ => rest
                end
            | Rejects _ => rest
            end
          else rest
      | _ => rest
      end
  | _ :: t' => loginSessions http net n t'
  end.

(** The last element of a list. *)
Definition lastOf {A : Type} (l : list A) : option A := hd_error (rev l).

(** The session [s] has the identifier and the token of the last login reply
    among [logins] or, when there is none, is the session the constructor
    made from [cfg] at clock reading [now0]. *)
Definition heldFrom (cfg : SessionConfig) (now0 : Z)
           (logins : list Auth.Session) (s : SessionState) : Prop :=
  match lastOf logins with
  | Some session => sid s = Auth.sid session /\ csrf s = Auth.csrf session
  | None =>
      cfg_sid cfg = Some (sid s) /\ cfg_csrf cfg = Some (csrf s)
      /\ expiresAt s = now0 + 300000
  end.

(** A trace does not end with a sleep. *)
Definition endsAwake (t : list Event) : Prop :=
  forall t' ms, t <> t' ++ [EvSleep ms].

(** The password a manager holds after the operations [ops], when it held
    [pw] before them. *)
Fixpoint passwordAfter (ops : list Op) (pw : option string) : option string :=
  match ops with
  | [] => pw
  | OpSetPassword p :: rest => passwordAfter rest (Some p)
  | _ :: rest => passwordAfter rest pw
  end.

(** * Properties *)

(** ** Traces *)

Lemma fetch_count_app (t1 t2 : list Event) :
  fetch_count (t1 ++ t2) = (fetch_count t1 + fetch_count t2)%nat.
Proof. unfold fetch_count. now rewrite filter_app, length_app. Qed.

Lemma fetch_count_snoc_fetch (t : list Event) (r : FetchReq) :
  fetch_count (t ++ [EvFetch r]) = S (fetch_count t).
Proof. rewrite fetch_count_app. cbn. lia. Qed.

Lemma fetch_count_snoc_sleep (t : list Event) (ms : Z) :
  fetch_count (t ++ [EvSleep ms]) = fetch_count t.
Proof. rewrite fetch_count_app. cbn. lia. Qed.

Lemma fetch_count_snoc_call (t : list Event) (c : Call) :
  fetch_count (t ++ [EvCall c]) = fetch_count t.
Proof. rewrite fetch_count_app. cbn. lia. Qed.

Lemma since_app (w w' : World) (d : list Event) :
  trace w' = trace w ++ d -> since w w' = d.
Proof.
  intros H. unfold since. rewrite H.
  rewrite skipn_app, skipn_all, Nat.sub_diag. reflexivity.
Qed.

Lemma fetch_count_loopEvents req delay :
  forall k attempt, fetch_count (loopEvents req delay attempt k) = k.
Proof.
  induction k as [|k IH]; intros attempt; [reflexivity|].
  destruct k as [|k]; [reflexivity|].
  change (fetch_count (loopEvents req delay attempt (S (S k))))
    with (S (fetch_count (loopEvents req delay (attempt + 1) (S k)))).
  now rewrite IH.
Qed.

(** A sleep in the events of a loop follows the fetch of the iteration whose
    index it is computed from. *)
Lemma loopEvents_sleep req delay :
  forall k attempt pre ms post,
    loopEvents req delay attempt k = pre ++ EvSleep ms :: post ->
    (1 <= fetch_count pre)%nat /\
    ms = delay (attempt + Z.of_nat (fetch_count pre - 1)).
Proof.
  induction k as [|k IH]; intros attempt pre ms post H.
  - destruct pre; discriminate.
  - destruct k as [|k].
    + destruct pre as [|e [|e' pre]]; discriminate.
    + cbn [loopEvents] in H.
      fold (loopEvents req delay (attempt + 1) (S k)) in H.
      destruct pre as [|e pre]; [discriminate|].
      injection H as He H. subst e.
      destruct pre as [|e pre].
      * injection H as Hms _. subst ms. cbn. split; [lia|]. f_equal. lia.
      * injection H as He H. subst e.
        apply IH in H. destruct H as [Hpos Hms].
        change (fetch_count (EvFetch req :: EvSleep (delay attempt) :: pre))
          with (S (fetch_count pre)).
        split; [lia|]. rewrite Hms. f_equal. lia.
Qed.

(** ** The number of attempts *)

Section AttemptsMade.
Variable out : nat -> HttpResult.

Lemma attemptsMade_le :
  forall budget n, (attemptsMade out n budget <= budget)%nat.
Proof.
  induction budget as [|b IH]; intros n; cbn; [lia|].
  destruct (retryableFailure (out n)); [specialize (IH (S n))|]; lia.
Qed.

Lemma attemptsMade_pos :
  forall budget n, (0 < budget)%nat -> (1 <= attemptsMade out n budget)%nat.
Proof.
  intros [|b] n H; [lia|]. cbn. destruct (retryableFailure (out n)); lia.
Qed.

Lemma attemptsMade_earlier :
  forall budget n i,
    (S i < attemptsMade out n budget)%nat ->
    retryableFailure (out (n + i)%nat) = true.
Proof.
  induction budget as [|b IH]; intros n i H; cbn in H; [lia|].
  destruct (retryableFailure (out n)) eqn:Hn; [|lia].
  destruct i as [|i]; [now rewrite Nat.add_0_r|].
  replace (n + S i)%nat with (S n + i)%nat by lia.
  apply IH. lia.
Qed.

Lemma attemptsMade_stop :
  forall budget n i,
    (i < budget)%nat ->
    (forall j, (j < i)%nat -> retryableFailure (out (n + j)%nat) = true) ->
    retryableFailure (out (n + i)%nat) = false ->
    attemptsMade out n budget = S i.
Proof.
  induction budget as [|b IH]; intros n i Hi Hbefore Hstop; [lia|].
  cbn. destruct i as [|i].
  - rewrite Nat.add_0_r in Hstop. now rewrite Hstop.
  - rewrite <- (Nat.add_0_r n) at 1. rewrite (Hbefore 0%nat) by lia.
    f_equal. apply IH; [lia| |].
    + intros j Hj. replace (S n + j)%nat with (n + S j)%nat by lia.
      apply Hbefore. lia.
    + now replace (S n + i)%nat with (n + S i)%nat by lia.
Qed.

Lemma attemptsMade_all :
  forall budget n,
    (forall j, (j < budget)%nat -> retryableFailure (out (n + j)%nat) = true) ->
    attemptsMade out n budget = budget.
Proof.
  induction budget as [|b IH]; intros n Hall; [reflexivity|].
  cbn. rewrite <- (Nat.add_0_r n) at 1. rewrite (Hall 0%nat) by lia.
  f_equal. apply IH. intros j Hj.
  replace (S n + j)%nat with (n + S j)%nat by lia. apply Hall. lia.
Qed.

End AttemptsMade.

(** ** The retry loop *)

Section RetryLoop.
Variable config : HttpConfig.
Variable net : Network.
Variable options : HttpRequestOptions.
Variable authHeaders : option Headers.

Local Abbreviation T := (timeoutOf config options).
Local Abbreviation MA := (maxAttemptsOf config options).
Local Abbreviation M := (Z.of_nat (iterations MA)).
Local Abbreviation req := (fetchReq config options authHeaders T).
Local Abbreviation out := (attemptResult config net options authHeaders T).

(** The tests of the loop, on the number of iterations it can make. *)
Lemma lessThan_iterations (a : Z) (bound : option Z) :
  0 <= a ->
  lessThan a bound = (a <? Z.of_nat (iterations bound))
  /\ lessThan a (minusOne bound) = (a <? Z.of_nat (iterations bound) - 1).
Proof.
  intros Ha. destruct bound as [b|]; cbn [lessThan minusOne iterations].
  - split.
    + destruct (Z.ltb_spec a b), (Z.ltb_spec a (Z.of_nat (Z.to_nat b)));
        try reflexivity; lia.
    + destruct (Z.ltb_spec a (b - 1)),
        (Z.ltb_spec a (Z.of_nat (Z.to_nat b) - 1)); try reflexivity; lia.
  - split; symmetry; apply Z.ltb_ge; cbn; lia.
Qed.

(** With fuel for every iteration that is left, the loop makes
    [attemptsMade] attempts, emits their events and returns the result of
    the last one. *)
Lemma requestLoop_spec :
  forall fuel attempt lastError w,
    0 <= attempt ->
    M - attempt <= Z.of_nat fuel ->
    let n0 := fetch_count (trace w) in
    let k := attemptsMade out n0 (Z.to_nat (M - attempt)) in
    let rw :=
      requestLoop config net options authHeaders T MA fuel attempt lastError w
    in
    trace (snd rw) = trace w ++ loopEvents req (calculateDelay config) attempt k
    /\ fst rw = match k with
                | O => fallback lastError
                | S k' => out (n0 + k')%nat
                end.
Proof.
  induction fuel as [|fuel IH]; intros attempt lastError w Hat Hfuel.
  - cbn zeta. replace (Z.to_nat (M - attempt)) with 0%nat by lia.
    cbn. rewrite app_nil_r. split; reflexivity.
  - cbn zeta. cbn [requestLoop].
    destruct (lessThan_iterations attempt MA Hat) as [-> ->].
    destruct (attempt <? M) eqn:Hlt.
    + apply Z.ltb_lt in Hlt.
      destruct (Z.to_nat (M - attempt)) as [|b] eqn:Hb; [lia|].
      cbn [attemptsMade]. unfold executeRequest. cbn zeta.
      destruct (out (fetch_count (trace w))) as [d|e] eqn:Hout;
        cbn [retryableFailure].
      * cbn. rewrite Nat.add_0_r, Hout. split; reflexivity.
      * destruct (isRetryable (code e)) eqn:Hre; cbn [negb].
        -- set (w1 := {| now := _; trace := trace w ++ [EvFetch req] |}).
           set (w2 := if attempt <? M - 1
                      then sleep (calculateDelay config attempt) w1 else w1).
           assert (Hn2 : fetch_count (trace w2) = S (fetch_count (trace w))).
           { unfold w2, w1, sleep. destruct (attempt <? M - 1); cbn [trace];
               rewrite ?fetch_count_snoc_sleep, fetch_count_snoc_fetch;
               reflexivity. }
           specialize (IH (attempt + 1) (Some e) w2 ltac:(lia) ltac:(lia)).
           cbn zeta in IH. rewrite Hn2 in IH.
           replace (Z.to_nat (M - (attempt + 1))) with b in IH by lia.
           destruct IH as [IHt IHr]. rewrite IHt, IHr.
           destruct b as [|b'].
           ++ cbn. assert (Hlast : (attempt <? M - 1) = false)
                by (apply Z.ltb_ge; lia).
              unfold w2. rewrite Hlast. cbn.
              rewrite app_nil_r, Nat.add_0_r, Hout.
              split; reflexivity.
           ++ assert (Hmore : (attempt <? M - 1) = true)
                by (apply Z.ltb_lt; lia).
              unfold w2. rewrite Hmore.
              destruct (attemptsMade out (S (fetch_count (trace w))) (S b'))
                as [|k'] eqn:Hk.
              { cbn in Hk. destruct (retryableFailure _); discriminate. }
              split.
              ** cbn [loopEvents sleep trace w1]. rewrite <- !app_assoc. cbn.
                 destruct k'; reflexivity.
              ** f_equal. lia.
        -- cbn. rewrite Nat.add_0_r, Hout. split; reflexivity.
    + apply Z.ltb_ge in Hlt.
      replace (Z.to_nat (M - attempt)) with 0%nat by lia.
      cbn. rewrite app_nil_r. split; reflexivity.
Qed.

(** [request] with a configured base URL. *)
Lemma request_spec (w : World) :
  Str.truthy (baseUrl config) = true ->
  let k := attemptsMade out (fetch_count (trace w)) (iterations MA) in
  let rw := Http.request config net options authHeaders w in
  trace (snd rw)
  = trace w ++ EvCall (CallHttpRequest options authHeaders)
      :: loopEvents req (calculateDelay config) 0 k
  /\ fst rw = match k with
              | O => fallback None
              | S k' => out (fetch_count (trace w) + k')%nat
              end.
Proof.
  intros Hbase. cbn zeta. unfold Http.request. rewrite Hbase. cbn [negb].
  pose proof (requestLoop_spec (iterations MA) 0 None
                (enter (CallHttpRequest options authHeaders) w)
                ltac:(lia) ltac:(lia)) as H.
  cbn zeta in H.
  replace (Z.to_nat (M - 0)) with (iterations MA) in H by lia.
  unfold enter, emit in *. cbn [trace] in H.
  rewrite fetch_count_snoc_call in H.
  destruct H as [Ht Hr]. rewrite Ht, Hr.
  rewrite <- app_assoc. split; reflexivity.
Qed.

(** [request] without a base URL: no attempt at all. *)
Lemma request_unconfigured (w : World) :
  Str.truthy (baseUrl config) = false ->
  Http.request config net options authHeaders w
  = (err (createError BadRequest "Base URL not configured" 0 None None),
     enter (CallHttpRequest options authHeaders) w).
Proof. intros Hbase. unfold Http.request. now rewrite Hbase. Qed.

(** The trace of a call of [request], with or without a base URL. *)
Lemma request_trace (w : World) :
  exists k,
    trace (snd (Http.request config net options authHeaders w))
    = trace w ++ EvCall (CallHttpRequest options authHeaders)
        :: loopEvents req (calculateDelay config) 0 k.
Proof.
  destruct (Str.truthy (baseUrl config)) eqn:Hbase.
  - eexists. apply (request_spec w Hbase).
  - exists 0%nat. rewrite (request_unconfigured w Hbase). reflexivity.
Qed.

End RetryLoop.

(** ** Retry policy (C1) *)

Lemma attempts_request config net options authHeaders w :
  Str.truthy (baseUrl config) = true ->
  attempts w (snd (Http.request config net options authHeaders w))
  = attemptsMade
      (attemptResult config net options authHeaders (timeoutOf config options))
      (fetch_count (trace w)) (iterations (maxAttemptsOf config options)).
Proof.
  intros Hbase.
  destruct (request_spec config net options authHeaders w Hbase) as [Ht _].
  unfold attempts. rewrite (since_app _ _ _ Ht).
  change (fetch_count (EvCall ?c :: ?l)) with (fetch_count l).
  apply fetch_count_loopEvents.
Qed.

Lemma request_since config net options authHeaders w :
  exists k,
    since w (snd (Http.request config net options authHeaders w))
    = EvCall (CallHttpRequest options authHeaders)
        :: loopEvents (fetchReq config options authHeaders
                         (timeoutOf config options))
             (calculateDelay config) 0 k
    /\ attempts w (snd (Http.request config net options authHeaders w)) = k.
Proof.
  destruct (request_trace config net options authHeaders w) as [k Hk].
  exists k. pose proof (since_app _ _ _ Hk) as Hs. split; [exact Hs|].
  unfold attempts. rewrite Hs.
  change (fetch_count (EvCall ?c :: ?l)) with (fetch_count l).
  apply fetch_count_loopEvents.
Qed.

(** A call that is not retried makes one attempt and returns its result. *)
Lemma request_once config net options authHeaders w :
  Str.truthy (baseUrl config) = true ->
  noRetry options = true ->
  fst (Http.request config net options authHeaders w)
  = attemptResult config net options authHeaders (timeoutOf config options)
      (fetch_count (trace w))
  /\ attempts w (snd (Http.request config net options authHeaders w)) = 1%nat.
Proof.
  intros Hbase Hno.
  destruct (request_spec config net options authHeaders w Hbase) as [_ Hr].
  pose proof (attempts_request config net options authHeaders w Hbase) as Ha.
  unfold maxAttemptsOf in *. rewrite Hno in *.
  cbn [iterations] in *. change (Z.to_nat 1) with 1%nat in *.
  cbn [attemptsMade] in *.
  destruct (retryableFailure _); rewrite Hr, Ha, Nat.add_0_r; now split.
Qed.

(** C1, as the code has it. Without a base URL the call fails with
    [BadRequest] and makes no attempt. With a base URL, a descriptor with
    [noRetry] gets exactly one attempt, whose result is returned; and when
    [maxRetries] is a number that is not negative, any descriptor gets at
    least one and at most [maxRetries + 1] attempts; the result returned is
    the result of the last attempt made, every attempt before it failed with
    a retryable error, the first attempt that succeeds or fails with an error
    that is not retryable ends the call with that result, and when every
    attempt of the budget fails with a retryable error the call makes them
    all and returns the last failure. In particular [maxRetries] retryable
    failures followed by a success give the success after [maxRetries + 1]
    attempts, and a first failure that is not retryable gives that failure
    after one attempt. *)
Theorem request_retry_policy config net options authHeaders w :
  let result_of i :=
    attemptResult config net options authHeaders (timeoutOf config options)
      (fetch_count (trace w) + i)%nat in
  let rw := Http.request config net options authHeaders w in
  let k := attempts w (snd rw) in
  let budget := iterations (maxAttemptsOf config options) in
  (Str.truthy (baseUrl config) = false ->
   fst rw = err (createError BadRequest "Base URL not configured" 0 None None)
   /\ k = 0%nat)
  /\ (Str.truthy (baseUrl config) = true ->
      (noRetry options = true -> k = 1%nat /\ fst rw = result_of 0%nat)
      /\ forall retries,
           maxRetries config = Some retries ->
           0 <= retries ->
           ((1 <= k)%nat /\ Z.of_nat k <= retries + 1)
           /\ fst rw = result_of (k - 1)%nat
           /\ (forall i, (S i < k)%nat -> retryableFailure (result_of i) = true)
           /\ (forall i,
                 (i < budget)%nat ->
                 (forall j, (j < i)%nat ->
                            retryableFailure (result_of j) = true) ->
                 retryableFailure (result_of i) = false ->
                 k = S i /\ fst rw = result_of i)
           /\ ((forall j, (j < budget)%nat ->
                          retryableFailure (result_of j) = true) ->
               k = budget /\ fst rw = result_of (budget - 1)%nat
               /\ isOk (fst rw) = false)
           /\ (noRetry options = false ->
               (forall j, Z.of_nat j < retries ->
                          retryableFailure (result_of j) = true) ->
               isOk (result_of (Z.to_nat retries)) = true ->
               isOk (fst rw) = true
               /\ fst rw = result_of (Z.to_nat retries)
               /\ Z.of_nat k = retries + 1)
           /\ (forall e,
                 result_of 0%nat = err e -> isRetryable (code e) = false ->
                 k = 1%nat /\ fst rw = err e)).
Proof.
  intros result_of rw k budget. split.
  { intros Hbase. unfold k, rw.
    rewrite (request_unconfigured config net options authHeaders w Hbase).
    cbn [fst snd]. split; [reflexivity|].
    unfold attempts.
    now rewrite (since_app w (enter (CallHttpRequest options authHeaders) w)
                   [EvCall (CallHttpRequest options authHeaders)] eq_refl). }
  intros Hbase.
  set (out := attemptResult config net options authHeaders
                (timeoutOf config options)).
  set (n0 := fetch_count (trace w)).
  assert (Hk : k = attemptsMade out n0 budget)
    by (apply attempts_request; exact Hbase).
  assert (Hr : fst rw = match k with
                        | O => fallback None
                        | S k' => result_of k'
                        end).
  { destruct (request_spec config net options authHeaders w Hbase) as [_ Hr].
    fold out n0 budget in Hr. rewrite <- Hk in Hr. exact Hr. }
  assert (Hle : (k <= budget)%nat) by (rewrite Hk; apply attemptsMade_le).
  assert (Hlast : (1 <= k)%nat -> fst rw = result_of (k - 1)%nat).
  { intros Hpos. rewrite Hr. destruct k as [|k']; [lia|]. f_equal. lia. }
  split.
  { intros HnoRetry.
    assert (Hone : k = 1%nat).
    { assert (Hb : budget = 1%nat)
        by (unfold budget, maxAttemptsOf; now rewrite HnoRetry).
      assert (Hpos : (1 <= k)%nat)
        by (rewrite Hk; apply attemptsMade_pos; lia).
      lia. }
    split; [exact Hone|]. rewrite Hlast by lia. now rewrite Hone. }
  intros retries Hsome Hretries.
  assert (Hbudget : (1 <= budget)%nat /\ Z.of_nat budget <= retries + 1
                    /\ (noRetry options = false
                        -> budget = S (Z.to_nat retries))).
  { unfold budget, maxAttemptsOf. rewrite Hsome.
    destruct (noRetry options); cbn [iterations];
      (split; [lia|]); (split; [lia|]); [discriminate|intros _; lia]. }
  destruct Hbudget as (Hbudget & Hbound & Hfull).
  assert (Hpos : (1 <= k)%nat)
    by (rewrite Hk; apply attemptsMade_pos; lia).
  specialize (Hlast Hpos).
  assert (Hstop : forall i,
             (i < budget)%nat ->
             (forall j, (j < i)%nat -> retryableFailure (result_of j) = true) ->
             retryableFailure (result_of i) = false ->
             k = S i /\ fst rw = result_of i).
  { intros i Hi Hbefore Hi_stop.
    assert (Hki : k = S i) by (rewrite Hk; now apply attemptsMade_stop).
    split; [exact Hki|]. rewrite Hlast, Hki. f_equal. lia. }
  split; [split; [exact Hpos|lia]|].
  split; [exact Hlast|].
  split.
  { intros i Hi. rewrite Hk in Hi. now apply attemptsMade_earlier in Hi. }
  split; [exact Hstop|].
  split.
  { intros Hall.
    assert (Hkb : k = budget) by (rewrite Hk; now apply attemptsMade_all).
    split; [exact Hkb|]. rewrite Hlast, Hkb. split; [reflexivity|].
    specialize (Hall (budget - 1)%nat ltac:(lia)).
    destruct (result_of (budget - 1)%nat); [discriminate|reflexivity]. }
  split.
  { intros HnoRetry Hfail Hsucc.
    destruct (Hstop (Z.to_nat retries)) as [Hki Hres].
    - rewrite (Hfull HnoRetry). lia.
    - intros j Hj. apply Hfail. lia.
    - destruct (result_of (Z.to_nat retries)); [reflexivity|discriminate].
    - split; [now rewrite Hres|]. split; [exact Hres|]. rewrite Hki. lia. }
  intros e Hfirst Hcode.
  destruct (Hstop 0%nat) as [Hki Hres]; [lia|intros j Hj; lia| |].
  - rewrite Hfirst. exact Hcode.
  - split; [exact Hki|]. now rewrite Hres.
Qed.

(** Three 503 answers and then a 200, with the default retry count of 3:
    the call makes four attempts and returns the success. *)
Lemma request_retry_policy_witness :
  Str.truthy (baseUrl Scenario.piholeConfig) = true
  /\ maxRetries Scenario.piholeConfig = Some 3
  /\ attempts Scenario.start
       (snd (Http.request Scenario.piholeConfig Scenario.unavailableThrice
               Scenario.getSummary None Scenario.start)) = 4%nat
  /\ isOk (fst (Http.request Scenario.piholeConfig Scenario.unavailableThrice
                  Scenario.getSummary None Scenario.start)) = true.
Proof.
  split; [reflexivity|]. split; [reflexivity|].
  pose proof (request_retry_policy Scenario.piholeConfig
                Scenario.unavailableThrice Scenario.getSummary None
                Scenario.start) as H.
  cbn zeta in H. destruct H as [_ H].
  destruct (H eq_refl) as [_ H3]. clear H.
  destruct (H3 3 eq_refl ltac:(lia)) as (_ & _ & _ & _ & _ & Hthen & _).
  destruct (Hthen eq_refl) as (Hok & _ & Hk).
  - intros j Hj.
    assert (Hj3 : (j < 3)%nat) by lia.
    destruct j as [|[|[|j]]]; [reflexivity|reflexivity|reflexivity|lia].
  - reflexivity.
  - split.
    + apply Nat2Z.inj. rewrite Hk. reflexivity.
    + exact Hok.
Defined.

(** C1 as stated fails: a descriptor with [noRetry] gets no attempt at all
    when the base URL is not configured; with a negative retry count a
    retrying descriptor gets no attempt either, which is more than
    [maxRetries + 1], and no observed failure is returned; and the same
    holds with the retry count [undefined], which is what the HTTP client of a
    [PiholeClient] has when its caller gave no [maxRetries], although the
    server would answer 200. *)
Lemma request_attempts_counterexample :
  (noRetry Scenario.getSummaryOnce = true
   /\ attempts Scenario.start
        (snd (Http.request DEFAULT_HTTP_CONFIG Scenario.unavailableThrice
                Scenario.getSummaryOnce None Scenario.start)) = 0%nat)
  /\ (noRetry Scenario.getSummary = false
      /\ maxRetries Scenario.negativeRetries = Some (-2)
      /\ attempts Scenario.start
           (snd (Http.request Scenario.negativeRetries Scenario.alwaysFailing
                   Scenario.getSummary None Scenario.start)) = 0%nat
      /\ fst (Http.request Scenario.negativeRetries Scenario.alwaysFailing
                Scenario.getSummary None Scenario.start)
         = err (createError Unknown "Request failed" 0 None None))
  /\ (noRetry Scenario.getSummary = false
      /\ maxRetries Scenario.omittedRetries = None
      /\ attempts Scenario.start
           (snd (Http.request Scenario.omittedRetries Scenario.loggedIn
                   Scenario.getSummary None Scenario.start)) = 0%nat
      /\ fst (Http.request Scenario.omittedRetries Scenario.loggedIn
                Scenario.getSummary None Scenario.start)
         = err (createError Unknown "Request failed" 0 None None)).
Proof. repeat split. Qed.

(** ** Backoff delay (C5) *)

(** C5: a sleep that [request] makes after the attempt at index [i], that is
    after [i + 1] fetches of the call, lasts
    [min(retryDelayMax, retryDelayBase * backoffMultiplier ^ i)]; with the
    default configuration the delays at the indices 0, 1 and 2 are 1000, 2000
    and 4000 ms. *)
Theorem retry_delay_backoff config net options authHeaders w pre ms post :
  trace (snd (Http.request config net options authHeaders w))
  = trace w ++ pre ++ EvSleep ms :: post ->
  (1 <= fetch_count pre)%nat
  /\ ms = Z.min (retryDelayMax config)
            (retryDelayBase config
             * backoffMultiplier config ^ Z.of_nat (fetch_count pre - 1))
  /\ List.map (calculateDelay DEFAULT_HTTP_CONFIG) [0; 1; 2]
     = [1000; 2000; 4000].
Proof.
  intros Htrace.
  destruct (request_trace config net options authHeaders w) as [k Hk].
  rewrite Hk in Htrace. apply app_inv_head in Htrace.
  destruct pre as [|e pre]; [discriminate|].
  injection Htrace as He Hloop. subst e.
  apply loopEvents_sleep in Hloop. destruct Hloop as [Hpos Hms].
  change (fetch_count (EvCall (CallHttpRequest options authHeaders) :: pre))
    with (fetch_count pre).
  split; [exact Hpos|]. split; [|reflexivity].
  rewrite Hms. unfold calculateDelay. cbn zeta.
  rewrite Z.add_0_l. apply Z.min_comm.
Qed.

(** Three 503 answers and then a 200 with the default delays: the sleep
    after the second attempt lasts 2000 ms. *)
Lemma retry_delay_backoff_witness :
  trace (snd (Http.request Scenario.piholeConfig Scenario.unavailableThrice
                Scenario.getSummary None Scenario.start))
  = trace Scenario.start
    ++ [Scenario.summaryCall; EvFetch Scenario.summaryFetch; EvSleep 1000;
        EvFetch Scenario.summaryFetch]
    ++ EvSleep 2000
       :: [EvFetch Scenario.summaryFetch; EvSleep 4000;
           EvFetch Scenario.summaryFetch]
  /\ 2000 = Z.min 10000 (1000 * 2 ^ 1).
Proof.
  split; [reflexivity|].
  apply (retry_delay_backoff Scenario.piholeConfig Scenario.unavailableThrice
           Scenario.getSummary None Scenario.start
           [Scenario.summaryCall; EvFetch Scenario.summaryFetch; EvSleep 1000;
            EvFetch Scenario.summaryFetch]
           2000
           [EvFetch Scenario.summaryFetch; EvSleep 4000;
            EvFetch Scenario.summaryFetch]
           eq_refl).
Defined.

(** ** Classification of error responses (C6, C10) *)

Lemma parseErrorResponse_key response :
  apiKey (parseErrorResponse response) = suppliedKey response.
Proof.
  unfold parseErrorResponse, suppliedKey.
  destruct (r_body response) as [|[[e|] s]]; reflexivity.
Qed.

Lemma parseErrorResponse_code response :
  code (parseErrorResponse response)
  = match suppliedKey response with
    | Some k => if Str.truthy k then apiKeyToErrorCode k
                else statusToErrorCode (r_status response)
    | None => statusToErrorCode (r_status response)
    end.
Proof.
  unfold parseErrorResponse, suppliedKey.
  destruct (r_body response) as [|[[e|] s]]; reflexivity.
Qed.

Lemma apiKeyToErrorCode_other key :
  ~ In key ["unauthorized"; "auth_failed"; "totp_required"; "bad_totp";
            "session_expired"; "not_found"; "conflict"; "bad_request"]%string ->
  apiKeyToErrorCode key = Unknown.
Proof.
  intros Hnot. unfold apiKeyToErrorCode.
  repeat match goal with
         | |- context [(key =? ?s)%string] =>
             destruct (String.eqb_spec key s) as [->|_];
             [exfalso; apply Hnot; cbn; tauto|]
         end.
  reflexivity.
Qed.

Lemma statusToErrorCode_other_4xx status :
  400 <= status < 500 ->
  ~ In status [401; 403; 404; 409; 422] ->
  statusToErrorCode status = BadRequest.
Proof.
  intros Hrange Hnot. unfold statusToErrorCode.
  assert (status <> 401 /\ status <> 403 /\ status <> 404 /\ status <> 409
          /\ status <> 422) as (H1 & H3 & H4 & H9 & H22).
  { repeat split; intros ->; apply Hnot; cbn; tauto. }
  repeat match goal with
         | |- context [status =? ?c] =>
             destruct (Z.eqb_spec status c); [try lia; try reflexivity|]
         end.
  cbn [orb].
  destruct (Z.geb_spec status 400); [|lia].
  destruct (Z.ltb_spec status 500); [reflexivity|lia].
Qed.

Lemma statusToErrorCode_other_5xx status :
  500 <= status < 600 ->
  ~ In status [502; 503; 504] ->
  statusToErrorCode status = ServerError.
Proof.
  intros Hrange Hnot. unfold statusToErrorCode.
  assert (status <> 502 /\ status <> 503 /\ status <> 504) as (H2 & H3 & H4).
  { repeat split; intros ->; apply Hnot; cbn; tauto. }
  repeat match goal with
         | |- context [status =? ?c] =>
             destruct (Z.eqb_spec status c); [try lia; try reflexivity|]
         end.
  cbn [orb].
  destruct (Z.geb_spec status 400); [|lia].
  destruct (Z.ltb_spec status 500); [lia|reflexivity].
Qed.

Lemma statusToErrorCode_below_400 status :
  status < 400 -> statusToErrorCode status = ServerError.
Proof.
  intros Hlow. unfold statusToErrorCode.
  repeat match goal with
         | |- context [status =? ?c] =>
             destruct (Z.eqb_spec status c); [lia|]
         end.
  cbn [orb].
  destruct (Z.geb_spec status 400); [lia|reflexivity].
Qed.

(** C6, as the code has it: a response that is not 2xx is classified by
    [parseErrorResponse], which keeps the HTTP status; a key that the body
    supplies and that is not empty decides the code through the key table,
    whatever the status; without a key, or with the empty key, the status
    decides it through the status table. *)
Theorem error_response_classification response :
  (response_ok response = false ->
   handleResponse response = err (parseErrorResponse response))
  /\ status (parseErrorResponse response) = r_status response
  /\ (forall k, suppliedKey response = Some k -> k <> ""%string ->
                code (parseErrorResponse response) = apiKeyToErrorCode k)
  /\ (suppliedKey response = None \/ suppliedKey response = Some ""%string ->
      code (parseErrorResponse response)
      = statusToErrorCode (r_status response))
  /\ (apiKeyToErrorCode "unauthorized" = Unauthorized
      /\ apiKeyToErrorCode "auth_failed" = Unauthorized
      /\ apiKeyToErrorCode "totp_required" = TotpRequired
      /\ apiKeyToErrorCode "bad_totp" = InvalidTotp
      /\ apiKeyToErrorCode "session_expired" = SessionExpired
      /\ apiKeyToErrorCode "not_found" = NotFound
      /\ apiKeyToErrorCode "conflict" = Conflict
      /\ apiKeyToErrorCode "bad_request" = BadRequest
      /\ forall k,
           ~ In k ["unauthorized"; "auth_failed"; "totp_required"; "bad_totp";
                   "session_expired"; "not_found"; "conflict";
                   "bad_request"]%string ->
           apiKeyToErrorCode k = Unknown)
  /\ (statusToErrorCode 400 = BadRequest
      /\ statusToErrorCode 401 = Unauthorized
      /\ statusToErrorCode 403 = Unauthorized
      /\ statusToErrorCode 404 = NotFound
      /\ statusToErrorCode 409 = Conflict
      /\ statusToErrorCode 422 = ValidationError
      /\ statusToErrorCode 500 = ServerError
      /\ statusToErrorCode 502 = ServiceUnavailable
      /\ statusToErrorCode 503 = ServiceUnavailable
      /\ statusToErrorCode 504 = ServiceUnavailable
      /\ (forall s, 400 <= s < 500 -> ~ In s [401; 403; 404; 409; 422] ->
                    statusToErrorCode s = BadRequest)
      /\ (forall s, 500 <= s < 600 -> ~ In s [502; 503; 504] ->
                    statusToErrorCode s = ServerError)).
Proof.
  split; [|split; [|split; [|split; [|split]]]].
  - intros Hnot. unfold handleResponse. now rewrite Hnot.
  - reflexivity.
  - intros k Hk Hne. rewrite parseErrorResponse_code, Hk.
    destruct k; [congruence|reflexivity].
  - intros [Hk|Hk]; rewrite parseErrorResponse_code, Hk; reflexivity.
  - repeat (split; [reflexivity|]). exact apiKeyToErrorCode_other.
  - repeat (split; [reflexivity|]).
    split; [exact statusToErrorCode_other_4xx|].
    exact statusToErrorCode_other_5xx.
Qed.

(** C6 as stated fails: a 404 whose body supplies the empty key is
    classified by its status, as [NotFound], and not by the key table,
    which sends the empty key to [Unknown]. *)
Lemma empty_key_counterexample :
  suppliedKey Scenario.emptyKeyResponse = Some ""%string
  /\ apiKeyToErrorCode "" = Unknown
  /\ code (parseErrorResponse Scenario.emptyKeyResponse) = NotFound
  /\ handleResponse Scenario.emptyKeyResponse
     = err (createError NotFound "HTTP 404" 404 None (Some ""%string)).
Proof. repeat split. Qed.

(** C10: [statusToErrorCode] is defined on every integer, and a status below
    400 gives [ServerError]; so does every response with such a status that
    is not 2xx and supplies no key. *)
Theorem status_below_400_is_server_error status :
  status < 400 ->
  statusToErrorCode status = ServerError
  /\ statusToErrorCode status <> BadRequest
  /\ statusToErrorCode status <> Unknown
  /\ forall body,
       response_ok {| r_status := status; r_body := body |} = false ->
       suppliedKey {| r_status := status; r_body := body |} = None ->
       exists e,
         handleResponse {| r_status := status; r_body := body |} = err e
         /\ code e = ServerError.
Proof.
  intros Hlow. pose proof (statusToErrorCode_below_400 status Hlow) as Hcode.
  rewrite Hcode. repeat split; try discriminate.
  intros body Hnot Hkey.
  exists (parseErrorResponse {| r_status := status; r_body := body |}).
  split.
  - unfold handleResponse. now rewrite Hnot.
  - rewrite parseErrorResponse_code, Hkey. exact Hcode.
Qed.

(** A redirect: HTTP 302 is classified as [ServerError]. *)
Lemma status_below_400_is_server_error_witness :
  302 < 400 /\ statusToErrorCode 302 = ServerError.
Proof.
  split; [lia|].
  apply (status_below_400_is_server_error 302). lia.
Defined.

(** ** Classification of transport exceptions (C9) *)

(** C9, as the code has it: when the fetch of an attempt throws, the attempt
    fails with the error [handleFetchError] makes of the thrown value, whose
    status is 0. The tests are made in a fixed order: an [Error] named
    [AbortError] is a [Timeout]; otherwise a message that mentions SSL or a
    certificate gives [CertificateError] with the hint; otherwise a message
    that mentions a refused connection gives [ConnectionRefused]; every
    other [Error] is a [NetworkError] that keeps the message; and only a
    thrown value that is not an [Error] gives [Unknown]. *)
Theorem fetch_error_classification
        config net options authHeaders timeout n error :
  outcome (net n (fetchReq config options authHeaders timeout))
  = Rejects error ->
  attemptResult config net options authHeaders timeout n
  = err (handleFetchError error)
  /\ status (handleFetchError error) = 0
  /\ (forall name message,
        error = ThrownError name message ->
        (name = "AbortError"%string ->
         code (handleFetchError error) = Timeout)
        /\ (name <> "AbortError"%string ->
            mentionsCertificate message = true ->
            code (handleFetchError error) = CertificateError
            /\ hint (handleFetchError error)
               = Some "Accept the certificate in your browser first"%string)
        /\ (name <> "AbortError"%string ->
            mentionsCertificate message = false ->
            mentionsRefused message = true ->
            code (handleFetchError error) = ConnectionRefused)
        /\ (name <> "AbortError"%string ->
            mentionsCertificate message = false ->
            mentionsRefused message = false ->
            code (handleFetchError error) = NetworkError
            /\ Errors.message (handleFetchError error) = message))
  /\ (error = ThrownOther -> code (handleFetchError error) = Unknown).
Proof.
  intros Hrejects. split; [|split; [|split]].
  - unfold attemptResult. now rewrite Hrejects.
  - destruct error as [name message|]; [|reflexivity].
    cbn [handleFetchError].
    destruct (name =? "AbortError")%string; [reflexivity|].
    destruct (_ || _ || _ || _); [reflexivity|].
    destruct (_ || _); reflexivity.
  - intros name message ->. cbn [handleFetchError].
    fold (mentionsCertificate message). fold (mentionsRefused message).
    destruct (String.eqb_spec name "AbortError") as [Habort|Hother].
    + repeat split; intros; try reflexivity; contradiction.
    + split; [intros; contradiction|].
      split; [|split].
      * intros _ Hcert. rewrite Hcert. split; reflexivity.
      * intros _ Hcert Href. rewrite Hcert, Href. reflexivity.
      * intros _ Hcert Href. rewrite Hcert, Href. split; reflexivity.
  - intros ->. reflexivity.
Qed.

(** A fetch that fails on a refused connection to a host named
    [ssl.example.com]. *)
Lemma fetch_error_classification_witness :
  outcome (Scenario.refusing 0%nat Scenario.summaryFetch)
  = Rejects Scenario.refusedBySslHost
  /\ attemptResult Scenario.piholeConfig Scenario.refusing Scenario.getSummary
       None (Some 10000) 0%nat
     = err (handleFetchError Scenario.refusedBySslHost).
Proof.
  split; [reflexivity|].
  apply (fetch_error_classification Scenario.piholeConfig Scenario.refusing
           Scenario.getSummary None (Some 10000) 0%nat Scenario.refusedBySslHost).
  reflexivity.
Defined.

(** C9 as stated fails: a message that indicates a refused connection gives
    [CertificateError] when it also contains "ssl", and a message that
    indicates a certificate problem gives [Timeout] when the error is an
    abort. *)
Lemma fetch_error_counterexample :
  (mentionsRefused "connect ECONNREFUSED ssl.example.com:443" = true
   /\ code (handleFetchError Scenario.refusedBySslHost) = CertificateError)
  /\ (mentionsCertificate "aborted while verifying the certificate" = true
      /\ code (handleFetchError Scenario.abortedDuringHandshake) = Timeout).
Proof. repeat split. Qed.

(** ** Traces of the session manager *)

Lemma extends_refl w : extends w w.
Proof. exists []. now rewrite app_nil_r. Qed.

Lemma extends_trans w1 w2 w3 : extends w1 w2 -> extends w2 w3 -> extends w1 w3.
Proof.
  intros [d1 H1] [d2 H2]. exists (d1 ++ d2). now rewrite H2, H1, app_assoc.
Qed.

Lemma extends_since w w' : extends w w' -> trace w' = trace w ++ since w w'.
Proof. intros [d H]. now rewrite (since_app _ _ _ H). Qed.

Lemma since_trans w1 w2 w3 :
  extends w1 w2 -> extends w2 w3 -> since w1 w3 = since w1 w2 ++ since w2 w3.
Proof.
  intros H12 H23. apply since_app.
  rewrite (extends_since _ _ H23), (extends_since _ _ H12).
  now rewrite app_assoc.
Qed.

Lemma since_refl w : since w w = [].
Proof. apply since_app. now rewrite app_nil_r. Qed.

Lemma extends_enter c w : extends w (enter c w).
Proof. now exists [EvCall c]. Qed.

Lemma since_enter c w : since w (enter c w) = [EvCall c].
Proof. now apply since_app. Qed.

Lemma requestsOf_app t1 t2 :
  requestsOf (t1 ++ t2) = requestsOf t1 ++ requestsOf t2.
Proof.
  induction t1 as [|e t1 IH]; [reflexivity|].
  destruct e as [r|ms|[o a| | | | |]]; cbn; now rewrite ?IH.
Qed.

Lemma reauthentications_app t1 t2 :
  reauthentications (t1 ++ t2)
  = (reauthentications t1 + reauthentications t2)%nat.
Proof. unfold reauthentications. now rewrite filter_app, length_app. Qed.

Lemma loopEvents_quiet req delay :
  forall k attempt,
    requestsOf (loopEvents req delay attempt k) = []
    /\ reauthentications (loopEvents req delay attempt k) = 0%nat.
Proof.
  induction k as [|k IH]; intros attempt; [split; reflexivity|].
  destruct k as [|k]; [split; reflexivity|].
  destruct (IH (attempt + 1)) as [IHr IHa].
  split; cbn [loopEvents requestsOf];
    [exact IHr|exact IHa].
Qed.

(** A call of [HttpClient.request] records itself and nothing else but
    fetches and sleeps. *)
Lemma request_events config net options authHeaders w :
  let w' := snd (Http.request config net options authHeaders w) in
  extends w w'
  /\ requestsOf (since w w') = [(options, authHeaders)]
  /\ reauthentications (since w w') = 0%nat.
Proof.
  cbn zeta.
  destruct (request_trace config net options authHeaders w) as [k Hk].
  split; [eexists; exact Hk|].
  rewrite (since_app _ _ _ Hk).
  destruct (loopEvents_quiet
              (fetchReq config options authHeaders (timeoutOf config options))
              (calculateDelay config) k 0) as [Hr Ha].
  split.
  - cbn [requestsOf]. now rewrite Hr.
  - exact Ha.
Qed.

(** [authenticate] makes at most one call of [HttpClient.request], the login
    call, and no call of [handleUnauthorized]. *)
Lemma authenticate_events http net totp sm w :
  let w' := snd (authenticate http net totp sm w) in
  extends w w'
  /\ reauthentications (since w w') = 0%nat
  /\ (requestsOf (since w w') = []
      \/ exists pw, requestsOf (since w w') = [(loginOptions pw totp, None)]).
Proof.
  cbn zeta. unfold authenticate.
  set (w0 := enter CallAuthenticate w).
  assert (Hquiet : extends w w0 /\ reauthentications (since w w0) = 0%nat
                   /\ requestsOf (since w w0) = []).
  { unfold w0. rewrite since_enter. repeat split. apply extends_enter. }
  destruct Hquiet as (He0 & Ha0 & Hr0).
  destruct (password sm) as [pw|]; [|cbn [snd]; tauto].
  destruct (Str.truthy pw); cbn [negb]; [|cbn [snd]; tauto].
  pose proof (request_events http net (loginOptions pw totp) None w0) as Hreq.
  cbn zeta in Hreq.
  destruct (Http.request http net (loginOptions pw totp) None w0)
    as [result w1].
  cbn [snd] in Hreq. destruct Hreq as (He1 & Hr1 & Ha1).
  destruct (authenticateSettle result (now w1) sm) as [c sm1]. cbn [snd].
  split; [eapply extends_trans; eassumption|].
  rewrite (since_trans w w0 w1 He0 He1).
  rewrite reauthentications_app, requestsOf_app, Ha0, Ha1, Hr0, Hr1.
  split; [reflexivity|]. right. now exists pw.
Qed.

Lemma ensureSession_events http net sm w :
  let w' := snd (ensureSession http net sm w) in
  extends w w' /\ reauthentications (since w w') = 0%nat.
Proof.
  cbn zeta. unfold ensureSession.
  set (w0 := enter CallEnsureSession w).
  assert (Hquiet : extends w w0 /\ reauthentications (since w w0) = 0%nat).
  { unfold w0. rewrite since_enter. split; [apply extends_enter|reflexivity]. }
  destruct Hquiet as (He0 & Ha0).
  destruct (hasSession sm (now w0) && negb (needsRefresh sm (now w0)));
    [cbn [snd]; tauto|].
  destruct (refreshPromise sm); [cbn [snd]; tauto|].
  pose proof (authenticate_events http net None sm w0) as Hauth.
  cbn zeta in Hauth.
  destruct (authenticate http net None sm w0) as [[c sm1] w1].
  cbn [snd] in Hauth. destruct Hauth as (He1 & Ha1 & _).
  assert (Hgoal : extends w w1 /\ reauthentications (since w w1) = 0%nat).
  { split; [eapply extends_trans; eassumption|].
    rewrite (since_trans w w0 w1 He0 He1), reauthentications_app, Ha0, Ha1.
    reflexivity. }
  destruct c; cbn [snd]; exact Hgoal.
Qed.

(** [handleUnauthorized] records itself once and makes at most one call of
    [HttpClient.request], a login call. *)
Lemma handleUnauthorized_events http net sm w :
  let w' := snd (handleUnauthorized http net sm w) in
  extends w w'
  /\ reauthentications (since w w') = 1%nat
  /\ (requestsOf (since w w') = []
      \/ exists pw, requestsOf (since w w') = [(loginOptions pw None, None)]).
Proof.
  cbn zeta. unfold handleUnauthorized.
  set (w0 := enter CallHandleUnauthorized w).
  pose proof (authenticate_events http net None (set_state None sm) w0)
    as Hauth.
  cbn zeta in Hauth. destruct Hauth as (He1 & Ha1 & Hr1).
  assert (He0 : extends w w0) by apply extends_enter.
  split; [eapply extends_trans; eassumption|].
  rewrite (since_trans w w0 _ He0 He1).
  rewrite reauthentications_app, requestsOf_app, Ha1.
  assert (Hs0 : since w w0 = [EvCall CallHandleUnauthorized])
    by apply since_enter.
  rewrite Hs0. split; [reflexivity|exact Hr1].
Qed.

(** ** Logout (C7) *)

(** C7: after [logout] the session is absent, whatever the server answered.
    Without a session the call returns [true] and makes no HTTP call. With a
    session it makes one call of the HTTP client, the logout call that is not
    retried and carries the current auth headers, so at most one attempt; it
    returns [true] when that call succeeds or fails with status 401, and
    [false] when it fails with any other status. *)
Theorem logout_postcondition http net sm w :
  let result :=
    fst (Http.request http net logoutOptions (getAuthHeaders sm)
           (enter CallLogout w)) in
  let returned := fst (fst (logout http net sm w)) in
  let sm' := snd (fst (logout http net sm w)) in
  let w' := snd (logout http net sm w) in
  state sm' = None
  /\ (state sm = None ->
      returned = true /\ attempts w w' = 0%nat /\ requestsOf (since w w') = [])
  /\ (state sm <> None ->
      requestsOf (since w w') = [(logoutOptions, getAuthHeaders sm)]
      /\ (attempts w w' <= 1)%nat
      /\ (isOk result = true -> returned = true)
      /\ (forall e, result = err e -> status e = 401 -> returned = true)
      /\ (forall e, result = err e -> status e <> 401 -> returned = false)).
Proof.
  cbn zeta. unfold logout.
  set (w0 := enter CallLogout w).
  assert (Hs0 : since w w0 = [EvCall CallLogout]) by apply since_enter.
  assert (He0 : extends w w0) by apply extends_enter.
  destruct (state sm) as [s|] eqn:Hstate.
  - pose proof (request_events http net logoutOptions (getAuthHeaders sm) w0)
      as Hev.
    assert (Hatt : (attempts w0
                      (snd (Http.request http net logoutOptions
                              (getAuthHeaders sm) w0)) <= 1)%nat).
    { destruct (Str.truthy (baseUrl http)) eqn:Hb.
      - rewrite attempts_request by exact Hb.
        etransitivity; [apply attemptsMade_le|]. reflexivity.
      - rewrite (request_unconfigured http net _ _ w0 Hb). cbn [snd].
        unfold attempts. rewrite since_enter. cbn. lia. }
    cbn zeta in Hev. unfold attempts in Hatt.
    destruct (Http.request http net logoutOptions (getAuthHeaders sm) w0)
      as [result w1].
    cbn [fst snd] in *. destruct Hev as (He1 & Hr1 & _).
    assert (Hsince : since w w1 = EvCall CallLogout :: since w0 w1).
    { rewrite (since_trans w w0 w1 He0 He1), Hs0. reflexivity. }
    assert (Hcommon :
              requestsOf (since w w1) = [(logoutOptions, getAuthHeaders sm)]
              /\ (attempts w w1 <= 1)%nat).
    { unfold attempts. rewrite Hsince. cbn [requestsOf]. split; [exact Hr1|].
      exact Hatt. }
    destruct result as [d|e]; [|destruct (status e =? 401) eqn:H401];
      cbn [fst snd];
      (split; [reflexivity|]); (split; [intros; discriminate|]);
      intros _; destruct Hcommon as [Hc1 Hc2];
      (split; [exact Hc1|]); (split; [exact Hc2|]).
    + repeat split; intros; try reflexivity; discriminate.
    + repeat split; intros; try reflexivity.
      injection H as <-. apply Z.eqb_eq in H401. contradiction.
    + repeat split; intros; try discriminate; try reflexivity.
      injection H as <-. apply Z.eqb_neq in H401. contradiction.
  - cbn [fst snd]. split; [exact Hstate|].
    split; [|intros H; now contradiction H].
    intros _. unfold attempts. rewrite Hs0. repeat split.
Qed.

(** ** Failed authentication (C4) *)

(** C4, as the code has it: [authenticate] with a password, whose login call
    fails, returns [false]; when the error is [TotpRequired] the session
    becomes the inert two-factor state (identifier and token empty, expiry 0,
    flag set), so that [isTotpRequired] holds and [hasSession] does not; for
    any other failure the session is left as it was before the call. *)
Theorem authenticate_failure http net totp sm w pw e :
  password sm = Some pw ->
  Str.truthy pw = true ->
  fst (Http.request http net (loginOptions pw totp) None
         (enter CallAuthenticate w)) = err e ->
  let returned := fst (fst (authenticate http net totp sm w)) in
  let sm' := snd (fst (authenticate http net totp sm w)) in
  returned = Returned false
  /\ (code e = TotpRequired ->
      state sm'
      = Some {| sid := ""; csrf := ""; expiresAt := 0; totpRequired := true |}
      /\ isTotpRequired sm' = true
      /\ forall now, 0 <= now -> hasSession sm' now = false)
  /\ (code e <> TotpRequired -> state sm' = state sm).
Proof.
  intros Hpw Htruthy Hfail. cbn zeta. unfold authenticate.
  rewrite Hpw, Htruthy. cbn [negb].
  destruct (Http.request http net (loginOptions pw totp) None
              (enter CallAuthenticate w)) as [result w1].
  cbn [fst] in Hfail. subst result. cbn [authenticateSettle fst snd].
  split; [reflexivity|]. split.
  - intros Hcode. rewrite Hcode. cbn [code_eqb set_state state].
    split; [reflexivity|]. split; [reflexivity|].
    intros now Hnow. unfold hasSession, isExpired. cbn.
    apply negb_false_iff, Z.geb_le. lia.
  - intros Hcode.
    destruct (code_eqb (code e) TotpRequired) eqn:Heq; [|reflexivity].
    destruct (code e); try discriminate. now contradiction Hcode.
Qed.

(** A login against a server that asks for a second factor. *)
Lemma authenticate_failure_witness :
  password Scenario.freshManager = Some "x"%string
  /\ Str.truthy "x" = true
  /\ fst (Http.request Scenario.piholeConfig Scenario.wantsTotp
            (loginOptions "x" None) None
            (enter CallAuthenticate Scenario.start))
     = err (createError TotpRequired "HTTP 401" 401 None
              (Some "totp_required"%string))
  /\ fst (fst (authenticate Scenario.piholeConfig Scenario.wantsTotp None
                 Scenario.freshManager Scenario.start))
     = Returned false.
Proof.
  split; [reflexivity|]. split; [reflexivity|]. split; [reflexivity|].
  apply (authenticate_failure Scenario.piholeConfig Scenario.wantsTotp None
           Scenario.freshManager Scenario.start "x"
           (createError TotpRequired "HTTP 401" 401 None
              (Some "totp_required"%string))
           eq_refl eq_refl eq_refl).
Defined.

(** C4 as stated fails: a manager that holds a live session and whose login
    call fails with HTTP 500 returns [false] and still holds that session,
    which is still valid. *)
Lemma authenticate_failure_counterexample :
  state Scenario.liveManager = Some Scenario.liveSession
  /\ fst (Http.request Scenario.piholeConfig Scenario.alwaysFailing
            (loginOptions "x" None) None
            (enter CallAuthenticate Scenario.start))
     = err (createError ServerError "HTTP 500" 500 None None)
  /\ fst (fst (authenticate Scenario.piholeConfig Scenario.alwaysFailing None
                 Scenario.liveManager Scenario.start))
     = Returned false
  /\ state (snd (fst (authenticate Scenario.piholeConfig
                        Scenario.alwaysFailing None Scenario.liveManager
                        Scenario.start)))
     = Some Scenario.liveSession
  /\ hasSession
       (snd (fst (authenticate Scenario.piholeConfig Scenario.alwaysFailing
                    None Scenario.liveManager Scenario.start)))
       (now (snd (authenticate Scenario.piholeConfig Scenario.alwaysFailing
                    None Scenario.liveManager Scenario.start)))
     = true.
Proof. repeat split. Qed.

(** ** One-shot recovery from a 401 (C2) *)

Lemma isLoginCall_login pw totp : isLoginCall (loginOptions pw totp, None).
Proof. repeat split. Qed.

(** C2: when the session is ensured and the delegated HTTP call fails with
    status 401, the facade calls [handleUnauthorized] exactly once. After the
    first delegated call the HTTP client is called at most once for a login
    and, only if the re-authentication returned [true], exactly once more
    with the original options and the auth headers of the new session; the
    result of that second call is returned as it is, a 401 included. If the
    re-authentication returned [false], the first failure is returned as it
    is. *)
Theorem facade_unauthorized_recovery http net m p b sm w sm1 w1 e w2 :
  let options :=
    {| method := m; path := p; body := b; headers := None;
       opt_timeout := None; noRetry := false |} in
  ensureSession http net sm (enter CallClientRequest w)
  = (Returned true, sm1, w1) ->
  Http.request http net options (getAuthHeaders sm1) w1 = (err e, w2) ->
  status e = 401 ->
  let reauth := handleUnauthorized http net sm1 w2 in
  let reauthed := fst (fst reauth) in
  let sm3 := snd (fst reauth) in
  let w3 := snd reauth in
  let retry := Http.request http net options (getAuthHeaders sm3) w3 in
  let out := Client.request http net m p b sm w in
  reauthentications (since w (snd out)) = 1%nat
  /\ (exists logins,
        requestsOf (since w1 (snd out))
        = (options, getAuthHeaders sm1)
            :: logins
            ++ match reauthed with
               | Returned true => [(options, getAuthHeaders sm3)]
               | _ => []
               end
        /\ Forall isLoginCall logins
        /\ (List.length logins <= 1)%nat)
  /\ snd (fst out) = sm3
  /\ match reauthed with
     | Returned true =>
         fst (fst out) = Returned (fst retry) /\ snd out = snd retry
     | Returned false =>
         fst (fst out) = Returned (err e) /\ snd out = w3
     | Threw =>
         fst (fst out) = Threw /\ snd out = w3
     end.
Proof.
  intros options Hensure Hfirst H401. cbn zeta.
  set (w0 := enter CallClientRequest w).
  assert (He0 : extends w w0) by apply extends_enter.
  assert (Hs0 : since w w0 = [EvCall CallClientRequest]) by apply since_enter.
  pose proof (ensureSession_events http net sm w0) as Hens.
  cbn zeta in Hens. fold w0 in Hensure. rewrite Hensure in Hens.
  cbn [snd] in Hens. destruct Hens as (He1 & Ha1).
  pose proof (request_events http net options (getAuthHeaders sm1) w1) as Hreq.
  cbn zeta in Hreq. rewrite Hfirst in Hreq. cbn [snd] in Hreq.
  destruct Hreq as (He2 & Hr2 & Ha2).
  pose proof (handleUnauthorized_events http net sm1 w2) as Hre.
  cbn zeta in Hre.
  unfold Client.request. fold w0. fold options.
  rewrite Hensure, Hfirst.
  apply Z.eqb_eq in H401. rewrite H401.
  destruct (handleUnauthorized http net sm1 w2) as [[c2 sm3] w3].
  cbn [fst snd] in *. destruct Hre as (He3 & Ha3 & Hr3).
  assert (Hlogins : exists logins,
             requestsOf (since w2 w3) = logins
             /\ Forall isLoginCall logins /\ (List.length logins <= 1)%nat).
  { destruct Hr3 as [Hr3|[pw Hr3]]; rewrite Hr3; eexists; split;
      try reflexivity; split; cbn; try lia.
    - constructor.
    - constructor; [apply isLoginCall_login|constructor]. }
  destruct Hlogins as (logins & Hlog & Hall & Hlen).
  assert (He03 : extends w w3)
    by (eapply extends_trans; [|exact He3];
        eapply extends_trans; [|exact He2];
        eapply extends_trans; eassumption).
  assert (He13 : extends w1 w3) by (eapply extends_trans; eassumption).
  assert (Ha03 : reauthentications (since w w3) = 1%nat).
  { rewrite (since_trans w w0 w3 He0), (since_trans w0 w1 w3 He1 He13),
      (since_trans w1 w2 w3 He2 He3).
    - rewrite !reauthentications_app, Hs0, Ha1, Ha2, Ha3. reflexivity.
    - eapply extends_trans; [exact He1|exact He13]. }
  assert (Hr13 : requestsOf (since w1 w3)
                 = (options, getAuthHeaders sm1) :: logins).
  { rewrite (since_trans w1 w2 w3 He2 He3), requestsOf_app, Hr2, Hlog.
    reflexivity. }
  destruct c2 as [[|]|].
  - pose proof (request_events http net options (getAuthHeaders sm3) w3)
      as Hretry.
    cbn zeta in Hretry.
    destruct (Http.request http net options (getAuthHeaders sm3) w3)
      as [retried w4].
    cbn [fst snd] in *. destruct Hretry as (He4 & Hr4 & Ha4).
    split; [|split; [|split; [reflexivity|split; reflexivity]]].
    + rewrite (since_trans w w3 w4 He03 He4), reauthentications_app, Ha03, Ha4.
      reflexivity.
    + exists logins. split; [|split; assumption].
      rewrite (since_trans w1 w3 w4 He13 He4), requestsOf_app, Hr13, Hr4.
      reflexivity.
  - cbn [fst snd].
    split; [exact Ha03|split; [|split; [reflexivity|split; reflexivity]]].
    exists logins. rewrite app_nil_r. split; [exact Hr13|split; assumption].
  - cbn [fst snd].
    split; [exact Ha03|split; [|split; [reflexivity|split; reflexivity]]].
    exists logins. rewrite app_nil_r. split; [exact Hr13|split; assumption].
Qed.

(** A server that answers 401 to every request but accepts every login: the
    facade re-authenticates once, makes three fetches in all (the request,
    the login, the request again) and returns the second 401. *)
Lemma facade_unauthorized_recovery_witness :
  fst (fst (ensureSession Scenario.piholeConfig Scenario.alwaysUnauthorized
              Scenario.liveManager
              (enter CallClientRequest Scenario.start)))
  = Returned true
  /\ status (createError Unauthorized "HTTP 401" 401 None
               (Some "unauthorized"%string)) = 401
  /\ fst (fst (Client.request Scenario.piholeConfig
                 Scenario.alwaysUnauthorized GET "/api/stats/summary" None
                 Scenario.liveManager Scenario.start))
     = Returned (err (createError Unauthorized "HTTP 401" 401 None
                        (Some "unauthorized"%string)))
  /\ attempts Scenario.start
       (snd (Client.request Scenario.piholeConfig
               Scenario.alwaysUnauthorized GET "/api/stats/summary" None
               Scenario.liveManager Scenario.start))
     = 3%nat
  /\ reauthentications
       (since Scenario.start
          (snd (Client.request Scenario.piholeConfig
                  Scenario.alwaysUnauthorized GET "/api/stats/summary" None
                  Scenario.liveManager Scenario.start)))
     = 1%nat.
Proof.
  split; [reflexivity|]. split; [reflexivity|].
  split; [reflexivity|]. split; [reflexivity|].
  apply (facade_unauthorized_recovery Scenario.piholeConfig
           Scenario.alwaysUnauthorized GET "/api/stats/summary"%string None
           Scenario.liveManager Scenario.start
           (snd (fst (ensureSession Scenario.piholeConfig
                        Scenario.alwaysUnauthorized Scenario.liveManager
                        (enter CallClientRequest Scenario.start))))
           (snd (ensureSession Scenario.piholeConfig
                   Scenario.alwaysUnauthorized Scenario.liveManager
                   (enter CallClientRequest Scenario.start)))
           (createError Unauthorized "HTTP 401" 401 None
              (Some "unauthorized"%string))
           (snd (Http.request Scenario.piholeConfig
                   Scenario.alwaysUnauthorized Scenario.getSummary
                   (getAuthHeaders Scenario.liveManager)
                   (snd (ensureSession Scenario.piholeConfig
                           Scenario.alwaysUnauthorized Scenario.liveManager
                           (enter CallClientRequest Scenario.start)))))
           eq_refl eq_refl eq_refl).
Defined.

(** ** The shape of the session (C8) *)

Lemma handleResponse_parsed response p :
  handleResponse response = ok (Parsed p) -> r_body response = Json p.
Proof.
  unfold handleResponse.
  destruct (negb (response_ok response)); [discriminate|].
  destruct (r_status response =? 204); [discriminate|].
  destruct (r_body response) as [|p']; [discriminate|].
  intros H. injection H as ->. reflexivity.
Qed.

(** A body that [request] returns was the body of a reply of the network. *)
Lemma request_ok_provenance config net options authHeaders w p :
  fst (Http.request config net options authHeaders w) = ok (Parsed p) ->
  exists n req response,
    outcome (net n req) = Resolves response /\ r_body response = Json p.
Proof.
  intros Hok. destruct (Str.truthy (baseUrl config)) eqn:Hbase.
  - destruct (request_spec config net options authHeaders w Hbase) as [_ Hr].
    rewrite Hr in Hok.
    destruct (attemptsMade _ _ _) as [|k']; [discriminate|].
    unfold attemptResult in Hok.
    destruct (outcome (net _ _)) as [t|response] eqn:Hout; [discriminate|].
    apply handleResponse_parsed in Hok. eauto.
  - rewrite (request_unconfigured config net options authHeaders w Hbase)
      in Hok.
    discriminate.
Qed.

Lemma sessionInvariant_absent net sm :
  state sm = None -> sessionInvariant net sm.
Proof. intros Hnone s Hs. congruence. Qed.

Lemma sessionInvariant_state net sm sm' :
  state sm' = state sm -> sessionInvariant net sm -> sessionInvariant net sm'.
Proof. intros Heq Hinv s Hs. apply Hinv. congruence. Qed.

Lemma sessionInvariant_constructor net cfg now :
  sessionInvariant net (constructor cfg now).
Proof.
  intros s Hs. unfold constructor in Hs. cbn [state] in Hs.
  destruct (cfg_sid cfg) as [i|]; [|discriminate].
  destruct (cfg_csrf cfg) as [c|]; [|discriminate].
  destruct (Str.truthy i) eqn:Hi; [|discriminate].
  destruct (Str.truthy c) eqn:Hc; [|discriminate].
  injection Hs as <-. cbn. split; [discriminate|]. intros _ _. now split.
Qed.

Lemma sessionInvariant_settle net result now sm :
  (forall p, result = ok (Parsed p) ->
             exists n req response,
               outcome (net n req) = Resolves response
               /\ r_body response = Json p) ->
  sessionInvariant net sm ->
  sessionInvariant net (snd (authenticateSettle result now sm)).
Proof.
  intros Hprov Hinv. unfold authenticateSettle.
  destruct result as [[|p]|e]; cbn [snd]; [exact Hinv| |].
  - destruct (p_session p) as [session|] eqn:Hsession; cbn [snd];
      [|exact Hinv].
    intros s Hs. cbn in Hs. injection Hs as <-. cbn.
    split; [discriminate|]. intros _ Hwf.
    destruct (Hprov p eq_refl) as (n & req & response & Hout & Hbody).
    exact (Hwf n req response p session Hout Hbody Hsession).
  - destruct (code_eqb (code e) TotpRequired); [|exact Hinv].
    intros s Hs. cbn in Hs. injection Hs as <-.
    split; [reflexivity|discriminate].
Qed.

Lemma sessionInvariant_authenticate http net totp sm w :
  sessionInvariant net sm ->
  sessionInvariant net (snd (fst (authenticate http net totp sm w))).
Proof.
  intros Hinv. unfold authenticate.
  destruct (password sm) as [pw|]; [|exact Hinv].
  destruct (Str.truthy pw); cbn [negb]; [|exact Hinv].
  pose proof (request_ok_provenance http net (loginOptions pw totp) None
                (enter CallAuthenticate w)) as Hprov.
  destruct (Http.request http net (loginOptions pw totp) None
              (enter CallAuthenticate w)) as [result w1].
  cbn [fst] in Hprov.
  pose proof (sessionInvariant_settle net result (now w1) sm Hprov Hinv)
    as Hsettle.
  destruct (authenticateSettle result (now w1) sm) as [c sm1].
  exact Hsettle.
Qed.

Lemma sessionInvariant_runOp http net op sm w :
  sessionInvariant net sm ->
  sessionInvariant net (fst (runOp http net op sm w)).
Proof.
  intros Hinv. destruct op; cbn [runOp fst]; try exact Hinv.
  - (* clear *) now apply sessionInvariant_absent.
  - (* ensureSession *)
    unfold ensureSession.
    destruct (hasSession _ _ && negb (needsRefresh _ _)); [exact Hinv|].
    destruct (refreshPromise sm); [exact Hinv|].
    pose proof (sessionInvariant_authenticate http net None sm
                  (enter CallEnsureSession w) Hinv) as Hauth.
    destruct (authenticate http net None sm (enter CallEnsureSession w))
      as [[c sm1] w1].
    cbn [fst snd] in Hauth.
    destruct c; cbn [fst];
      (eapply sessionInvariant_state; [|exact Hauth]); reflexivity.
  - (* authenticate *)
    pose proof (sessionInvariant_authenticate http net totp sm w Hinv) as Hauth.
    destruct (authenticate http net totp sm w) as [[c sm1] w1].
    exact Hauth.
  - (* logout *)
    unfold logout. destruct (state sm) eqn:Hstate; [|exact Hinv].
    destruct (Http.request http net logoutOptions (getAuthHeaders sm)
                (enter CallLogout w)) as [result w1].
    destruct result as [d|e]; [|destruct (status e =? 401)]; cbn [fst];
      now apply sessionInvariant_absent.
  - (* handleUnauthorized *)
    unfold handleUnauthorized.
    pose proof (sessionInvariant_authenticate http net None (set_state None sm)
                  (enter CallHandleUnauthorized w)
                  (sessionInvariant_absent net (set_state None sm) eq_refl))
      as Hauth.
    destruct (authenticate http net None (set_state None sm)
                (enter CallHandleUnauthorized w)) as [[c sm1] w1].
    exact Hauth.
Qed.

Lemma sessionInvariant_runOps http net ops :
  forall sm w,
    sessionInvariant net sm ->
    sessionInvariant net (fst (runOps http net ops sm w)).
Proof.
  induction ops as [|op ops IH]; intros sm w Hinv; [exact Hinv|].
  cbn [runOps].
  pose proof (sessionInvariant_runOp http net op sm w Hinv) as Hop.
  destruct (runOp http net op sm w) as [sm' w'].
  apply IH. exact Hop.
Qed.

(** *** Where the session comes from *)

Lemma fetch_count_since w w' :
  extends w w' ->
  fetch_count (trace w')
  = (fetch_count (trace w) + fetch_count (since w w'))%nat.
Proof.
  intros Hext. rewrite (extends_since _ _ Hext) at 1. apply fetch_count_app.
Qed.

Lemma loginSessions_app http net t1 :
  forall n t2,
    loginSessions http net n (t1 ++ t2)
    = loginSessions http net n t1
        ++ loginSessions http net (n + fetch_count t1)%nat t2.
Proof.
  induction t1 as [|e t1 IH]; intros n t2.
  - cbn. now rewrite Nat.add_0_r.
  - destruct e as [r|ms|c]; cbn [app loginSessions].
    + change (fetch_count (EvFetch r :: t1)) with (S (fetch_count t1)).
      rewrite IH.
      replace (S n + fetch_count t1)%nat with (n + S (fetch_count t1))%nat
        by lia.
      destruct (f_method r); try reflexivity.
      destruct (f_url r =? baseUrl http ++ "/api/auth")%string;
        try reflexivity.
      destruct (Http.outcome (net n r)) as [|response]; try reflexivity.
      destruct (handleResponse response) as [[|[pe [ps|]]]|]; reflexivity.
    + apply IH.
    + apply IH.
Qed.

Lemma loginSessions_call http net n c t :
  loginSessions http net n (EvCall c :: t) = loginSessions http net n t.
Proof. reflexivity. Qed.

(** The fetches of a call that is not a [POST] carry no login reply. *)
Lemma loginSessions_other http net req delay :
  f_method req <> POST ->
  forall k attempt n,
    loginSessions http net n (loopEvents req delay attempt k) = [].
Proof.
  intros Hmethod.
  induction k as [|k IH]; intros attempt n; [reflexivity|].
  destruct k as [|k].
  - cbn. destruct (f_method req); try reflexivity. congruence.
  - change (loopEvents req delay attempt (S (S k)))
      with (EvFetch req :: EvSleep (delay attempt)
              :: loopEvents req delay (attempt + 1) (S k)).
    cbn [loginSessions]. rewrite IH.
    destruct (f_method req); try reflexivity. congruence.
Qed.

(** The login call finds a session exactly when its result carries one. *)
Lemma loginSessions_login http net pw totp v :
  loginSessions http net (fetch_count (trace v))
    (since v (snd (Http.request http net (loginOptions pw totp) None v)))
  = match fst (Http.request http net (loginOptions pw totp) None v) with
    | ok (Parsed {| p_session := Some session |}) => [session]
    | _ => []
    end.
Proof.
  destruct (Str.truthy (baseUrl http)) eqn:Hbase.
  - destruct (request_since http net (loginOptions pw totp) None v)
      as (k & Hs & Hk).
    destruct (request_once http net (loginOptions pw totp) None v Hbase
                eq_refl) as [Hres Hone].
    rewrite Hk in Hone. rewrite Hone in Hs. rewrite Hs, Hres.
    cbn [loginSessions loopEvents fetchReq f_method f_url loginOptions
           method path].
    rewrite String.eqb_refl. unfold attemptResult.
    cbn [fetchReq loginOptions method path].
    destruct (Http.outcome (net _ _)) as [|response]; [reflexivity|].
    destruct (handleResponse response) as [[|[pe [ps|]]]|]; reflexivity.
  - rewrite (request_unconfigured http net _ _ v Hbase). cbn [fst snd].
    now rewrite since_enter.
Qed.

(** What [authenticate] does to the session, by the login replies of its
    trace: without one the session stays or becomes the two-factor state;
    with one, the call returns [true] and the session is the one of that
    reply, received as the answer to the fetch of this call. *)
Lemma authenticate_logins http net totp sm v :
  let r := authenticate http net totp sm v in
  let sm' := snd (fst r) in
  let logins :=
    loginSessions http net (fetch_count (trace v)) (since v (snd r)) in
  (logins = [] /\ fst (fst r) <> Returned true
   /\ (state sm' = state sm \/ state sm' = Some totpState))
  \/ (exists pw response p session,
        logins = [session] /\ fst (fst r) = Returned true
        /\ password sm = Some pw
        /\ Http.outcome
             (net (fetch_count (trace v))
                (fetchReq http (loginOptions pw totp) None
                   (timeoutOf http (loginOptions pw totp))))
           = Resolves response
        /\ r_body response = Json p
        /\ p_session p = Some session
        /\ state sm'
           = Some {| sid := Auth.sid session; csrf := Auth.csrf session;
                     expiresAt := now (snd r) + Auth.validity session * 1000;
                     totpRequired := false |}).
Proof.
  cbn zeta. unfold authenticate.
  set (w0 := enter CallAuthenticate v).
  assert (Hs0 : since v w0 = [EvCall CallAuthenticate]) by apply since_enter.
  assert (Hn0 : fetch_count (trace w0) = fetch_count (trace v))
    by apply fetch_count_snoc_call.
  destruct (password sm) as [pw|];
    [|left; cbn [fst snd]; rewrite Hs0; repeat split;
      [discriminate|now left]].
  destruct (Str.truthy pw) eqn:Hpw; cbn [negb];
    [|left; cbn [fst snd]; rewrite Hs0; repeat split;
      [discriminate|now left]].
  pose proof (request_events http net (loginOptions pw totp) None w0)
    as (He1 & _ & _).
  pose proof (loginSessions_login http net pw totp w0) as Hlogins.
  assert (Hres : forall p,
             fst (Http.request http net (loginOptions pw totp) None w0)
             = ok (Parsed p) ->
             exists response,
               Http.outcome
                 (net (fetch_count (trace v))
                    (fetchReq http (loginOptions pw totp) None
                       (timeoutOf http (loginOptions pw totp))))
               = Resolves response
               /\ r_body response = Json p).
  { intros p Hok. destruct (Str.truthy (baseUrl http)) eqn:Hbase.
    - destruct (request_once http net (loginOptions pw totp) None w0 Hbase
                  eq_refl) as [Hres _].
      rewrite Hres, Hn0 in Hok. unfold attemptResult in Hok.
      destruct (Http.outcome (net _ _)) as [|response]; [discriminate|].
      exists response. split; [reflexivity|].
      now apply handleResponse_parsed.
    - rewrite (request_unconfigured http net _ _ w0 Hbase) in Hok.
      discriminate. }
  destruct (Http.request http net (loginOptions pw totp) None w0)
    as [result w1].
  cbn [fst snd] in *.
  assert (Hsince : loginSessions http net (fetch_count (trace v))
                     (since v w1)
                   = loginSessions http net (fetch_count (trace w0))
                       (since w0 w1)).
  { rewrite (since_trans v w0 w1 (extends_enter _ _) He1), Hs0, Hn0.
    reflexivity. }
  destruct (authenticateSettle result (now w1) sm) as [c sm1] eqn:Hset.
  cbn [fst snd]. rewrite Hsince, Hlogins. clear Hsince Hlogins.
  unfold authenticateSettle in Hset.
  destruct result as [[|p]|e].
  - injection Hset as <- <-. left. repeat split; [discriminate|now left].
  - destruct p as [pe [session|]]; cbn [p_session] in Hset;
      injection Hset as <- <-.
    + right. destruct (Hres _ eq_refl) as (response & Hout & Hbody).
      exists pw, response, {| p_error := pe; p_session := Some session |},
        session.
      repeat split; assumption.
    + left. repeat split; [discriminate|now left].
  - injection Hset as <- <-. left. split; [reflexivity|].
    split; [discriminate|].
    destruct (code_eqb (code e) TotpRequired); [now right|now left].
Qed.

(** A successful [authenticate] installs the session of the reply as it is. *)
Lemma authenticate_success http net totp sm w :
  fst (fst (authenticate http net totp sm w)) = Returned true ->
  exists pw response p session,
    password sm = Some pw
    /\ Http.outcome
         (net (fetch_count (trace w))
            (fetchReq http (loginOptions pw totp) None
               (timeoutOf http (loginOptions pw totp))))
       = Resolves response
    /\ r_body response = Json p
    /\ p_session p = Some session
    /\ state (snd (fst (authenticate http net totp sm w)))
       = Some {| sid := Auth.sid session; csrf := Auth.csrf session;
                 expiresAt := now (snd (authenticate http net totp sm w))
                              + Auth.validity session * 1000;
                 totpRequired := false |}.
Proof.
  intros Hok.
  destruct (authenticate_logins http net totp sm w)
    as [(_ & Hnot & _)|(pw & response & p & session & _ & _ & H)];
    [contradiction|].
  now exists pw, response, p, session.
Qed.

Lemma lastOf_snoc (A : Type) (l : list A) (x : A) : lastOf (l ++ [x]) = Some x.
Proof. unfold lastOf. now rewrite rev_app_distr. Qed.

Lemma runOp_extends http net op sm v :
  extends v (snd (runOp http net op sm v)).
Proof.
  destruct op; cbn [runOp snd]; try apply extends_refl.
  - pose proof (ensureSession_events http net sm v) as (He & _).
    now destruct (ensureSession http net sm v) as [[c sm'] v'].
  - pose proof (authenticate_events http net totp sm v) as (He & _).
    now destruct (authenticate http net totp sm v) as [[c sm'] v'].
  - unfold logout. destruct (state sm); [|apply extends_enter].
    pose proof (request_events http net logoutOptions (getAuthHeaders sm)
                  (enter CallLogout v)) as (He & _).
    assert (He' : extends v
                    (snd (Http.request http net logoutOptions
                            (getAuthHeaders sm) (enter CallLogout v))))
      by (eapply extends_trans; [apply extends_enter|exact He]).
    destruct (Http.request http net logoutOptions (getAuthHeaders sm)
                (enter CallLogout v)) as [result v1].
    destruct result as [d|e]; [|destruct (status e =? 401)]; exact He'.
  - pose proof (handleUnauthorized_events http net sm v) as (He & _).
    now destruct (handleUnauthorized http net sm v) as [[c sm'] v'].
Qed.

(** One operation keeps the session tied to the last login reply. *)
Lemma heldFrom_runOp http net cfg now0 op sm v logins :
  (forall s, state sm = Some s -> totpRequired s = false ->
             heldFrom cfg now0 logins s) ->
  forall s,
    state (fst (runOp http net op sm v)) = Some s ->
    totpRequired s = false ->
    heldFrom cfg now0
      (logins ++ loginSessions http net (fetch_count (trace v))
                   (since v (snd (runOp http net op sm v))))
      s.
Proof.
  intros Hheld.
  assert (Hquiet : forall sm' d,
             state sm' = state sm -> loginSessions http net
                                       (fetch_count (trace v)) d = [] ->
             forall s, state sm' = Some s -> totpRequired s = false ->
                       heldFrom cfg now0
                         (logins ++ loginSessions http net
                                      (fetch_count (trace v)) d) s).
  { intros sm' d Hst Hd s Hs Hflag. rewrite Hd, app_nil_r.
    apply Hheld; congruence. }
  assert (Hauth : forall totp m v0 pre,
             since v v0 = pre -> extends v v0 ->
             loginSessions http net (fetch_count (trace v)) pre = [] ->
             fetch_count pre = 0%nat ->
             (state m = state sm \/ state m = None) ->
             forall s,
               state (snd (fst (authenticate http net totp m v0))) = Some s ->
               totpRequired s = false ->
               heldFrom cfg now0
                 (logins ++ loginSessions http net (fetch_count (trace v))
                              (since v (snd (authenticate http net totp m v0))))
                 s).
  { intros totp m v0 pre Hpre Hext Hnone Hcount Hm s Hs Hflag.
    pose proof (authenticate_events http net totp m v0) as (He & _).
    rewrite (since_trans v v0 _ Hext He), Hpre, loginSessions_app, Hnone,
      Hcount, Nat.add_0_r.
    cbn [app].
    assert (Hn : fetch_count (trace v0) = fetch_count (trace v)).
    { rewrite (fetch_count_since v v0 Hext), Hpre, Hcount. lia. }
    rewrite <- Hn.
    destruct (authenticate_logins http net totp m v0)
      as [(-> & _ & Hst)|(pw & response & p & session & -> & _ & _ & _ & _ & _
                          & Hst)].
    - rewrite app_nil_r. destruct Hst as [Hst|Hst].
      + destruct Hm as [Hm|Hm]; [apply Hheld; congruence|congruence].
      + rewrite Hst in Hs. injection Hs as <-. discriminate.
    - rewrite Hst in Hs. injection Hs as <-.
      unfold heldFrom. rewrite lastOf_snoc. now split. }
  destruct op; cbn [runOp fst snd];
    try (rewrite since_refl; now apply Hquiet).
  - (* clear *) discriminate.
  - (* ensureSession *)
    unfold ensureSession.
    set (w0 := enter CallEnsureSession v).
    assert (Hs0 : since v w0 = [EvCall CallEnsureSession])
      by apply since_enter.
    destruct (hasSession sm (now w0) && negb (needsRefresh sm (now w0)));
      [cbn [fst snd]; rewrite Hs0; now apply Hquiet|].
    destruct (refreshPromise sm);
      [cbn [fst snd]; rewrite Hs0; now apply Hquiet|].
    pose proof (Hauth None sm w0 _ Hs0 (extends_enter _ _) eq_refl eq_refl
                  (or_introl eq_refl)) as Hstep.
    destruct (authenticate http net None sm w0) as [[c sm1] w1].
    cbn [fst snd] in *. destruct c; exact Hstep.
  - (* authenticate *)
    pose proof (Hauth totp sm v [] (since_refl v) (extends_refl v) eq_refl
                  eq_refl (or_introl eq_refl)) as Hstep.
    destruct (authenticate http net totp sm v) as [[c sm1] w1].
    exact Hstep.
  - (* logout *)
    unfold logout. destruct (state sm) as [s0|] eqn:Hstate.
    + destruct (Http.request http net logoutOptions (getAuthHeaders sm)
                  (enter CallLogout v)) as [result w1].
      destruct result as [d|e]; [|destruct (status e =? 401)]; discriminate.
    + cbn [fst snd]. intros s Hs. congruence.
  - (* handleUnauthorized *)
    unfold handleUnauthorized.
    set (w0 := enter CallHandleUnauthorized v).
    pose proof (Hauth None (set_state None sm) w0 _ (since_enter _ _)
                  (extends_enter _ _) eq_refl eq_refl (or_intror eq_refl))
      as Hstep.
    destruct (authenticate http net None (set_state None sm) w0)
      as [[c sm1] w1].
    exact Hstep.
Qed.

Lemma heldFrom_runOps http net cfg now0 ops :
  forall sm v logins,
    (forall s, state sm = Some s -> totpRequired s = false ->
               heldFrom cfg now0 logins s) ->
    extends v (snd (runOps http net ops sm v))
    /\ forall s,
         state (fst (runOps http net ops sm v)) = Some s ->
         totpRequired s = false ->
         heldFrom cfg now0
           (logins ++ loginSessions http net (fetch_count (trace v))
                        (since v (snd (runOps http net ops sm v))))
           s.
Proof.
  induction ops as [|op ops IH]; intros sm v logins Hheld.
  - cbn [runOps fst snd]. split; [apply extends_refl|].
    rewrite since_refl. cbn. rewrite app_nil_r. exact Hheld.
  - cbn [runOps].
    pose proof (runOp_extends http net op sm v) as He.
    pose proof (heldFrom_runOp http net cfg now0 op sm v logins Hheld)
      as Hstep.
    destruct (runOp http net op sm v) as [sm' v']. cbn [fst snd] in *.
    destruct (IH sm' v' _ Hstep) as [He' Hrest].
    split; [eapply extends_trans; eassumption|].
    intros s Hs Hflag. specialize (Hrest s Hs Hflag).
    rewrite (since_trans v v' _ He He'), loginSessions_app, app_assoc.
    now rewrite <- (fetch_count_since v v' He).
Qed.

(** C8, as the code has it: after any sequence of operations on a manager
    made by the constructor, a session whose flag is set is exactly the
    two-factor state (identifier and token empty, expiry 0), and a session
    whose flag is unset holds the identifier and the token of the last login
    reply received since the construction or, when there was none, is the
    session the constructor made of the identifier and the token given to it;
    its identifier and token are not empty provided the sessions the network
    sends have. A successful [authenticate] installs the identifier, the
    token and the validity of the reply to its login fetch unchecked, with
    the expiry [now + validity * 1000]: that session is fully populated at
    that instant exactly when the identifier and the token of the reply are
    not empty and its validity is positive. *)
Theorem session_shape_invariant http net cfg now0 ops w :
  let after := runOps http net ops (constructor cfg now0) w in
  let sm := fst after in
  let logins :=
    loginSessions http net (fetch_count (trace w)) (since w (snd after)) in
  (forall s, state sm = Some s -> totpRequired s = true ->
             s = {| sid := ""; csrf := ""; expiresAt := 0;
                    totpRequired := true |})
  /\ (forall s, state sm = Some s -> totpRequired s = false ->
                heldFrom cfg now0 logins s
                /\ (wellFormedSessions net ->
                    Str.truthy (sid s) = true /\ Str.truthy (csrf s) = true))
  /\ (forall totp sm0 w0,
        fst (fst (authenticate http net totp sm0 w0)) = Returned true ->
        exists pw response p session,
          password sm0 = Some pw
          /\ Http.outcome
               (net (fetch_count (trace w0))
                  (fetchReq http (loginOptions pw totp) None
                     (timeoutOf http (loginOptions pw totp))))
             = Resolves response
          /\ r_body response = Json p
          /\ p_session p = Some session
          /\ let s := {| sid := Auth.sid session; csrf := Auth.csrf session;
                         expiresAt :=
                           now (snd (authenticate http net totp sm0 w0))
                           + Auth.validity session * 1000;
                         totpRequired := false |} in
             state (snd (fst (authenticate http net totp sm0 w0))) = Some s
             /\ fullyPopulated s
                  (now (snd (authenticate http net totp sm0 w0)))
                = Str.truthy (Auth.sid session)
                  && Str.truthy (Auth.csrf session)
                  && (0 <? Auth.validity session)).
Proof.
  cbn zeta.
  pose proof (sessionInvariant_runOps http net ops (constructor cfg now0) w
                (sessionInvariant_constructor net cfg now0)) as Hinv.
  split; [|split].
  - intros s Hs Hflag. now apply (Hinv s Hs).
  - intros s Hs Hflag. split; [|intros Hwf; now apply (Hinv s Hs)].
    destruct (heldFrom_runOps http net cfg now0 ops (constructor cfg now0) w [])
      as [_ Hheld]; [|exact (Hheld s Hs Hflag)].
    clear. intros s Hs _. unfold heldFrom. cbn [lastOf rev hd_error].
    unfold constructor in Hs. cbn [state] in Hs.
    destruct (cfg_sid cfg) as [i|]; [|discriminate].
    destruct (cfg_csrf cfg) as [c|]; [|discriminate].
    destruct (Str.truthy i && Str.truthy c); [|discriminate].
    injection Hs as <-. repeat split.
  - intros totp sm0 w0 Hok.
    destruct (authenticate_success http net totp sm0 w0 Hok)
      as (pw & response & p & session & Hpw & Hout & Hbody & Hsession & Hst).
    exists pw, response, p, session.
    split; [exact Hpw|]. split; [exact Hout|]. split; [exact Hbody|].
    split; [exact Hsession|]. split; [exact Hst|].
    unfold fullyPopulated. cbn [sid csrf expiresAt totpRequired negb].
    rewrite andb_true_r. f_equal.
    destruct (Z.ltb_spec 0 (Auth.validity session));
      destruct (Z.ltb_spec (now (snd (authenticate http net totp sm0 w0)))
                  (now (snd (authenticate http net totp sm0 w0))
                   + Auth.validity session * 1000)); try reflexivity; lia.
Qed.

(** C8 as stated fails: against a server without a password, whose login
    reply carries an empty identifier and the validity -1, [authenticate]
    returns [true] and leaves a session with an empty identifier and token,
    an expiry in the past and the flag unset, which is none of the three
    shapes. *)
Lemma session_shape_counterexample :
  fst (fst (authenticate Scenario.piholeConfig Scenario.passwordless None
              Scenario.freshManager Scenario.start))
  = Returned true
  /\ state (fst (runOps Scenario.piholeConfig Scenario.passwordless
                   [OpAuthenticate None] Scenario.freshManager
                   Scenario.start))
     = Some {| sid := ""; csrf := "";
               expiresAt := now Scenario.start + 20 - 1000;
               totpRequired := false |}
  /\ shapeOK
       (fst (runOps Scenario.piholeConfig Scenario.passwordless
               [OpAuthenticate None] Scenario.freshManager Scenario.start))
       (now (snd (runOps Scenario.piholeConfig Scenario.passwordless
                    [OpAuthenticate None] Scenario.freshManager
                    Scenario.start)))
     = false.
Proof. repeat split. Qed.

(** ** Deduplicated authentication (C3) *)

Import EventLoop.

Lemma update_length i k l : List.length (update i k l) = List.length l.
Proof.
  revert i. induction l as [|x l IH]; intros [|i]; cbn; try reflexivity.
  now rewrite IH.
Qed.

Lemma update_Forall (P : Caller -> Prop) i k l :
  Forall P l -> P k -> Forall P (update i k l).
Proof.
  intros Hall Hk. revert i.
  induction Hall as [|x l Hx Hl IH]; intros [|i]; cbn; constructor; auto.
Qed.

Lemma update_Exists_new (P : Caller -> Prop) i k l x :
  nth_error l i = Some x -> P k -> Exists P (update i k l).
Proof.
  revert i. induction l as [|y l IH]; intros [|i] Hnth Hk; cbn in *;
    try discriminate.
  - now left.
  - right. now apply IH.
Qed.

Lemma update_Exists_other (P : Caller -> Prop) i k l x :
  Exists P l -> nth_error l i = Some x -> ~ P x -> Exists P (update i k l).
Proof.
  intros Hex. revert i.
  induction Hex as [y l Hy|y l Hl IH]; intros [|i] Hnth Hx; cbn in *.
  - injection Hnth as ->. contradiction.
  - now left.
  - right. exact Hl.
  - right. now apply IH.
Qed.

Lemma nth_error_Forall (P : Caller -> Prop) l i x :
  Forall P l -> nth_error l i = Some x -> P x.
Proof.
  intros Hall Hnth. apply nth_error_In in Hnth.
  rewrite Forall_forall in Hall. now apply Hall.
Qed.

Lemma attempts_extend w0 w w' d :
  extends w0 w -> trace w' = trace w ++ d ->
  extends w0 w' /\ attempts w0 w' = (attempts w0 w + fetch_count d)%nat.
Proof.
  intros Hext Hd.
  assert (Hext' : extends w w') by (now exists d).
  split; [eapply extends_trans; eassumption|].
  unfold attempts. rewrite (since_trans w0 w w' Hext Hext'), fetch_count_app.
  now rewrite (since_app _ _ _ Hd).
Qed.

Lemma attempts_login http net pw totp w :
  attempts w (snd (Http.request http net (loginOptions pw totp) None w))
  = if Str.truthy (baseUrl http) then 1%nat else 0%nat.
Proof.
  destruct (Str.truthy (baseUrl http)) eqn:Hbase.
  - rewrite attempts_request by exact Hbase.
    change (iterations (maxAttemptsOf http (loginOptions pw totp))) with 1%nat.
    cbn [attemptsMade]. now destruct (retryableFailure _).
  - rewrite (request_unconfigured http net _ _ w Hbase). cbn [snd].
    unfold attempts. now rewrite since_enter.
Qed.

Lemma startAuthenticate_spec http net sm w :
  exists d,
    trace (snd (startAuthenticate http net sm w)) = trace w ++ d
    /\ fetch_count d
       = (if Str.truthy_opt (password sm) && Str.truthy (baseUrl http)
          then 1%nat else 0%nat)
    /\ match fst (startAuthenticate http net sm w) with
       | Settled c => c = Returned false /\ Str.truthy_opt (password sm) = false
       | Pending result =>
           exists pw,
             password sm = Some pw /\ Str.truthy pw = true
             /\ result = fst (Http.request http net (loginOptions pw None) None
                                (enter CallAuthenticate w))
       end.
Proof.
  unfold startAuthenticate.
  set (w1 := enter CallAuthenticate w).
  destruct (password sm) as [pw|]; cbn [Str.truthy_opt].
  - destruct (Str.truthy pw) eqn:Hpw; cbn [negb andb].
    + pose proof (request_events http net (loginOptions pw None) None w1)
        as (Hext & _ & _).
      pose proof (attempts_login http net pw None w1) as Hatt.
      destruct (Http.request http net (loginOptions pw None) None w1)
        as [result w2] eqn:Hreq.
      cbn [fst snd] in *.
      exists (EvCall CallAuthenticate :: since w1 w2). split; [|split].
      * rewrite (extends_since _ _ Hext). unfold w1, enter, emit. cbn [trace].
        now rewrite <- app_assoc.
      * exact Hatt.
      * exists pw. split; [reflexivity|]. split; [exact Hpw|].
        fold w1. now rewrite Hreq.
    + exists [EvCall CallAuthenticate]. cbn. repeat split.
  - exists [EvCall CallAuthenticate]. cbn. repeat split.
Qed.

Lemma authenticateSettle_settledFrom sm0 result t :
  settledFrom sm0 (fst (authenticateSettle result t sm0))
    (snd (authenticateSettle result t sm0)).
Proof.
  unfold authenticateSettle, settledFrom.
  destruct result as [[|p]|e]; cbn [fst snd].
  - right. auto.
  - destruct (p_session p); cbn [fst snd]; [now left|right; auto].
  - right. destruct (code_eqb (code e) TotpRequired); [|auto].
    intros t' Ht' _. unfold usable, hasSession, isExpired. cbn.
    apply andb_false_intro1, negb_false_iff, Z.geb_le. exact Ht'.
Qed.

Lemma fetch_count_extends w0 w :
  extends w0 w ->
  fetch_count (trace w) = (fetch_count (trace w0) + attempts w0 w)%nat.
Proof.
  intros Hext. unfold attempts.
  rewrite (extends_since _ _ Hext) at 1. apply fetch_count_app.
Qed.

Lemma outcome_settledFrom http net sm0 w0 c sm :
  outcome http net sm0 w0 c sm -> settledFrom sm0 c sm.
Proof.
  intros [(_ & -> & ->)|(result & t & _ & Hsettle)].
  - right. auto.
  - pose proof (authenticateSettle_settledFrom sm0 result t) as Hset.
    now rewrite Hsettle in Hset.
Qed.

Section Runs.
Variable http : HttpConfig.
Variable net : Network.
Variable sm0 : SessionManager.
Variable n : nat.
Variable w0 : World.

Local Abbreviation reachable := (reachable http net sm0 n w0).

Lemma step_call resumed s s' i t :
  reachable resumed s ->
  step http net (Call i t) s = Some s' ->
  resumed = false -> 0 <= t -> usable sm0 t = false ->
  reachable false s'.
Proof.
  intros (Hlen & Hext & Hphase) Hstep Hres Ht Hneed. cbn [step] in Hstep.
  destruct (nth_error (callers s) i) as [[| | |]|] eqn:Hnth; try discriminate.
  set (w := enter CallEnsureSession {| now := t; trace := trace (world s) |})
    in Hstep.
  assert (Hw : trace w = trace (world s) ++ [EvCall CallEnsureSession])
    by reflexivity.
  destruct (attempts_extend w0 (world s) w _ Hext Hw) as [Hextw Hattw].
  cbn in Hattw. rewrite Nat.add_0_r in Hattw.
  fold (usable (manager s) t) in Hstep.
  destruct Hphase as [c Hleft Hmark Hmgr Hlate Hatt
                     |Hnone _ Hmark Hmgr Hidle Hatt
                     |result Hnone _ Hmark Hmgr Hlogin Hwait Hown Hatt
                     |c Hnone Hmark Hout Haware Hown Hatt
                     |c _ Hr _ _ _ _ _].
  - (* a promise was left: this caller returns it *)
    rewrite Hmgr, Hneed, Hmark in Hstep. injection Hstep as <-.
    split; [cbn; now rewrite update_length|]. split; [exact Hextw|].
    apply (Stale http net sm0 w0 false _ c); cbn; auto.
    + apply update_Forall; [exact Hlate|]. right; now left.
    + now rewrite Hattw.
  - (* no attempt yet: this caller starts it *)
    rewrite Hmgr, Hneed, Hmark in Hstep.
    destruct (startAuthenticate_spec http net sm0 w)
      as (d & Hd & Hcount & Hkind).
    destruct (startAuthenticate http net sm0 w) as [promise w1].
    injection Hstep as <-. cbn [fst snd] in *.
    destruct (attempts_extend w0 w w1 d Hextw Hd) as [Hext1 Hatt1].
    rewrite Hattw, Hatt, Hcount in Hatt1. cbn [Nat.add] in Hatt1.
    split; [cbn; now rewrite update_length|]. split; [exact Hext1|].
    assert (Hidle' : forall P : Caller -> Prop, P Idle -> Forall P (callers s)).
    { intros P HP. eapply Forall_impl; [|exact Hidle]. now intros k <-. }
    destruct promise as [result|c].
    + apply (Flying http net sm0 w0 false _ result); cbn; auto.
      * destruct Hkind as (pw & Hpw & Htruthy & Hresult).
        exists pw, (enter CallAuthenticate w).
        split; [exact Hpw|]. split; [exact Htruthy|]. split; [|exact Hresult].
        unfold enter at 1. unfold emit. cbn [trace].
        rewrite fetch_count_snoc_call, Hw, fetch_count_snoc_call.
        rewrite (fetch_count_extends _ _ Hext), Hatt.
        apply Nat.add_0_r.
      * apply update_Forall; [apply Hidle'; now left|right; now exists Own].
      * eapply update_Exists_new; [exact Hnth|reflexivity].
    + destruct Hkind as [-> Hnopw].
      apply (Landed http net sm0 w0 false _ (Returned false)); cbn; auto.
      * left. auto.
      * apply update_Forall; [apply Hidle'; now left|].
        right; left. now exists Own.
      * left. eapply update_Exists_new; [exact Hnth|reflexivity].
  - (* attempt in flight: this caller shares it *)
    rewrite Hmgr, Hneed, Hmark in Hstep. injection Hstep as <-.
    split; [cbn; now rewrite update_length|]. split; [exact Hextw|].
    apply (Flying http net sm0 w0 false _ result); cbn; auto.
    + apply update_Forall; [exact Hwait|right; now exists Shared].
    + eapply update_Exists_other; [exact Hown|exact Hnth|discriminate].
    + now rewrite Hattw.
  - (* attempt settled, marker still set *)
    assert (Hown' : forall k,
               Exists (eq (Queued Own c)) (update i k (callers s))
               \/ c = Threw).
    { intros k. destruct Hown as [Hown|Hown]; [left|now right].
      eapply update_Exists_other; [exact Hown|exact Hnth|discriminate]. }
    destruct (usable (manager s) t) eqn:Huse.
    + injection Hstep as <-.
      assert (Hc : c = Returned true).
      { destruct (outcome_settledFrom _ _ _ _ _ _ Hout) as [Hc|Hno];
          [exact Hc|].
        rewrite (Hno t Ht Hneed) in Huse. discriminate. }
      subst c.
      split; [cbn; now rewrite update_length|]. split; [exact Hextw|].
      apply (Landed http net sm0 w0 false _ (Returned true)); cbn; auto.
      * apply update_Forall; [exact Haware|]. right; now right.
      * now rewrite Hattw.
    + rewrite Hmark in Hstep. injection Hstep as <-.
      split; [cbn; now rewrite update_length|]. split; [exact Hextw|].
      apply (Landed http net sm0 w0 false _ c); cbn; auto.
      * apply update_Forall; [exact Haware|]. right; left. now exists Shared.
      * now rewrite Hattw.
  - congruence.
Qed.

Lemma step_settle resumed s s' t :
  reachable resumed s ->
  step http net (Settle t) s = Some s' ->
  reachable resumed s'.
Proof.
  intros (Hlen & Hext & Hphase) Hstep. cbn [step] in Hstep.
  destruct Hphase as [c _ Hmark _ _ _
                     |_ _ Hmark _ _ _
                     |result Hnone Hres Hmark Hmgr Hlogin Hwait Hown Hatt
                     |c _ Hmark _ _ _ _
                     |c _ _ Hmark _ _ _ _];
    rewrite Hmark in Hstep; try discriminate.
  rewrite Hmgr in Hstep.
  destruct (authenticateSettle result t sm0) as [c sm'] eqn:Hsettle.
  injection Hstep as <-.
  assert (Hw : trace {| now := t; trace := trace (world s) |}
               = trace (world s) ++ []) by (cbn; now rewrite app_nil_r).
  destruct (attempts_extend w0 (world s) _ _ Hext Hw) as [Hext' Hatt'].
  rewrite Nat.add_0_r in Hatt'.
  split; [cbn; now rewrite length_map|]. split; [exact Hext'|].
  apply (Landed http net sm0 w0 resumed _ c); cbn [marker manager callers world].
  - exact Hnone.
  - reflexivity.
  - right. now exists result, t.
  - apply Forall_map. eapply Forall_impl; [|exact Hwait].
    intros k [->|[r ->]]; cbn; [now left|right; left; now exists r].
  - left. apply Exists_exists in Hown. destruct Hown as (k & Hin & <-).
    apply Exists_exists. exists (Queued Own c). split; [|reflexivity].
    change (Queued Own c) with (wake c (Awaiting Own)). now apply in_map.
  - now rewrite Hatt'.
Qed.

Lemma step_resume resumed s s' i :
  reachable resumed s ->
  step http net (Resume i) s = Some s' ->
  reachable true s'.
Proof.
  intros (Hlen & Hext & Hphase) Hstep. cbn [step] in Hstep.
  destruct (nth_error (callers s) i) as [k|] eqn:Hnth; [|discriminate].
  destruct Hphase as [c Hleft Hmark Hmgr Hlate Hatt
                     |_ _ _ _ Hidle _
                     |result _ _ _ _ _ Hwait _ _
                     |c Hnone Hmark Hout Haware Hown Hatt
                     |c Hnone _ Hmark Hc Hout Haware Hatt].
  - destruct (nth_error_Forall _ _ _ _ Hlate Hnth) as [->|[->| ->]];
      try discriminate.
    injection Hstep as <-.
    split; [cbn; now rewrite update_length|]. split; [exact Hext|].
    apply (Stale http net sm0 w0 true _ c); cbn; auto.
    apply update_Forall; [exact Hlate|]. right; now right.
  - pose proof (nth_error_Forall _ _ _ _ Hidle Hnth) as <-. discriminate.
  - destruct (nth_error_Forall _ _ _ _ Hwait Hnth) as [->|[r ->]];
      discriminate.
  - destruct (nth_error_Forall _ _ _ _ Haware Hnth) as [->|[[r ->]| ->]];
      try discriminate.
    destruct r; [destruct c as [result|]|]; injection Hstep as <-;
      (split; [cbn; now rewrite update_length|]); (split; [exact Hext|]).
    + apply (Cleared http net sm0 w0 true _ (Returned result)); cbn; auto.
      * discriminate.
      * apply update_Forall; [exact Haware|]. right; now right.
    + apply (Landed http net sm0 w0 true _ Threw); cbn; auto.
      apply update_Forall; [exact Haware|]. right; now right.
    + apply (Landed http net sm0 w0 true _ c); cbn; auto.
      * apply update_Forall; [exact Haware|]. right; now right.
      * destruct Hown as [Hown|Hown]; [left|now right].
        eapply update_Exists_other; [exact Hown|exact Hnth|discriminate].
  - destruct (nth_error_Forall _ _ _ _ Haware Hnth) as [->|[[r ->]| ->]];
      try discriminate.
    destruct r; [destruct c as [result|]; [|congruence]|];
      injection Hstep as <-;
      (split; [cbn; now rewrite update_length|]); (split; [exact Hext|]).
    + apply (Cleared http net sm0 w0 true _ (Returned result)); cbn; auto.
      apply update_Forall; [exact Haware|]. right; now right.
    + apply (Cleared http net sm0 w0 true _ c); cbn; auto.
      apply update_Forall; [exact Haware|]. right; now right.
Qed.

Lemma run_reachable schedule :
  forall resumed s final,
    reachable resumed s ->
    phased resumed schedule = true ->
    needAuthentication sm0 schedule ->
    run http net schedule s = Some final ->
    exists resumed', reachable resumed' final.
Proof.
  induction schedule as [|l rest IH]; intros resumed s final Hreach Hph Hneed Hrun.
  - injection Hrun as <-. now exists resumed.
  - cbn [run] in Hrun. destruct (step http net l s) as [s1|] eqn:Hstep;
      [|discriminate].
    assert (Hneed' : needAuthentication sm0 rest).
    { intros i t Hin. exact (Hneed i t (or_intror Hin)). }
    destruct l as [i t|t|i]; cbn [phased] in Hph.
    + apply andb_prop in Hph. destruct Hph as [Hres Hph].
      apply negb_true_iff in Hres. subst resumed.
      destruct (Hneed i t (or_introl eq_refl)) as [Ht Huse].
      eapply (IH false); [|exact Hph|exact Hneed'|exact Hrun].
      eapply step_call; eauto.
    + eapply (IH resumed); [|exact Hph|exact Hneed'|exact Hrun].
      eapply step_settle; eauto.
    + eapply (IH true); [|exact Hph|exact Hneed'|exact Hrun].
      eapply step_resume; eauto.
Qed.

End Runs.

Lemma overlapping_tail l rest : overlapping (l :: rest) -> overlapping rest.
Proof.
  intros Hov before l' after Heq Hres.
  apply (Hov (l :: before) l' after); [now rewrite Heq|exact Hres].
Qed.

Lemma overlapping_phased schedule :
  forall resumed,
    overlapping schedule ->
    (resumed = true -> forallb (fun l => negb (isCall l)) schedule = true) ->
    phased resumed schedule = true.
Proof.
  induction schedule as [|l rest IH]; intros resumed Hov Hcalls; [reflexivity|].
  pose proof (overlapping_tail _ _ Hov) as Hov'.
  destruct l as [i t|t|i]; cbn [phased].
  - destruct resumed; [specialize (Hcalls eq_refl); discriminate|].
    cbn [negb andb]. apply IH; [exact Hov'|discriminate].
  - apply IH; [exact Hov'|]. intros Hr. specialize (Hcalls Hr).
    cbn in Hcalls. exact Hcalls.
  - apply IH; [exact Hov'|]. intros _.
    apply (Hov [] (Resume i) rest); reflexivity.
Qed.

Lemma reachable_boot http net sm n w :
  reachable http net sm n w false (boot sm n w).
Proof.
  split; [apply repeat_length|]. split; [apply extends_refl|].
  assert (Hidle : forall P : Caller -> Prop,
             P Idle -> Forall P (List.repeat Idle n)).
  { intros P HP. apply Forall_forall. intros k Hk.
    apply repeat_spec in Hk. now subst. }
  assert (Hatt : attempts w w = 0%nat)
    by (unfold attempts; now rewrite since_refl).
  destruct (refreshPromise sm) as [c|] eqn:Hleft.
  - apply (Stale http net sm w false _ c); cbn; auto.
    + now rewrite Hleft.
    + apply Hidle. now left.
  - apply Fresh; cbn; auto. now rewrite Hleft.
Qed.

Lemma Forall_eq_repeat (x : Caller) l :
  Forall (eq x) l -> l = List.repeat x (List.length l).
Proof.
  induction 1 as [|y l <- _ IH]; [reflexivity|]. cbn. now rewrite <- IH.
Qed.

Lemma finished_aware c l :
  Forall (aware c) l -> forallb isFinished l = true ->
  Forall (eq (Finished c)) l.
Proof.
  intros Haware Hfin. rewrite forallb_forall in Hfin.
  rewrite Forall_forall in *. intros k Hk.
  specialize (Hfin k Hk).
  destruct (Haware k Hk) as [->|[[r ->]| ->]]; try discriminate. reflexivity.
Qed.

Lemma phased_no_call schedule :
  phased true schedule = true ->
  forallb (fun l => negb (isCall l)) schedule = true.
Proof.
  induction schedule as [|[i t|t|i] rest IH]; cbn; auto.
Qed.

Lemma phased_weaken schedule :
  forall resumed, phased resumed schedule = true -> phased false schedule = true.
Proof.
  induction schedule as [|[i t|t|i] rest IH]; intros resumed H; cbn in *; auto.
  - apply andb_prop in H. destruct H as [Hr H]. apply negb_true_iff in Hr.
    now subst.
  - eauto.
Qed.

Lemma phased_overlapping schedule :
  phased false schedule = true -> overlapping schedule.
Proof.
  intros Hph before l after -> Hres.
  induction before as [|l' before IH].
  - destruct l; try discriminate. cbn in Hph. now apply phased_no_call.
  - apply IH. destruct l' as [i t|t|i]; cbn in Hph; auto.
    eapply phased_weaken. exact Hph.
Qed.

Lemma ensureSession_on_event_loop http net sm w :
  exists schedule final,
    run http net schedule (boot sm 1 w) = Some final
    /\ callers final = [Finished (fst (fst (ensureSession http net sm w)))]
    /\ state (manager final)
       = state (snd (fst (ensureSession http net sm w)))
    /\ trace (world final) = trace (snd (ensureSession http net sm w))
    /\ marker final
       = option_map Settled
           (refreshPromise (snd (fst (ensureSession http net sm w)))).
Proof.
  destruct w as [t tr].
  unfold ensureSession, authenticate.
  cbn [Http.now enter emit trace].
  destruct (hasSession sm t && negb (needsRefresh sm t)) eqn:Huse.
  { exists [Call 0 t]. eexists. cbn. rewrite Huse. cbn.
    repeat split; reflexivity. }
  destruct (refreshPromise sm) as [kept|] eqn:Hmarker.
  { exists [Call 0 t; Resume 0]. eexists.
    cbn [run step boot callers nth_error List.repeat manager marker world
           trace].
    rewrite Huse, Hmarker.
    cbn [option_map callers update nth_error manager marker world].
    cbn. rewrite Hmarker. repeat split; reflexivity. }
  assert (Hcall : forall promise w1,
             startAuthenticate http net sm
               (enter CallEnsureSession {| now := t; trace := tr |})
             = (promise, w1) ->
             step http net (Call 0 t) (boot sm 1 {| now := t; trace := tr |})
             = Some {| manager := sm; marker := Some promise;
                       callers := [match promise with
                                   | Pending _ => Awaiting Own
                                   | Settled c => Queued Own c
                                   end];
                       world := w1 |}).
  { intros promise w1 Hstart. cbn [step boot callers nth_error List.repeat
                                    manager marker world trace].
    rewrite Huse, Hmarker, Hstart. reflexivity. }
  unfold startAuthenticate in Hcall. unfold enter, emit in *.
  cbn [trace Http.now] in *.
  destruct (password sm) as [p|] eqn:Hpw.
  - destruct (Str.truthy p) eqn:Hp; cbn [negb] in *.
    + match goal with
      | |- context [Http.request http net ?o ?a ?w] =>
          destruct (Http.request http net o a w) as [result w1] eqn:Hreq
      end.
      specialize (Hcall _ _ eq_refl).
      destruct (authenticateSettle result (now w1) sm) as [c sm1] eqn:Hset.
      exists [Call 0 t; Settle (now w1); Resume 0].
      cbn [run]. rewrite Hcall. cbn [step marker manager callers world].
      rewrite Hset. cbn [List.map wake nth_error callers].
      destruct c as [b|]; eexists; cbn; repeat split; reflexivity.
    + specialize (Hcall _ _ eq_refl).
      exists [Call 0 t; Resume 0]. eexists.
      cbn [run]. rewrite Hcall. cbn. repeat split; reflexivity.
  - specialize (Hcall _ _ eq_refl).
    exists [Call 0 t; Resume 0]. eexists.
    cbn [run]. rewrite Hcall. cbn. repeat split; reflexivity.
Qed.

(** *** Every call made runs to its end *)

Lemma run_app http net a :
  forall b s,
    run http net (a ++ b) s
    = match run http net a s with
      | Some s' => run http net b s'
      | None => None
      end.
Proof.
  induction a as [|l a IH]; intros b s; [reflexivity|].
  cbn [app run]. destruct (step http net l s); [apply IH|reflexivity].
Qed.

Lemma queued_found l :
  forall m,
    List.length (List.filter isQueued l) = S m ->
    exists i r c, nth_error l i = Some (Queued r c).
Proof.
  induction l as [|k l IH]; intros m Hm; [discriminate|].
  destruct k as [|r|r c|c];
    try (cbn in Hm; destruct (IH m Hm) as (i & r' & c' & Hi);
         now exists (S i), r', c').
  now exists 0%nat, r, c.
Qed.

Lemma update_queued l :
  forall i r c c',
    nth_error l i = Some (Queued r c) ->
    List.length (List.filter isQueued l)
    = S (List.length (List.filter isQueued (update i (Finished c') l))).
Proof.
  induction l as [|k l IH]; intros [|i] r c c' Hnth; try discriminate.
  - injection Hnth as ->. reflexivity.
  - cbn [nth_error] in Hnth. cbn [update filter].
    destruct (isQueued k); cbn [List.length]; now rewrite (IH i r c c' Hnth).
Qed.

Lemma resume_queued http net s i r c :
  nth_error (callers s) i = Some (Queued r c) ->
  exists s',
    step http net (Resume i) s = Some s'
    /\ callers s' = update i (Finished c) (callers s).
Proof.
  intros Hnth. cbn [step]. rewrite Hnth.
  destruct r; [destruct c|]; eexists; split; reflexivity.
Qed.

(** Callers that are ready to continue can all continue, one after the
    other, and then all have ended. *)
Lemma drain http net :
  forall m s,
    List.length (List.filter isQueued (callers s)) = m ->
    Forall woken (callers s) ->
    exists rest final,
      run http net rest s = Some final
      /\ forallb (fun l => negb (isCall l)) rest = true
      /\ forallb isFinished (callers final) = true.
Proof.
  induction m as [|m IH]; intros s Hm Hall.
  - exists [], s. split; [reflexivity|]. split; [reflexivity|].
    apply forallb_forall. intros k Hk.
    rewrite Forall_forall in Hall. destruct (Hall k Hk) as [Hq|Hf]; [|exact Hf].
    exfalso.
    assert (Hin : In k (List.filter isQueued (callers s)))
      by (apply filter_In; now split).
    destruct (List.filter isQueued (callers s)); [contradiction|discriminate].
  - destruct (queued_found _ _ Hm) as (i & r & c & Hnth).
    destruct (resume_queued http net s i r c Hnth) as (s' & Hstep & Hcallers).
    destruct (IH s') as (rest & final & Hrun & Hquiet & Hfin).
    + rewrite Hcallers.
      pose proof (update_queued _ _ _ _ c Hnth) as Hcount.
      rewrite Hm in Hcount. now injection Hcount as <-.
    + rewrite Hcallers. apply update_Forall; [exact Hall|now right].
    + exists (Resume i :: rest), final. cbn [run]. rewrite Hstep.
      split; [exact Hrun|]. split; [exact Hquiet|exact Hfin].
Qed.

Lemma run_completes http net sm0 n w0 resumed s :
  reachable http net sm0 n w0 resumed s ->
  (1 <= n)%nat ->
  Forall (fun k => k <> Idle) (callers s) ->
  exists rest final,
    run http net rest s = Some final
    /\ forallb (fun l => negb (isCall l)) rest = true
    /\ forallb isFinished (callers final) = true.
Proof.
  intros (Hlen & _ & Hphase) Hn Hcalled.
  assert (Hwoken : forall P : Caller -> Prop,
             (forall k, P k -> k <> Idle -> woken k) ->
             Forall P (callers s) -> Forall woken (callers s)).
  { intros P HP Hall. rewrite Forall_forall in *.
    intros k Hk. apply HP; auto. }
  destruct Hphase as [c _ _ _ Hlate _
                     |_ _ _ _ Hidle _
                     |result _ _ Hmark _ _ Hwait _ _
                     |c _ _ _ Haware _ _
                     |c _ _ _ _ _ Haware _].
  - apply (drain http net _ s eq_refl).
    apply (Hwoken (latecomer c)); [|exact Hlate].
    intros k [->|[->| ->]] Hk; [congruence|now left|now right].
  - exfalso. destruct (callers s) as [|k l]; [cbn in Hlen; lia|].
    inversion Hidle as [|? ? <- _]. inversion Hcalled as [|? ? Hk _].
    now apply Hk.
  - destruct (authenticateSettle result (now (world s)) (manager s))
      as [c sm'] eqn:Hsettle.
    set (s' := {| manager := sm'; marker := Some (Settled c);
                  callers := List.map (wake c) (callers s);
                  world := {| now := now (world s);
                              trace := trace (world s) |} |}).
    assert (Hstep : step http net (Settle (now (world s))) s = Some s').
    { cbn [step]. rewrite Hmark, Hsettle. reflexivity. }
    destruct (drain http net _ s' eq_refl) as (rest & final & Hrun & Hq & Hf).
    + cbn [callers s']. apply Forall_map.
      rewrite Forall_forall in *. intros k Hk.
      destruct (Hwait k Hk) as [->|[r ->]];
        [now contradiction (Hcalled _ Hk)|now left].
    + exists (Settle (now (world s)) :: rest), final.
      cbn [run]. rewrite Hstep. split; [exact Hrun|]. split; [exact Hq|].
      exact Hf.
  - apply (drain http net _ s eq_refl).
    apply (Hwoken (aware c)); [|exact Haware].
    intros k [->|[[r ->]| ->]] Hk; [congruence|now left|now right].
  - apply (drain http net _ s eq_refl).
    apply (Hwoken (aware c)); [|exact Haware].
    intros k [->|[[r ->]| ->]] Hk; [congruence|now left|now right].
Qed.

Lemma call_idle http net s i t :
  nth_error (callers s) i = Some Idle ->
  exists s' k,
    step http net (Call i t) s = Some s'
    /\ callers s' = update i k (callers s)
    /\ k <> Idle.
Proof.
  intros Hnth. cbn [step]. rewrite Hnth.
  destruct (hasSession (manager s) t && negb (needsRefresh (manager s) t));
    [eexists; eexists; split; [reflexivity|]; split;
     [reflexivity|discriminate]|].
  destruct (marker s) as [[result|c]|].
  - eexists; eexists; split; [reflexivity|]; split;
      [reflexivity|discriminate].
  - eexists; eexists; split; [reflexivity|]; split;
      [reflexivity|discriminate].
  - destruct (startAuthenticate http net (manager s) _) as [promise w1].
    eexists; eexists; split; [reflexivity|]; split; [reflexivity|].
    destruct promise; discriminate.
Qed.

Lemma update_middle (called : list Caller) k rest :
  update (List.length called) k (called ++ Idle :: rest)
  = called ++ k :: rest.
Proof. induction called as [|x l IH]; cbn; [reflexivity|now rewrite IH]. Qed.

(** The callers that have not called yet can all call at the instant
    [t], one after the other. *)
Lemma calls_run http net t :
  forall m called s,
    callers s = called ++ List.repeat Idle m ->
    Forall (fun k => k <> Idle) called ->
    exists s',
      run http net
        (List.map (fun i => Call i t) (seq (List.length called) m)) s
      = Some s'
      /\ Forall (fun k => k <> Idle) (callers s').
Proof.
  induction m as [|m IH]; intros called s Hcallers Hcalled.
  - exists s. split; [reflexivity|].
    rewrite Hcallers. cbn. now rewrite app_nil_r.
  - cbn [seq List.map run].
    destruct (call_idle http net s (List.length called) t)
      as (s1 & k & Hstep & Hcallers1 & Hk).
    { rewrite Hcallers, nth_error_app2 by lia.
      now rewrite Nat.sub_diag. }
    rewrite Hstep.
    rewrite Hcallers in Hcallers1. cbn [List.repeat] in Hcallers1.
    rewrite update_middle in Hcallers1.
    destruct (IH (called ++ [k]) s1) as (s' & Hrun & Hall).
    + rewrite Hcallers1, <- app_assoc. reflexivity.
    + apply Forall_app. split; [exact Hcalled|]. now constructor.
    + exists s'. split; [|exact Hall].
      rewrite length_app in Hrun. cbn [List.length] in Hrun.
      now rewrite Nat.add_1_r in Hrun.
Qed.

Lemma phased_calls t :
  forall l, phased false (List.map (fun i => Call i t) l) = true.
Proof. induction l as [|i l IH]; [reflexivity|exact IH]. Qed.

Lemma phased_app schedule rest :
  forallb (fun l => negb (isCall l)) rest = true ->
  forall resumed,
    phased resumed schedule = true ->
    phased resumed (schedule ++ rest) = true.
Proof.
  intros Hquiet.
  assert (Hrest : forall resumed, phased resumed rest = true).
  { induction rest as [|[i t|t|i] rest IH]; intros resumed; cbn in *;
      try discriminate; auto. }
  induction schedule as [|[i t|t|i] schedule IH]; intros resumed Hph;
    cbn [app phased] in *; auto.
  apply andb_prop in Hph. destruct Hph as [-> Hph]. cbn [andb]. auto.
Qed.




(** * Further properties of the core *)

(** ** result.ts *)

(** X1. [andThen] chains as a monad does: a success feeds its value to the
    function, [ok] as the function changes nothing, and chaining twice is
    chaining with the chained function; a failure passes through any chain
    unchanged. *)
Theorem andThen_laws (T U V E : Type) :
  (forall (x : T) (f : T -> Result U E), andThen (ok x) f = f x)
  /\ (forall r : Result T E, andThen r ok = r)
  /\ (forall (r : Result T E) (f : T -> Result U E) (g : U -> Result V E),
        andThen (andThen r f) g = andThen r (fun x => andThen (f x) g))
  /\ (forall (e : E) (f : T -> Result U E) (g : U -> Result V E),
        andThen (andThen (err e) f) g = err e).
Proof.
  repeat split.
  - now intros [x|e].
  - now intros [x|e] f g.
Qed.

(** X2. [map] and [mapErr] never change which variant a result is; [map]
    only touches the value and [mapErr] only the error, so they commute;
    mapping twice is mapping the composition; and [unwrapOr] of a mapped
    result is the mapped [unwrapOr]. *)
Theorem map_mapErr_laws (T U V E F : Type) :
  (forall (r : Result T E) (f : T -> U), isOk (map r f) = isOk r)
  /\ (forall (r : Result T E) (h : E -> F), isOk (mapErr r h) = isOk r)
  /\ (forall (r : Result T E) (f : T -> U) (g : U -> V),
        map (map r f) g = map r (fun x => g (f x)))
  /\ (forall (r : Result T E) (f : T -> U) (h : E -> F),
        mapErr (map r f) h = map (mapErr r h) f)
  /\ (forall (r : Result T E) (f : T -> U) (d : T),
        unwrapOr (map r f) (f d) = f (unwrapOr r d))
  /\ (forall (r : Result T E) (f : T -> U),
        map r f = andThen r (fun x => ok (f x))).
Proof.
  repeat split; intros [x|e]; reflexivity.
Qed.

(** ** errors.ts *)

Lemma isRetryable_apiKey key : isRetryable (apiKeyToErrorCode key) = false.
Proof.
  unfold apiKeyToErrorCode.
  repeat match goal with
         | |- context [if ?b then _ else _] => destruct b
         end; reflexivity.
Qed.

Lemma status_kinds (status : Z) :
  isRetryable (statusToErrorCode status)
  = negb ((400 <=? status) && (status <? 500))
  /\ isAuthError (statusToErrorCode status)
     = (status =? 401) || (status =? 403).
Proof.
  unfold statusToErrorCode.
  repeat match goal with
         | |- context [status =? ?c] =>
             destruct (Z.eqb_spec status c); [subst; split; reflexivity|]
         end.
  cbn [orb].
  destruct (Z.geb_spec status 400), (Z.leb_spec 400 status),
    (Z.ltb_spec status 500); try lia; split; reflexivity.
Qed.

(** X3. No error code is both retryable and an authentication error, and
    the code an API key is mapped to is never retryable. *)
Theorem retryable_auth_disjoint :
  (forall c, isRetryable c && isAuthError c = false)
  /\ (forall key, isRetryable (apiKeyToErrorCode key) = false).
Proof.
  split; [now intros []|exact isRetryable_apiKey].
Qed.

(** X4. The code of a status is retryable exactly when the status is not
    in 400..499, and is an authentication error exactly for 401 and 403. *)
Theorem status_code_kinds (status : Z) :
  isRetryable (statusToErrorCode status)
  = negb ((400 <=? status) && (status <? 500))
  /\ isAuthError (statusToErrorCode status)
     = (status =? 401) || (status =? 403).
Proof. exact (status_kinds status). Qed.

(** ** http.ts: the base URL *)

Import HttpClient.

Lemma strip_slashes n : stripTrailingSlashes (slashes n) = EmptyString.
Proof. induction n as [|n IH]; [reflexivity|]. cbn. now rewrite IH. Qed.

Lemma strip_append_slashes s n :
  stripTrailingSlashes (s ++ slashes n)%string = stripTrailingSlashes s.
Proof.
  induction s as [|c s IH]; [apply strip_slashes|].
  cbn. now rewrite IH.
Qed.

Lemma strip_fixed s :
  endsWithSlash s = false -> stripTrailingSlashes s = s.
Proof.
  induction s as [|c s IH]; [reflexivity|].
  intros Hend. cbn in *. destruct s as [|c' s'].
  - cbn. now rewrite Hend.
  - rewrite (IH Hend). reflexivity.
Qed.

Lemma strip_awake s : endsWithSlash (stripTrailingSlashes s) = false.
Proof.
  induction s as [|c s IH]; [reflexivity|].
  cbn. destruct (stripTrailingSlashes s) as [|c' s'] eqn:Hs.
  - destruct (Ascii.eqb c "/") eqn:Hc; [reflexivity|]. cbn. exact Hc.
  - exact IH.
Qed.

Lemma strip_decompose s :
  exists n, s = (stripTrailingSlashes s ++ slashes n)%string.
Proof.
  induction s as [|c s [n IH]]; [now exists 0%nat|].
  cbn. destruct (stripTrailingSlashes s) as [|c' s'] eqn:Hs.
  - cbn in IH. destruct (Ascii.eqb_spec c "/") as [->|Hc].
    + exists (S n). cbn. now rewrite <- IH.
    + exists n. cbn. now rewrite <- IH.
  - exists n. cbn. cbn in IH. now rewrite <- IH.
Qed.

(** X5. [setBaseUrl] stores the URL without the slashes at its end: what
    it stores does not end with a slash, only slashes were removed, a URL
    that does not end with a slash is stored as it is, and storing the
    stored URL again changes nothing. *)
Theorem setBaseUrl_strips url config :
  endsWithSlash (getBaseUrl (setBaseUrl url config)) = false
  /\ (exists n,
        url = (getBaseUrl (setBaseUrl url config) ++ slashes n)%string)
  /\ (endsWithSlash url = false -> getBaseUrl (setBaseUrl url config) = url)
  /\ setBaseUrl (getBaseUrl (setBaseUrl url config)) (setBaseUrl url config)
     = setBaseUrl url config
  /\ (forall s n,
        endsWithSlash s = false ->
        getBaseUrl (setBaseUrl (s ++ slashes n)%string config) = s).
Proof.
  unfold getBaseUrl, setBaseUrl. cbn [baseUrl timeout maxRetries retryDelayBase
                                      retryDelayMax backoffMultiplier].
  split; [apply strip_awake|]. split; [apply strip_decompose|].
  split; [apply strip_fixed|]. split.
  - now rewrite (strip_fixed _ (strip_awake url)).
  - intros s n Hs. rewrite strip_append_slashes. now apply strip_fixed.
Qed.

Lemma fetchesOf_loopEvents req delay :
  forall k attempt, fetchesOf (loopEvents req delay attempt k) = List.repeat req k.
Proof.
  induction k as [|k IH]; intros attempt; [reflexivity|].
  destruct k as [|k]; [reflexivity|].
  change (fetchesOf (loopEvents req delay attempt (S (S k))))
    with (req :: fetchesOf (loopEvents req delay (attempt + 1) (S k))).
  now rewrite IH.
Qed.

(** X6. A base URL that consists of slashes only (or is empty) leaves the
    client unconfigured: every request fails with [BadRequest] and status 0
    before any fetch. With any other URL, each fetch of a request goes to the
    stored URL, which does not end with a slash, followed by the path. *)
Theorem request_after_setBaseUrl url config net options authHeaders w :
  ((exists n, url = slashes n) ->
   Http.request (setBaseUrl url config) net options authHeaders w
   = (err (createError BadRequest "Base URL not configured" 0 None None),
      enter (CallHttpRequest options authHeaders) w))
  /\ ((forall n, url <> slashes n) ->
      Str.truthy (baseUrl (setBaseUrl url config)) = true
      /\ Forall (fun r => f_url r
                          = (stripTrailingSlashes url ++ path options)%string)
           (fetchesOf
              (since w (snd (Http.request (setBaseUrl url config) net options
                               authHeaders w))))).
Proof.
  split.
  - intros [n ->]. apply request_unconfigured. cbn. now rewrite strip_slashes.
  - intros Hnot. split.
    + cbn. destruct (stripTrailingSlashes url) eqn:Hs; [|reflexivity].
      destruct (strip_decompose url) as [n Hn]. rewrite Hs in Hn.
      now contradiction (Hnot n).
    + destruct (request_since (setBaseUrl url config) net options authHeaders w)
        as (k & Hs & _).
      rewrite Hs. cbn [fetchesOf]. rewrite fetchesOf_loopEvents.
      apply Forall_forall. intros r Hr. apply repeat_spec in Hr. now subst.
Qed.

(** ** http.ts: the headers of a fetch *)

Lemma getHeader_set_same k v hs : getHeader k (set_header k v hs) = Some v.
Proof.
  induction hs as [|[k' v'] hs IH]; cbn.
  - now rewrite String.eqb_refl.
  - destruct (String.eqb_spec k' k) as [->|Hk]; cbn.
    + now rewrite String.eqb_refl.
    + destruct (String.eqb_spec k' k); [contradiction|exact IH].
Qed.

Lemma getHeader_set_other k k' v hs :
  k' <> k -> getHeader k' (set_header k v hs) = getHeader k' hs.
Proof.
  intros Hne. induction hs as [|[k0 v0] hs IH]; cbn.
  - destruct (String.eqb_spec k k'); [congruence|reflexivity].
  - destruct (String.eqb_spec k0 k) as [->|Hk]; cbn.
    + destruct (String.eqb_spec k k'); [congruence|reflexivity].
    + destruct (String.eqb_spec k0 k'); [reflexivity|exact IH].
Qed.

(** Reading a key of [{...base, ...extra}]: the last entry of [extra] with
    that key, and the entry of [base] when [extra] has none. *)
Lemma getHeader_spread key base hs :
  getHeader key (spread base (Some hs))
  = match getHeader key (rev hs) with
    | Some v => Some v
    | None => getHeader key base
    end.
Proof.
  unfold spread. revert base.
  induction hs as [|[k v] hs IH]; intros base; [reflexivity|].
  cbn [fold_left fst snd rev]. rewrite IH.
  assert (Happ : forall l,
             getHeader key (l ++ [(k, v)])
             = match getHeader key l with
               | Some x => Some x
               | None => if (k =? key)%string then Some v else None
               end).
  { induction l as [|[k0 v0] l IHl]; cbn; [reflexivity|].
    destruct (k0 =? key)%string; [reflexivity|exact IHl]. }
  rewrite Happ. destruct (getHeader key (rev hs)); [reflexivity|].
  destruct (String.eqb_spec k key) as [->|Hk].
  - apply getHeader_set_same.
  - apply getHeader_set_other. congruence.
Qed.

(** X7. The headers of a fetch: a header of the descriptor wins over the
    same header of the session, which wins over the default
    [Content-Type: application/json]; a header that none of the three gives
    is not sent. (Of several entries with one key the last one counts.) *)
Theorem fetch_headers_precedence config options authHeaders timeout key :
  getHeader key (f_headers (fetchReq config options authHeaders timeout))
  = match
      match headers options with
      | Some hs => getHeader key (rev hs)
      | None => None
      end
    with
    | Some v => Some v
    | None =>
        match
          match authHeaders with
          | Some hs => getHeader key (rev hs)
          | None => None
          end
        with
        | Some v => Some v
        | None =>
            if ("Content-Type" =? key)%string
            then Some "application/json"%string else None
        end
    end.
Proof.
  unfold fetchReq. cbn [f_headers].
  destruct (headers options) as [hs|].
  - rewrite getHeader_spread. destruct (getHeader key (rev hs)); [reflexivity|].
    destruct authHeaders as [ha|]; [|reflexivity].
    rewrite getHeader_spread. now destruct (getHeader key (rev ha)).
  - cbn [spread]. destruct authHeaders as [ha|]; [|reflexivity].
    rewrite getHeader_spread. now destruct (getHeader key (rev ha)).
Qed.

(** ** http.ts: responses *)

Lemma handleResponse_cases response :
  isOk (handleResponse response)
  = response_ok response
    && ((r_status response =? 204)
        || match r_body response with Json _ => true | NotJson => false end)
  /\ (r_status response = 204 -> handleResponse response = ok Undefined)
  /\ (forall e, handleResponse response = err e ->
                status e = r_status response)
  /\ (forall e, handleResponse response = err e ->
                response_ok response = true -> code e = ParseError).
Proof.
  unfold handleResponse.
  destruct (response_ok response) eqn:Hok; cbn [negb andb].
  - destruct (r_status response =? 204) eqn:H204; cbn [orb].
    + repeat split; intros; discriminate.
    + destruct (r_body response) as [|p].
      * repeat split; intros; try discriminate.
        -- apply Z.eqb_neq in H204. contradiction.
        -- injection H as <-. reflexivity.
        -- injection H as <-. reflexivity.
      * repeat split; intros; try discriminate.
        apply Z.eqb_neq in H204. contradiction.
  - repeat split; intros.
    + unfold response_ok in Hok. rewrite H in Hok. discriminate.
    + injection H as <-. reflexivity.
    + discriminate.
Qed.

(** X8. [handleResponse] succeeds exactly for a 2xx response that is a 204
    or has a JSON body; a 204 gives [undefined] whatever its body is; every
    failure carries the status of the response; and the failure of a 2xx
    response is a [ParseError]. *)
Theorem handleResponse_outcomes response :
  isOk (handleResponse response)
  = response_ok response
    && ((r_status response =? 204)
        || match r_body response with Json _ => true | NotJson => false end)
  /\ (r_status response = 204 -> handleResponse response = ok Undefined)
  /\ (forall e, handleResponse response = err e ->
                status e = r_status response)
  /\ (forall e, handleResponse response = err e ->
                response_ok response = true -> code e = ParseError).
Proof. exact (handleResponse_cases response). Qed.

Lemma handleFetchError_status error : status (handleFetchError error) = 0.
Proof.
  destruct error as [name message|]; [|reflexivity].
  cbn [handleFetchError].
  destruct (name =? "AbortError")%string; [reflexivity|].
  destruct (_ || _ || _ || _); [reflexivity|].
  destruct (_ || _); reflexivity.
Qed.

(** X9. Which outcomes of an attempt are retried: a response is retried
    exactly when it is not 2xx, supplies no key (or the empty one) and has a
    status outside 400..499; a thrown [Error] is retried exactly when it is
    an abort or mentions neither a certificate nor a refused connection; a
    thrown value that is not an [Error] is not retried. *)
Theorem retried_outcomes :
  (forall response,
     retryableFailure (handleResponse response)
     = negb (response_ok response)
       && negb (Str.truthy_opt (suppliedKey response))
       && negb ((400 <=? r_status response) && (r_status response <? 500)))
  /\ (forall name message,
        retryableFailure (err (handleFetchError (ThrownError name message)))
        = (name =? "AbortError")%string
          || (negb (mentionsCertificate message)
              && negb (mentionsRefused message)))
  /\ retryableFailure (err (handleFetchError ThrownOther)) = false.
Proof.
  split; [|split; [|reflexivity]].
  - intros response. unfold handleResponse.
    destruct (response_ok response) eqn:Hok; cbn [negb andb].
    + destruct (r_status response =? 204); [reflexivity|].
      now destruct (r_body response).
    + cbn [retryableFailure]. rewrite parseErrorResponse_code.
      destruct (suppliedKey response) as [k|]; cbn [Str.truthy_opt].
      * destruct (Str.truthy k); cbn [negb andb].
        -- apply isRetryable_apiKey.
        -- apply status_kinds.
      * apply status_kinds.
  - intros name message. cbn [retryableFailure handleFetchError].
    fold (mentionsCertificate message). fold (mentionsRefused message).
    destruct (name =? "AbortError")%string; [reflexivity|].
    destruct (mentionsCertificate message); [reflexivity|].
    destruct (mentionsRefused message); reflexivity.
Qed.

(** ** http.ts: what a call of [request] does on the network *)

Lemma sleepsOf_loopEvents req delay :
  forall k attempt,
    sleepsOf (loopEvents req delay attempt k)
    = List.map (fun i => delay (attempt + Z.of_nat i)) (seq 0 (k - 1)).
Proof.
  induction k as [|k IH]; intros attempt; [reflexivity|].
  destruct k as [|k]; [reflexivity|].
  change (sleepsOf (loopEvents req delay attempt (S (S k))))
    with (delay attempt :: sleepsOf (loopEvents req delay (attempt + 1) (S k))).
  rewrite IH. cbn [Nat.sub]. rewrite Nat.sub_0_r.
  cbn [seq List.map]. rewrite Z.add_0_r. f_equal.
  rewrite <- seq_shift, map_map. apply map_ext. intros i. f_equal. lia.
Qed.

Lemma loopEvents_last req delay :
  forall k attempt,
    k = 0%nat \/ exists t, loopEvents req delay attempt k = t ++ [EvFetch req].
Proof.
  induction k as [|k IH]; intros attempt; [now left|right].
  destruct k as [|k]; [now exists []|].
  destruct (IH (attempt + 1)) as [Hk|[t Ht]]; [discriminate|].
  exists (EvFetch req :: EvSleep (delay attempt) :: t).
  change (loopEvents req delay attempt (S (S k)))
    with (EvFetch req :: EvSleep (delay attempt)
            :: loopEvents req delay (attempt + 1) (S k)).
  now rewrite Ht.
Qed.

Lemma sum_le_bound (l : list Z) (bound : Z) :
  Forall (fun x => x <= bound) l -> sum l <= Z.of_nat (List.length l) * bound.
Proof.
  induction 1 as [|x l Hx Hl IH]; [cbn; lia|].
  cbn [sum fold_right List.length]. fold (sum l). lia.
Qed.

(** X10. One call of [request] sends the same fetch at every attempt: the
    URL, the method, the headers, the body and the timeout are those of the
    first attempt. *)
Theorem request_replays_one_fetch config net options authHeaders w :
  fetchesOf (since w (snd (Http.request config net options authHeaders w)))
  = List.repeat
      (fetchReq config options authHeaders (timeoutOf config options))
      (attempts w (snd (Http.request config net options authHeaders w))).
Proof.
  destruct (request_since config net options authHeaders w) as (k & Hs & Hk).
  rewrite Hs, Hk. cbn [fetchesOf]. apply fetchesOf_loopEvents.
Qed.

(** X11. [request] sleeps only between two attempts: the number of sleeps
    is the number of attempts less one (none without an attempt), the trace
    of the call never ends with a sleep, and a call with [noRetry] does not
    sleep at all. *)
Theorem request_sleeps_between_attempts config net options authHeaders w :
  let d := since w (snd (Http.request config net options authHeaders w)) in
  List.length (sleepsOf d)
  = (attempts w (snd (Http.request config net options authHeaders w)) - 1)%nat
  /\ endsAwake d
  /\ (noRetry options = true -> sleepsOf d = []).
Proof.
  cbn zeta.
  destruct (request_since config net options authHeaders w) as (k & Hs & Hk).
  rewrite Hs, Hk. cbn [sleepsOf]. rewrite sleepsOf_loopEvents.
  split; [now rewrite length_map, length_seq|]. split.
  - intros t' ms Heq.
    destruct (loopEvents_last
                (fetchReq config options authHeaders (timeoutOf config options))
                (calculateDelay config) k 0) as [->|[t Ht]].
    + cbn in Heq. destruct t' as [|e [|e' t']]; discriminate.
    + rewrite Ht in Heq.
      change (EvCall (CallHttpRequest options authHeaders) :: t ++ [EvFetch
                (fetchReq config options authHeaders (timeoutOf config options))])
        with ((EvCall (CallHttpRequest options authHeaders) :: t) ++ [EvFetch
                (fetchReq config options authHeaders (timeoutOf config options))])
        in Heq.
      apply app_inj_tail in Heq. destruct Heq as [_ Heq]. discriminate.
  - intros HnoRetry.
    assert (Hk1 : (k <= 1)%nat).
    { rewrite <- Hk. destruct (Str.truthy (baseUrl config)) eqn:Hbase.
      - rewrite attempts_request by exact Hbase.
        etransitivity; [apply attemptsMade_le|].
        unfold maxAttemptsOf. rewrite HnoRetry. reflexivity.
      - rewrite (request_unconfigured config net _ _ w Hbase). cbn [snd].
        unfold attempts. rewrite since_enter. cbn. lia. }
    destruct k as [|[|k]]; [reflexivity|reflexivity|lia].
Qed.

Lemma calculateDelay_capped config attempt :
  calculateDelay config attempt <= retryDelayMax config.
Proof. unfold calculateDelay. cbn zeta. lia. Qed.

(** X12. Backoff is capped and does not shrink: a delay is never more than
    [retryDelayMax]; with a base delay that is not negative and a multiplier
    of at least 1 the delay of a later attempt is at least that of an
    earlier one, and no delay is negative when the cap is not. *)
Theorem calculateDelay_capped_monotone config i j :
  0 <= retryDelayBase config ->
  1 <= backoffMultiplier config ->
  0 <= i <= j ->
  calculateDelay config j <= retryDelayMax config
  /\ calculateDelay config i <= calculateDelay config j
  /\ (0 <= retryDelayMax config -> 0 <= calculateDelay config i).
Proof.
  intros Hbase Hmult Hij. split; [apply calculateDelay_capped|].
  unfold calculateDelay. cbn zeta.
  assert (Hpow : backoffMultiplier config ^ i <= backoffMultiplier config ^ j)
    by (apply Z.pow_le_mono_r; lia).
  assert (Hpos : 0 <= backoffMultiplier config ^ i)
    by (apply Z.pow_nonneg; lia).
  split; [|nia]. apply Z.min_le_compat_r. nia.
Qed.

(** The default delays grow from the second attempt to the fourth. *)
Lemma calculateDelay_capped_monotone_witness :
  0 <= retryDelayBase DEFAULT_HTTP_CONFIG
  /\ 1 <= backoffMultiplier DEFAULT_HTTP_CONFIG
  /\ 0 <= 1 <= 3
  /\ calculateDelay DEFAULT_HTTP_CONFIG 1
     <= calculateDelay DEFAULT_HTTP_CONFIG 3.
Proof.
  split; [cbn; lia|]. split; [cbn; lia|]. split; [lia|].
  apply (calculateDelay_capped_monotone DEFAULT_HTTP_CONFIG 1 3); cbn; lia.
Defined.

Lemma asleep_loopEvents req delay k attempt :
  asleep (loopEvents req delay attempt k)
  = sum (List.map (fun i => Z.max 0 (delay (attempt + Z.of_nat i)))
           (seq 0 (k - 1))).
Proof. unfold asleep. now rewrite sleepsOf_loopEvents, map_map. Qed.

Lemma sum_nonneg (l : list Z) : Forall (fun x => 0 <= x) l -> 0 <= sum l.
Proof.
  induction 1 as [|x l Hx Hl IH]; [cbn; lia|].
  cbn [sum fold_right]. fold (sum l). lia.
Qed.

(** The clock after the loop: it advanced by the time of the fetches and
    of the sleeps the loop made. *)
Lemma requestLoop_clock config net options authHeaders timeout maxAttempts :
  forall fuel attempt lastError w,
    exists d,
      trace (snd (requestLoop config net options authHeaders timeout
                    maxAttempts fuel attempt lastError w))
      = trace w ++ d
      /\ now (snd (requestLoop config net options authHeaders timeout
                     maxAttempts fuel attempt lastError w))
         = now w + onNetwork net (fetch_count (trace w)) d + asleep d.
Proof.
  induction fuel as [|fuel IH]; intros attempt lastError w.
  - exists []. cbn. rewrite app_nil_r. split; [reflexivity|].
    unfold asleep. cbn. lia.
  - cbn [requestLoop].
    destruct (lessThan attempt maxAttempts);
      [|exists []; cbn; rewrite app_nil_r; split; [reflexivity|];
        unfold asleep; cbn; lia].
    unfold executeRequest. cbn zeta.
    set (req := fetchReq config options authHeaders timeout).
    set (n := fetch_count (trace w)).
    set (w1 := {| now := now w + elapsed (net n req);
                  trace := trace w ++ [EvFetch req] |}).
    assert (Hone : exists d,
               trace w1 = trace w ++ d
               /\ now w1 = now w + onNetwork net n d + asleep d).
    { exists [EvFetch req]. split; [reflexivity|].
      unfold asleep. cbn. lia. }
    destruct (attemptResult config net options authHeaders timeout n)
      as [data|e]; [exact Hone|].
    destruct (isRetryable (code e)); cbn [negb]; [|exact Hone].
    clear Hone.
    set (w2 := if lessThan attempt (minusOne maxAttempts)
               then sleep (calculateDelay config attempt) w1 else w1).
    assert (Hw2 : exists d,
               trace w2 = trace w ++ EvFetch req :: d
               /\ fetch_count d = 0%nat
               /\ onNetwork net (S n) d = 0
               /\ now w2 = now w + elapsed (net n req) + asleep d
               /\ forall d', onNetwork net (S n) (d ++ d')
                             = onNetwork net (S n) d'
                   /\ asleep (d ++ d') = asleep d + asleep d').
    { unfold w2. destruct (lessThan attempt (minusOne maxAttempts)).
      - exists [EvSleep (calculateDelay config attempt)].
        unfold sleep, asleep, sum. cbn. rewrite <- app_assoc.
        repeat split; try reflexivity; lia.
      - exists []. unfold asleep, sum. cbn.
        repeat split; try reflexivity; lia. }
    destruct Hw2 as (d1 & Ht2 & Hc2 & Hn2 & Hnow2 & Hsplit).
    destruct (IH (attempt + 1) (Some e) w2) as (d2 & Ht & Hnow).
    exists (EvFetch req :: d1 ++ d2). split.
    + rewrite Ht, Ht2, <- app_assoc. reflexivity.
    + rewrite Hnow, Hnow2.
      assert (Hcount : fetch_count (trace w2) = S n).
      { rewrite Ht2, fetch_count_app.
        change (fetch_count (EvFetch req :: d1)) with (S (fetch_count d1)).
        rewrite Hc2. unfold n. lia. }
      rewrite Hcount. destruct (Hsplit d2) as [Hnet Hsleep].
      cbn [onNetwork]. rewrite Hnet.
      change (asleep (EvFetch req :: d1 ++ d2)) with (asleep (d1 ++ d2)).
      rewrite Hsleep. lia.
Qed.

Lemma request_clock config net options authHeaders w :
  let d := since w (snd (Http.request config net options authHeaders w)) in
  now (snd (Http.request config net options authHeaders w))
  = now w + onNetwork net (fetch_count (trace w)) d + asleep d.
Proof.
  cbn zeta. unfold Http.request.
  set (w0 := enter (CallHttpRequest options authHeaders) w).
  assert (Hn0 : fetch_count (trace w0) = fetch_count (trace w))
    by apply fetch_count_snoc_call.
  destruct (negb (Str.truthy (baseUrl config))).
  - cbn [snd]. unfold w0. rewrite since_enter.
    unfold asleep. cbn. lia.
  - destruct (requestLoop_clock config net options authHeaders
                (timeoutOf config options) (maxAttemptsOf config options)
                (iterations (maxAttemptsOf config options)) 0 None w0)
      as (d & Ht & Hnow).
    rewrite Hnow, Hn0.
    assert (Hs : since w (snd (requestLoop config net options authHeaders
                                 (timeoutOf config options)
                                 (maxAttemptsOf config options)
                                 (iterations (maxAttemptsOf config options))
                                 0 None w0))
                 = EvCall (CallHttpRequest options authHeaders) :: d).
    { apply since_app. rewrite Ht. unfold w0, enter, emit. cbn [trace].
      now rewrite <- app_assoc. }
    rewrite Hs. reflexivity.
Qed.

(** X13. The time one call of [request] takes is the time its fetches take
    and the time it is asleep, a sleep with a negative delay lasting no
    time; when [maxRetries] is a number that is not negative and
    [retryDelayMax] is not negative, the call is asleep for at most
    [maxRetries * retryDelayMax]. *)
Theorem request_total_sleep_bounded config net options authHeaders w retries :
  maxRetries config = Some retries ->
  0 <= retries ->
  0 <= retryDelayMax config ->
  let after := snd (Http.request config net options authHeaders w) in
  now after
  = now w + onNetwork net (fetch_count (trace w)) (since w after)
    + asleep (since w after)
  /\ 0 <= asleep (since w after) <= retries * retryDelayMax config.
Proof.
  intros Hsome Hretries Hmax. cbn zeta.
  split; [apply request_clock|].
  destruct (request_since config net options authHeaders w) as (k & Hs & Hk).
  rewrite Hs.
  change (asleep (EvCall ?c :: ?l)) with (asleep l).
  rewrite asleep_loopEvents.
  set (delays := List.map _ _).
  assert (Hall : Forall (fun x => 0 <= x <= retryDelayMax config) delays).
  { apply Forall_forall. intros x Hx. apply in_map_iff in Hx.
    destruct Hx as (i & <- & _).
    pose proof (calculateDelay_capped config (0 + Z.of_nat i)). lia. }
  assert (Hlow : 0 <= sum delays).
  { apply sum_nonneg. eapply Forall_impl; [|exact Hall]. cbn. lia. }
  assert (Hhigh : sum delays
                  <= Z.of_nat (List.length delays) * retryDelayMax config).
  { apply sum_le_bound. eapply Forall_impl; [|exact Hall]. cbn. lia. }
  unfold delays in Hhigh at 2. rewrite length_map, length_seq in Hhigh.
  assert (Hk' : Z.of_nat (k - 1) <= retries).
  { destruct (Str.truthy (baseUrl config)) eqn:Hbase.
    - rewrite <- Hk, attempts_request by exact Hbase.
      pose proof (attemptsMade_le
                    (attemptResult config net options authHeaders
                       (timeoutOf config options))
                    (iterations (maxAttemptsOf config options))
                    (fetch_count (trace w))) as Hle.
      unfold maxAttemptsOf in *. rewrite Hsome in *.
      destruct (noRetry options); cbn [iterations] in *; lia.
    - rewrite (request_unconfigured config net _ _ w Hbase) in Hk.
      cbn [snd] in Hk. unfold attempts in Hk. rewrite since_enter in Hk.
      cbn in Hk. subst k. cbn. lia. }
  split; [exact Hlow|nia].
Qed.

(** A server that always answers 500, each time after 20 ms: the call
    sleeps 1000, 2000 and 4000 ms, less than three times the cap, and ends
    7080 ms after it began. *)
Lemma request_total_sleep_bounded_witness :
  maxRetries Scenario.piholeConfig = Some 3
  /\ 0 <= retryDelayMax Scenario.piholeConfig
  /\ sleepsOf
       (since Scenario.start
          (snd (Http.request Scenario.piholeConfig Scenario.alwaysFailing
                  Scenario.getSummary None Scenario.start)))
     = [1000; 2000; 4000]
  /\ now (snd (Http.request Scenario.piholeConfig Scenario.alwaysFailing
                 Scenario.getSummary None Scenario.start))
     = now Scenario.start + 80 + 7000
  /\ asleep
       (since Scenario.start
          (snd (Http.request Scenario.piholeConfig Scenario.alwaysFailing
                  Scenario.getSummary None Scenario.start)))
     <= 3 * retryDelayMax Scenario.piholeConfig.
Proof.
  split; [reflexivity|]. split; [cbn; lia|]. split; [reflexivity|].
  split; [reflexivity|].
  apply (request_total_sleep_bounded Scenario.piholeConfig
           Scenario.alwaysFailing Scenario.getSummary None Scenario.start 3);
    [reflexivity|lia|cbn; lia].
Defined.

Lemma request_provenance config net options authHeaders w :
  let rw := Http.request config net options authHeaders w in
  let req := fetchReq config options authHeaders (timeoutOf config options) in
  (forall e,
     fst rw = err e -> status e <> 0 ->
     exists n response,
       (fetch_count (trace w) <= n < fetch_count (trace w)
                                    + attempts w (snd rw))%nat
       /\ Http.outcome (net n req) = Resolves response
       /\ r_status response = status e)
  /\ (forall d,
        fst rw = ok d ->
        exists n response,
          (fetch_count (trace w) <= n < fetch_count (trace w)
                                       + attempts w (snd rw))%nat
          /\ Http.outcome (net n req) = Resolves response
          /\ response_ok response = true).
Proof.
  cbn zeta. destruct (Str.truthy (baseUrl config)) eqn:Hbase.
  - destruct (request_spec config net options authHeaders w Hbase) as [_ Hr].
    rewrite (attempts_request config net options authHeaders w Hbase).
    rewrite Hr. clear Hr.
    destruct (attemptsMade _ _ _) as [|k']; [split; intros; [|discriminate]|].
    + injection H as <-. now contradiction H0.
    + unfold attemptResult.
      destruct (Http.outcome (net _ _)) as [t|response] eqn:Hout.
      * split; intros; [|discriminate]. injection H as <-.
        now rewrite handleFetchError_status in H0.
      * split; intros.
        -- exists (fetch_count (trace w) + k')%nat, response.
           split; [lia|]. split; [exact Hout|].
           symmetry. now apply handleResponse_cases.
        -- exists (fetch_count (trace w) + k')%nat, response.
           split; [lia|]. split; [exact Hout|].
           pose proof (handleResponse_cases response) as (Hok & _).
           rewrite H in Hok. cbn in Hok. symmetry in Hok.
           now apply andb_prop in Hok.
  - rewrite (request_unconfigured config net options authHeaders w Hbase).
    cbn [fst snd]. split; intros; [|discriminate].
    injection H as <-. now contradiction H0.
Qed.

(** X14. A result of [request] with an HTTP status comes from a response:
    a failure whose status is not 0 has the status of a response that one of
    the attempts of the call received, and a success comes from a response
    whose status is 2xx. Failures made by the client itself (no base URL, a
    thrown fetch) have the status 0. *)
Theorem request_status_provenance config net options authHeaders w :
  let rw := Http.request config net options authHeaders w in
  let req := fetchReq config options authHeaders (timeoutOf config options) in
  (forall e,
     fst rw = err e -> status e <> 0 ->
     exists n response,
       (fetch_count (trace w) <= n < fetch_count (trace w)
                                    + attempts w (snd rw))%nat
       /\ Http.outcome (net n req) = Resolves response
       /\ r_status response = status e)
  /\ (forall d,
        fst rw = ok d ->
        exists n response,
          (fetch_count (trace w) <= n < fetch_count (trace w)
                                       + attempts w (snd rw))%nat
          /\ Http.outcome (net n req) = Resolves response
          /\ response_ok response = true).
Proof. exact (request_provenance config net options authHeaders w). Qed.

(** ** session.ts *)


Lemma session_window_cases sm t1 t2 :
  t1 <= t2 ->
  hasSession sm t1 = negb (isExpired sm t1)
  /\ (hasSession sm t1 = false -> hasSession sm t2 = false)
  /\ (needsRefresh sm t1 = true -> needsRefresh sm t2 = true)
  /\ (usable sm t1 = false -> usable sm t2 = false).
Proof.
  intros Ht. unfold usable, hasSession, needsRefresh, isExpired.
  destruct (state sm) as [s|]; [|repeat split; intros; try reflexivity; assumption].
  destruct (negb (autoRefresh (config sm)));
    destruct (Z.geb_spec t1 (expiresAt s)), (Z.geb_spec t2 (expiresAt s)),
      (Z.geb_spec t1 (expiresAt s - refreshThreshold (config sm) * 1000)),
      (Z.geb_spec t2 (expiresAt s - refreshThreshold (config sm) * 1000));
    cbn; repeat split; intros; try reflexivity; try discriminate; lia.
Qed.

(** X15. A session is usable during one stretch of time only: once
    [hasSession] fails it fails at every later instant, once [needsRefresh]
    holds it holds at every later instant, so the instants at which
    [ensureSession] returns at once end for good; and [hasSession] is the
    negation of [isExpired]. *)
Theorem session_window sm t1 t2 :
  t1 <= t2 ->
  hasSession sm t1 = negb (isExpired sm t1)
  /\ (hasSession sm t1 = false -> hasSession sm t2 = false)
  /\ (needsRefresh sm t1 = true -> needsRefresh sm t2 = true)
  /\ (usable sm t1 = false -> usable sm t2 = false).
Proof. exact (session_window_cases sm t1 t2). Qed.

(** A session of five minutes with a threshold of 60 s: due for a refresh
    after four minutes, and still so a minute later. *)
Lemma session_window_witness :
  now Scenario.start + 240000 <= now Scenario.start + 300000
  /\ needsRefresh Scenario.liveManager (now Scenario.start + 240000) = true
  /\ needsRefresh Scenario.liveManager (now Scenario.start + 300000) = true.
Proof.
  split; [cbn; lia|]. split; [reflexivity|].
  apply (session_window Scenario.liveManager (now Scenario.start + 240000)
           (now Scenario.start + 300000)); [cbn; lia|reflexivity].
Defined.

Lemma authenticate_attempts http net totp sm w :
  attempts w (snd (authenticate http net totp sm w))
  = if Str.truthy_opt (password sm) && Str.truthy (baseUrl http)
    then 1%nat else 0%nat.
Proof.
  unfold authenticate.
  assert (He0 : extends w (enter CallAuthenticate w)) by apply extends_enter.
  assert (Hquiet : attempts w (enter CallAuthenticate w) = 0%nat).
  { unfold attempts. now rewrite since_enter. }
  destruct (password sm) as [pw|]; cbn [Str.truthy_opt andb];
    [|cbn [snd]; exact Hquiet].
  destruct (Str.truthy pw); cbn [negb andb]; [|cbn [snd]; exact Hquiet].
  pose proof (request_events http net (loginOptions pw totp) None
                (enter CallAuthenticate w)) as (He1 & _ & _).
  pose proof (attempts_login http net pw totp (enter CallAuthenticate w))
    as Hlogin.
  destruct (Http.request http net (loginOptions pw totp) None
              (enter CallAuthenticate w)) as [result w1].
  destruct (authenticateSettle result (now w1) sm) as [c sm1].
  cbn [snd] in *. unfold attempts in *.
  rewrite (since_trans w _ w1 He0 He1), fetch_count_app, Hquiet.
  exact Hlogin.
Qed.

Lemma ensureSession_cost_cases http net sm w :
  attempts w (snd (ensureSession http net sm w))
  = (if usable sm (now w) then 0
     else match refreshPromise sm with
          | Some _ => 0
          | None =>
              if Str.truthy_opt (password sm) && Str.truthy (baseUrl http)
              then 1 else 0
          end)%nat
  /\ (usable sm (now w) = true ->
      fst (ensureSession http net sm w) = (Returned true, sm)).
Proof.
  unfold ensureSession.
  set (w0 := enter CallEnsureSession w).
  assert (He0 : extends w w0) by apply extends_enter.
  assert (Hquiet : attempts w w0 = 0%nat).
  { unfold attempts, w0. now rewrite since_enter. }
  change (now w0) with (now w). fold (usable sm (now w)).
  destruct (usable sm (now w)); [split; [exact Hquiet|reflexivity]|].
  split; [|discriminate].
  destruct (refreshPromise sm); [exact Hquiet|].
  pose proof (authenticate_attempts http net None sm w0) as Hatt.
  pose proof (authenticate_events http net None sm w0) as (He1 & _ & _).
  destruct (authenticate http net None sm w0) as [[c sm1] w1].
  cbn [snd] in *.
  assert (Hgoal : attempts w w1
                  = if Str.truthy_opt (password sm) && Str.truthy (baseUrl http)
                    then 1%nat else 0%nat).
  { unfold attempts in *.
    rewrite (since_trans w w0 w1 He0 He1), fetch_count_app, Hquiet. exact Hatt. }
  destruct c; exact Hgoal.
Qed.

(** X16. What [ensureSession] costs: no fetch when the session is usable or
    when a rejected refresh is left over; otherwise exactly one fetch, the
    login, when a password and a base URL are configured, and none without
    them. When the session is usable the call returns [true] and leaves the
    manager as it is. *)
Theorem ensureSession_cost http net sm w :
  attempts w (snd (ensureSession http net sm w))
  = (if usable sm (now w) then 0
     else match refreshPromise sm with
          | Some _ => 0
          | None =>
              if Str.truthy_opt (password sm) && Str.truthy (baseUrl http)
              then 1 else 0
          end)%nat
  /\ (usable sm (now w) = true ->
      fst (ensureSession http net sm w) = (Returned true, sm)).
Proof. exact (ensureSession_cost_cases http net sm w). Qed.

(** X17. A login that succeeds: [authenticate] returns [true] only with a
    password that is not empty and a reply to its login fetch whose JSON body
    carries a session; then the auth headers are the identifier and the
    token of that reply; at that instant the session is valid exactly when
    the validity of the reply is positive, and due for a refresh exactly when
    auto-refresh is on and the validity is at most the refresh threshold. *)
Theorem authenticate_installs_session http net totp sm w :
  fst (fst (authenticate http net totp sm w)) = Returned true ->
  let sm' := snd (fst (authenticate http net totp sm w)) in
  let t := now (snd (authenticate http net totp sm w)) in
  exists pw response p session,
    password sm = Some pw
    /\ Str.truthy pw = true
    /\ Http.outcome
         (net (fetch_count (trace w))
            (fetchReq http (loginOptions pw totp) None
               (timeoutOf http (loginOptions pw totp))))
       = Resolves response
    /\ r_body response = Json p
    /\ p_session p = Some session
    /\ getAuthHeaders sm'
       = Some [("X-FTL-SID"%string, Auth.sid session);
               ("X-FTL-CSRF"%string, Auth.csrf session)]
    /\ hasSession sm' t = (0 <? Auth.validity session)
    /\ needsRefresh sm' t
       = autoRefresh (config sm)
         && (Auth.validity session <=? refreshThreshold (config sm))
    /\ isTotpRequired sm' = false.
Proof.
  intros Hok. cbn zeta.
  destruct (authenticate_success http net totp sm w Hok)
    as (pw & response & p & session & Hpw & Hout & Hbody & Hsession & Hst).
  assert (Hcfg : config (snd (fst (authenticate http net totp sm w)))
                 = config sm
                 /\ Str.truthy pw = true).
  { clear Hst. unfold authenticate in *. rewrite Hpw in *.
    destruct (Str.truthy pw) eqn:Htruthy; cbn [negb] in *; [|discriminate].
    destruct (Http.request http net (loginOptions pw totp) None
                (enter CallAuthenticate w)) as [result w1].
    unfold authenticateSettle in *.
    destruct result as [[|p']|e]; [discriminate| |discriminate].
    destruct (p_session p'); [|discriminate]. cbn. now split. }
  destruct Hcfg as [Hcfg Htruthy].
  exists pw, response, p, session.
  split; [exact Hpw|]. split; [exact Htruthy|]. split; [exact Hout|].
  split; [exact Hbody|]. split; [exact Hsession|].
  unfold getAuthHeaders, hasSession, isExpired, needsRefresh, isTotpRequired.
  rewrite Hst, Hcfg. cbn [sid csrf expiresAt totpRequired].
  set (t := now (snd (authenticate http net totp sm w))).
  split; [reflexivity|]. split; [|split; [|reflexivity]].
  - destruct (Z.geb_spec t (t + Auth.validity session * 1000)),
      (Z.ltb_spec 0 (Auth.validity session)); cbn; try reflexivity; lia.
  - destruct (autoRefresh (config sm)); cbn [negb andb]; [|reflexivity].
    destruct (Z.geb_spec t (t + Auth.validity session * 1000
                            - refreshThreshold (config sm) * 1000)),
      (Z.leb_spec (Auth.validity session) (refreshThreshold (config sm)));
      try reflexivity; lia.
Qed.

(** A login that the server accepts with the session "s1", "c1". *)
Lemma authenticate_installs_session_witness :
  fst (fst (authenticate Scenario.piholeConfig Scenario.loggedIn None
              Scenario.freshManager Scenario.start))
  = Returned true
  /\ exists pw response p session,
       password Scenario.freshManager = Some pw
       /\ Http.outcome
            (Scenario.loggedIn (fetch_count (trace Scenario.start))
               (fetchReq Scenario.piholeConfig (loginOptions pw None) None
                  (timeoutOf Scenario.piholeConfig (loginOptions pw None))))
          = Resolves response
       /\ r_body response = Json p
       /\ p_session p = Some session
       /\ getAuthHeaders
            (snd (fst (authenticate Scenario.piholeConfig Scenario.loggedIn
                         None Scenario.freshManager Scenario.start)))
          = Some [("X-FTL-SID"%string, Auth.sid session);
                  ("X-FTL-CSRF"%string, Auth.csrf session)].
Proof.
  split; [reflexivity|].
  destruct (authenticate_installs_session Scenario.piholeConfig
              Scenario.loggedIn None Scenario.freshManager Scenario.start
              eq_refl)
    as (pw & response & p & session & Hpw & _ & Hout & Hbody & Hsession
        & Hheaders & _).
  now exists pw, response, p, session.
Defined.

Lemma authenticate_threw http net totp sm w :
  fst (fst (authenticate http net totp sm w)) = Threw ->
  snd (fst (authenticate http net totp sm w)) = sm.
Proof.
  unfold authenticate.
  destruct (password sm) as [pw|]; [|discriminate].
  destruct (Str.truthy pw); cbn [negb]; [|discriminate].
  destruct (Http.request http net (loginOptions pw totp) None
              (enter CallAuthenticate w)) as [result w1].
  unfold authenticateSettle.
  destruct result as [[|p]|e]; [reflexivity| |discriminate].
  destruct (p_session p); [discriminate|reflexivity].
Qed.

(** X18. A rejection of [ensureSession] sticks: when a call throws, the
    manager keeps its session and holds the rejected promise, and from then
    on every call made while the session is not usable throws at once,
    without any HTTP call and without changing the manager. [setPassword]
    does not lift this, and [logout] lifts it only when there is a session
    to log out from: without one it returns before it clears anything. *)
Theorem ensureSession_rejection_sticks http net sm w :
  fst (fst (ensureSession http net sm w)) = Threw ->
  let sm' := snd (fst (ensureSession http net sm w)) in
  refreshPromise sm' = Some Threw
  /\ state sm' = state sm
  /\ (forall w' pw,
        now w <= now w' ->
        ensureSession http net sm' w'
        = (Threw, sm', enter CallEnsureSession w')
        /\ ensureSession http net (setPassword pw sm') w'
           = (Threw, setPassword pw sm', enter CallEnsureSession w'))
  /\ (forall w',
        refreshPromise (snd (fst (logout http net sm' w')))
        = match state sm with Some _ => None | None => Some Threw end).
Proof.
  intros Hthrew. cbn zeta.
  assert (Hsm : usable sm (now w) = false
                /\ refreshPromise
                     (snd (fst (ensureSession http net sm w))) = Some Threw
                /\ state (snd (fst (ensureSession http net sm w))) = state sm
                /\ config (snd (fst (ensureSession http net sm w)))
                   = config sm).
  { unfold ensureSession in *. change (now (enter _ w)) with (now w) in *.
    fold (usable sm (now w)) in *.
    destruct (usable sm (now w)); [discriminate|].
    destruct (refreshPromise sm) as [c|] eqn:Hp.
    - cbn [fst snd] in *. subst c. now repeat split.
    - pose proof (authenticate_threw http net None sm
                    (enter CallEnsureSession w)) as Hsame.
      destruct (authenticate http net None sm (enter CallEnsureSession w))
        as [[c sm1] w1].
      destruct c as [b|]; [discriminate|].
      cbn [fst snd] in *. rewrite (Hsame eq_refl). now repeat split. }
  destruct Hsm as (Hunusable & Hpromise & Hstate & Hconfig).
  set (sm' := snd (fst (ensureSession http net sm w))) in *.
  split; [exact Hpromise|]. split; [exact Hstate|]. split.
  - intros w' pw Hlater.
    assert (Hlate : usable sm (now w') = false)
      by now apply (session_window_cases sm (now w) (now w') Hlater).
    assert (Hsame : forall m,
               state m = state sm -> config m = config sm ->
               usable m (now w') = false).
    { intros m Hs Hc. rewrite <- Hlate.
      unfold usable, hasSession, needsRefresh, isExpired.
      now rewrite Hs, Hc. }
    split; unfold ensureSession; change (now (enter _ w')) with (now w').
    + fold (usable sm' (now w')). rewrite (Hsame sm' Hstate Hconfig).
      now rewrite Hpromise.
    + fold (usable (setPassword pw sm') (now w')).
      rewrite (Hsame (setPassword pw sm') Hstate Hconfig).
      cbn [setPassword refreshPromise]. now rewrite Hpromise.
  - intros w'. unfold logout. rewrite <- Hstate.
    destruct (state sm') as [s|] eqn:Hs'; [|exact Hpromise].
    destruct (Http.request http net logoutOptions (getAuthHeaders sm')
                (enter CallLogout w')) as [result w1].
    destruct result as [d|e]; [reflexivity|].
    now destruct (status e =? 401).
Qed.

(** A server that answers the login with 204: [ensureSession] throws, and
    the rejected promise stays. *)
Lemma ensureSession_rejection_sticks_witness :
  fst (fst (ensureSession Scenario.piholeConfig Scenario.noContent
              Scenario.freshManager Scenario.start))
  = Threw
  /\ refreshPromise
       (snd (fst (ensureSession Scenario.piholeConfig Scenario.noContent
                    Scenario.freshManager Scenario.start)))
     = Some Threw.
Proof.
  split; [reflexivity|].
  apply (ensureSession_rejection_sticks Scenario.piholeConfig
           Scenario.noContent Scenario.freshManager Scenario.start).
  reflexivity.
Defined.

Lemma runOp_frame http net op sm w :
  (refreshPromise sm = None \/ refreshPromise sm = Some Threw) ->
  let sm' := fst (runOp http net op sm w) in
  config sm' = config sm
  /\ password sm' = passwordAfter [op] (password sm)
  /\ (refreshPromise sm' = None \/ refreshPromise sm' = Some Threw)
  /\ extends w (snd (runOp http net op sm w)).
Proof.
  intros Hp. cbn zeta.
  assert (Hauth : forall totp m v,
             config (snd (fst (authenticate http net totp m v))) = config m
             /\ password (snd (fst (authenticate http net totp m v)))
                = password m
             /\ refreshPromise (snd (fst (authenticate http net totp m v)))
                = refreshPromise m
             /\ extends v (snd (authenticate http net totp m v))).
  { intros totp m v.
    pose proof (authenticate_events http net totp m v) as (He & _).
    split; [|split; [|split; [|exact He]]]; clear He;
      destruct m as [cf st [pw|] rp]; unfold authenticate;
      cbn [password]; try reflexivity;
      (destruct (Str.truthy pw); cbn [negb]; [|reflexivity]);
      destruct (Http.request http net (loginOptions pw totp) None
                  (enter CallAuthenticate v)) as [result w1];
      unfold authenticateSettle;
      destruct result as [[|p]|e]; try reflexivity;
      try (destruct (p_session p); reflexivity);
      destruct (code_eqb (code e) TotpRequired); reflexivity. }
  destruct op; cbn [runOp fst snd passwordAfter];
    try (repeat split; try exact Hp; apply extends_refl).
  - (* clear *)
    repeat split; [now left|apply extends_refl].
  - (* ensureSession *)
    pose proof (ensureSession_events http net sm w) as (He & _).
    destruct (ensureSession http net sm w) as [[c sm'] w'] eqn:Hens.
    cbn [fst snd] in *. split; [|split; [|split; [|exact He]]];
      unfold ensureSession in Hens;
      (destruct (hasSession _ _ && negb (needsRefresh _ _));
       [injection Hens as <- <- <-; solve [reflexivity|exact Hp]|]);
      (destruct (refreshPromise sm) eqn:Hrp;
       [injection Hens as <- <- <-; rewrite ?Hrp;
        solve [reflexivity|exact Hp]|]);
      destruct (Hauth None sm (enter CallEnsureSession w))
        as (Hc & Hpw & Hr & _);
      destruct (authenticate http net None sm (enter CallEnsureSession w))
        as [[c1 sm1] w1];
      cbn [fst snd] in *;
      destruct c1; injection Hens as <- <- <-; cbn;
      solve [assumption|now left|now right].
  - (* authenticate *)
    destruct (Hauth totp sm w) as (Hc & Hpw & Hr & He).
    destruct (authenticate http net totp sm w) as [[c sm'] w'].
    cbn [fst snd] in *. rewrite Hr. now repeat split.
  - (* logout *)
    unfold logout.
    destruct (state sm);
      [|cbn [fst snd]; repeat split; [exact Hp|apply extends_enter]].
    pose proof (request_events http net logoutOptions (getAuthHeaders sm)
                  (enter CallLogout w)) as (He & _).
    assert (He' : extends w
                    (snd (Http.request http net logoutOptions
                            (getAuthHeaders sm) (enter CallLogout w))))
      by (eapply extends_trans; [apply extends_enter|exact He]).
    destruct (Http.request http net logoutOptions (getAuthHeaders sm)
                (enter CallLogout w)) as [result w1].
    destruct result as [d|e]; [|destruct (status e =? 401)];
      cbn [fst snd clear config password refreshPromise];
      repeat split; solve [now left|exact He'].
  - (* handleUnauthorized *)
    unfold handleUnauthorized.
    destruct (Hauth None (set_state None sm)
                (enter CallHandleUnauthorized w)) as (Hc & Hpw & Hr & He).
    destruct (authenticate http net None (set_state None sm)
                (enter CallHandleUnauthorized w)) as [[c sm'] w'].
    cbn [fst snd] in *. rewrite Hr. cbn [set_state refreshPromise].
    repeat split; try assumption.
    eapply extends_trans; [apply extends_enter|exact He].
Qed.

Lemma passwordAfter_app ops1 :
  forall ops2 pw,
    passwordAfter (ops1 ++ ops2) pw
    = passwordAfter ops2 (passwordAfter ops1 pw).
Proof.
  induction ops1 as [|op ops1 IH]; intros ops2 pw; [reflexivity|].
  destruct op; cbn [app passwordAfter]; apply IH.
Qed.

(** X19. What no operation of a [SessionManager] touches: after any sequence
    of operations on a manager made by the constructor, the configuration is
    the one given to the constructor; the password is the one of the last
    [setPassword], or the constructor's when there was none, so neither
    [logout] nor [clear] nor a failed login forgets it; the refresh promise
    is absent or rejected; and the trace has only grown. *)
Theorem manager_frame http net cfg now0 ops w :
  let sm := fst (runOps http net ops (Session.constructor cfg now0) w) in
  config sm = cfg
  /\ password sm = passwordAfter ops (password (Session.constructor cfg now0))
  /\ (refreshPromise sm = None \/ refreshPromise sm = Some Threw)
  /\ extends w (snd (runOps http net ops (Session.constructor cfg now0) w)).
Proof.
  cbn zeta.
  assert (Hgen : forall ops sm w,
             (refreshPromise sm = None \/ refreshPromise sm = Some Threw) ->
             config (fst (runOps http net ops sm w)) = config sm
             /\ password (fst (runOps http net ops sm w))
                = passwordAfter ops (password sm)
             /\ (refreshPromise (fst (runOps http net ops sm w)) = None
                 \/ refreshPromise (fst (runOps http net ops sm w))
                    = Some Threw)
             /\ extends w (snd (runOps http net ops sm w))).
  { clear. induction ops as [|op ops IH]; intros sm w Hp.
    - cbn. repeat split; [exact Hp|apply extends_refl].
    - cbn [runOps].
      pose proof (runOp_frame http net op sm w Hp) as (Hc & Hpw & Hr & He).
      destruct (runOp http net op sm w) as [sm' w']. cbn [fst snd] in *.
      destruct (IH sm' w' Hr) as (Hc' & Hpw' & Hr' & He').
      rewrite Hc', Hpw', Hc, Hpw.
      change (op :: ops) with ([op] ++ ops). rewrite passwordAfter_app.
      repeat split; [exact Hr'|eapply extends_trans; eassumption]. }
  apply (Hgen ops (Session.constructor cfg now0) w). now left.
Qed.

Lemma truthy_nonempty s : Str.truthy s = true <-> s <> EmptyString.
Proof. destruct s; cbn; split; intros; congruence. Qed.

(** X20. The session a manager is built with: the constructor installs a
    session only when both an identifier and a token are given and neither
    is empty; that session counts as valid for the 300000 ms after the
    construction and as usable, with auto-refresh, only until
    [refreshThreshold] seconds before that; an empty password is dropped. *)
Theorem constructor_seeded_session cfg now0 t :
  let sm := Session.constructor cfg now0 in
  let seeded :=
    exists s c, cfg_sid cfg = Some s /\ cfg_csrf cfg = Some c
                /\ s <> EmptyString /\ c <> EmptyString in
  (getAuthHeaders sm <> None <-> seeded)
  /\ (hasSession sm t = true <-> seeded /\ t < now0 + 300000)
  /\ (usable sm t = true <->
      seeded /\ t < now0 + 300000
      /\ (autoRefresh cfg = true ->
          t < now0 + 300000 - refreshThreshold cfg * 1000))
  /\ (forall pw, password sm = Some pw <->
                 cfg_password cfg = Some pw /\ pw <> EmptyString)
  /\ isTotpRequired sm = false.
Proof.
  cbn zeta.
  unfold usable, hasSession, needsRefresh, isExpired, getAuthHeaders,
    isTotpRequired, Session.constructor.
  cbn [state config password].
  split; [|split; [|split; [|split]]].
  - destruct (cfg_sid cfg) as [s|], (cfg_csrf cfg) as [c|];
      try (split; [congruence|intros (s' & c' & H1 & H2 & _); congruence]).
    destruct (Str.truthy s) eqn:Hs, (Str.truthy c) eqn:Hc; cbn [andb];
      try (split; [congruence|];
           intros (s' & c' & [= <-] & [= <-] & Hs' & Hc');
           apply truthy_nonempty in Hs', Hc'; congruence).
    split; [|discriminate]. intros _. exists s, c.
    repeat split; now apply truthy_nonempty.
  - destruct (cfg_sid cfg) as [s|], (cfg_csrf cfg) as [c|];
      try (split; [congruence|intros [(s' & c' & H1 & H2 & _) _]; congruence]).
    destruct (Str.truthy s) eqn:Hs, (Str.truthy c) eqn:Hc; cbn [andb];
      try (split; [congruence|];
           intros [(s' & c' & [= <-] & [= <-] & Hs' & Hc') _];
           apply truthy_nonempty in Hs', Hc'; congruence).
    cbn [expiresAt]. rewrite negb_true_iff, Z.geb_leb, Z.leb_gt.
    split.
    + intros Ht. split; [|exact Ht]. exists s, c.
      repeat split; now apply truthy_nonempty.
    + now intros [_ Ht].
  - destruct (cfg_sid cfg) as [s|], (cfg_csrf cfg) as [c|];
      try (split; [cbn; congruence
                  |intros [(s' & c' & H1 & H2 & _) _]; congruence]).
    destruct (Str.truthy s) eqn:Hs, (Str.truthy c) eqn:Hc; cbn [andb];
      try (split; [cbn; congruence|];
           intros [(s' & c' & [= <-] & [= <-] & Hs' & Hc') _];
           apply truthy_nonempty in Hs', Hc'; congruence).
    cbn [expiresAt].
    assert (Hseed : exists s' c', Some s = Some s' /\ Some c = Some c'
                                  /\ s' <> EmptyString /\ c' <> EmptyString).
    { exists s, c. repeat split; now apply truthy_nonempty. }
    destruct (autoRefresh cfg); cbn [negb];
      destruct (Z.geb_spec t (now0 + 300000));
      try destruct (Z.geb_spec t
                      (now0 + 300000 - refreshThreshold cfg * 1000));
      cbn; split; try discriminate; try tauto;
      try (intros (_ & H1 & H2); try specialize (H2 eq_refl); lia);
      intros _; repeat split; try assumption; try lia; discriminate.
  - intros pw. destruct (cfg_password cfg) as [p|]; cbn [Str.truthy_opt].
    + destruct (Str.truthy p) eqn:Hp.
      * split.
        -- intros [= <-]. split; [reflexivity|now apply truthy_nonempty].
        -- now intros [H _].
      * split; [discriminate|]. intros [[= <-] Hne].
        apply truthy_nonempty in Hne. congruence.
    + split; [discriminate|now intros [H _]].
  - destruct (cfg_sid cfg) as [s|], (cfg_csrf cfg) as [c|]; try reflexivity.
    now destruct (Str.truthy s && Str.truthy c).
Qed.

(** X21. [handleUnauthorized] gives up the old session before it logs in:
    when it returns [true] it ends with the session that the reply to its
    login fetch carries; when it returns [false], with no session or the
    two-factor state; when it throws, with no session; so unless it returns
    [true] no session is valid afterwards. Without a password it returns
    [false] with no session and no fetch. *)
Theorem handleUnauthorized_outcomes http net sm w :
  let r := handleUnauthorized http net sm w in
  let sm' := snd (fst r) in
  match fst (fst r) with
  | Returned true =>
      exists pw response p session,
        password sm = Some pw
        /\ Http.outcome
             (net (fetch_count (trace w))
                (fetchReq http (loginOptions pw None) None
                   (timeoutOf http (loginOptions pw None))))
           = Resolves response
        /\ r_body response = Json p
        /\ p_session p = Some session
        /\ state sm'
           = Some {| sid := Auth.sid session; csrf := Auth.csrf session;
                     expiresAt := now (snd r) + Auth.validity session * 1000;
                     totpRequired := false |}
  | Returned false => state sm' = None \/ state sm' = Some totpState
  | Threw => state sm' = None
  end
  /\ (fst (fst r) <> Returned true ->
      forall t, 0 <= t -> hasSession sm' t = false)
  /\ (Str.truthy_opt (password sm) = false ->
      fst (fst r) = Returned false /\ state sm' = None
      /\ attempts w (snd r) = 0%nat).
Proof.
  cbn zeta. unfold handleUnauthorized.
  set (w0 := enter CallHandleUnauthorized w).
  set (sm0 := set_state None sm).
  pose proof (authenticate_success http net None sm0 w0) as Hsucc.
  pose proof (authenticate_threw http net None sm0 w0) as Hthrew.
  pose proof (authenticate_attempts http net None sm0 w0) as Hatt.
  pose proof (authenticate_events http net None sm0 w0) as (He & _).
  assert (Hfalse : fst (fst (authenticate http net None sm0 w0))
                   = Returned false ->
                   state (snd (fst (authenticate http net None sm0 w0))) = None
                   \/ state (snd (fst (authenticate http net None sm0 w0)))
                      = Some totpState).
  { unfold authenticate.
    destruct (password sm0) as [pw|]; [|now left].
    destruct (Str.truthy pw); cbn [negb]; [|now left].
    destruct (Http.request http net (loginOptions pw None) None
                (enter CallAuthenticate w0)) as [result w1].
    unfold authenticateSettle.
    destruct result as [[|p]|e]; [discriminate| |].
    - destruct (p_session p); discriminate.
    - intros _. cbn [fst snd].
      destruct (code_eqb (code e) TotpRequired); [now right|now left]. }
  assert (Hnopw : Str.truthy_opt (password sm) = false ->
                  fst (authenticate http net None sm0 w0)
                  = (Returned false, sm0)).
  { unfold authenticate. change (password sm0) with (password sm).
    destruct (password sm) as [pw|]; [|reflexivity].
    cbn [Str.truthy_opt]. now intros ->. }
  destruct (authenticate http net None sm0 w0) as [[c sm'] w'].
  cbn [fst snd] in *.
  assert (Hmatch : match c with
                   | Returned true =>
                       exists pw response p session,
                         password sm = Some pw
                         /\ Http.outcome
                              (net (fetch_count (trace w))
                                 (fetchReq http (loginOptions pw None) None
                                    (timeoutOf http (loginOptions pw None))))
                            = Resolves response
                         /\ r_body response = Json p
                         /\ p_session p = Some session
                         /\ state sm'
                            = Some {| sid := Auth.sid session;
                                      csrf := Auth.csrf session;
                                      expiresAt :=
                                        now w' + Auth.validity session * 1000;
                                      totpRequired := false |}
                   | Returned false =>
                       state sm' = None \/ state sm' = Some totpState
                   | Threw => state sm' = None
                   end).
  { destruct c as [[|]|].
    - destruct (Hsucc eq_refl) as (pw & response & p & session & H).
      exists pw, response, p, session.
      replace (fetch_count (trace w)) with (fetch_count (trace w0))
        by apply fetch_count_snoc_call.
      exact H.
    - now apply Hfalse.
    - now rewrite (Hthrew eq_refl). }
  split; [exact Hmatch|]. split.
  - intros Hc t Ht. unfold hasSession, isExpired.
    destruct c as [[|]|]; [congruence| |now rewrite Hmatch].
    destruct Hmatch as [-> | ->]; [reflexivity|].
    cbn. apply negb_false_iff, Z.geb_le. lia.
  - intros Hpw. injection (Hnopw Hpw) as -> ->. repeat split.
    unfold attempts in *.
    rewrite (since_trans w w0 w' (extends_enter _ _) He), fetch_count_app.
    unfold w0 at 1. rewrite since_enter, Hatt.
    change (password sm0) with (password sm). now rewrite Hpw.
Qed.

(** ** client.ts *)

Import PiholeClient.

(** X22. [connect] reports the return value of [authenticate] and nothing
    else: it returns [ok] exactly when [authenticate] returns [true], makes
    at most one fetch, and every failure it returns has the status 401 and
    the code [TotpRequired] or [Unauthorized], according to the two-factor
    flag after the call. So the failure of the login call itself (a refused
    connection, a timeout, a 500) is not passed on, and a flag left by an
    earlier attempt makes any later failure read as [TotpRequired]. *)
Theorem connect_outcomes http net totp sm w :
  let auth := authenticate http net totp sm w in
  let r := connect http net totp sm w in
  snd (fst r) = snd (fst auth) /\ snd r = snd auth
  /\ (attempts w (snd r) <= 1)%nat
  /\ match fst (fst r) with
     | Returned (ok d) => d = Undefined /\ fst (fst auth) = Returned true
     | Returned (err e) =>
         fst (fst auth) = Returned false
         /\ e = createError
                  (if isTotpRequired (snd (fst r)) then TotpRequired
                   else Unauthorized)
                  (if isTotpRequired (snd (fst r)) then "TOTP code required"
                   else "Authentication failed")
                  401 None None
     | Threw => fst (fst auth) = Threw
     end
  /\ (forall pw e,
        password sm = Some pw -> Str.truthy pw = true ->
        fst (Http.request http net (loginOptions pw totp) None
               (enter CallAuthenticate w)) = err e ->
        exists e',
          fst (fst r) = Returned (err e') /\ status e' = 401
          /\ code e' = if code_eqb (code e) TotpRequired || isTotpRequired sm
                       then TotpRequired else Unauthorized)
  /\ (Str.truthy_opt (password sm) = false ->
      attempts w (snd r) = 0%nat
      /\ exists e',
           fst (fst r) = Returned (err e') /\ status e' = 401
           /\ code e' = if isTotpRequired sm then TotpRequired
                        else Unauthorized).
Proof.
  cbn zeta.
  pose proof (authenticate_attempts http net totp sm w) as Hatt.
  assert (Hfail : forall pw e,
             password sm = Some pw -> Str.truthy pw = true ->
             fst (Http.request http net (loginOptions pw totp) None
                    (enter CallAuthenticate w)) = err e ->
             fst (authenticate http net totp sm w)
             = (Returned false,
                if code_eqb (code e) TotpRequired
                then set_state (Some totpState) sm else sm)).
  { intros pw e Hpw Htruthy Hreq. unfold authenticate.
    rewrite Hpw, Htruthy. cbn [negb].
    destruct (Http.request http net (loginOptions pw totp) None
                (enter CallAuthenticate w)) as [result w1].
    cbn [fst] in Hreq. now subst result. }
  assert (Hnopw : Str.truthy_opt (password sm) = false ->
                  fst (authenticate http net totp sm w) = (Returned false, sm)).
  { unfold authenticate. destruct (password sm) as [pw|]; [|reflexivity].
    cbn [Str.truthy_opt]. now intros ->. }
  unfold connect.
  destruct (authenticate http net totp sm w) as [[c sm1] w1].
  cbn [fst snd] in *.
  split; [now destruct c as [[|]|]; [| destruct (isTotpRequired sm1)|]|].
  split; [now destruct c as [[|]|]; [| destruct (isTotpRequired sm1)|]|].
  split.
  { replace (snd (let '(success, sm2, w2) := (c, sm1, w1) in _)) with w1
      by (now destruct c as [[|]|]; [| destruct (isTotpRequired sm1)|]).
    rewrite Hatt. now destruct (_ && _); lia. }
  split.
  { destruct c as [[|]|]; cbn [fst snd]; [now split| |reflexivity].
    now destruct (isTotpRequired sm1) eqn:Ht; cbn [fst snd]; rewrite Ht. }
  split.
  - intros pw e Hpw Htruthy Hreq.
    injection (Hfail pw e Hpw Htruthy Hreq) as -> ->.
    destruct (code_eqb (code e) TotpRequired); cbn [orb].
    + cbn. eexists. repeat split.
    + destruct (isTotpRequired sm); eexists; repeat split.
  - intros Hpw. injection (Hnopw Hpw) as -> ->.
    rewrite Hpw in Hatt. cbn [andb] in Hatt. split.
    + now destruct (isTotpRequired sm).
    + destruct (isTotpRequired sm); eexists; repeat split.
Qed.

Lemma usable_absent sm t : state sm = None -> usable sm t = false.
Proof. intros Hs. unfold usable, hasSession. now rewrite Hs. Qed.

(** X23. [disconnect] ends the session locally whatever the server said:
    afterwards the client is not connected at any instant and has no auth
    headers, and a second [disconnect] is [ok] without any HTTP call. Its
    failure is always the code [Unknown] with status 0, so the failure of
    the logout call is not passed on. The password is kept: after the
    [disconnect] of a client that had a session, the next [ensureSession]
    logs in again, with one fetch when a password and a base URL are
    configured. *)
Theorem disconnect_outcomes http net sm w :
  let r := disconnect http net sm w in
  let sm' := snd (fst r) in
  (forall t, isConnected sm' t = false)
  /\ getAuthHeaders sm' = None
  /\ password sm' = password sm
  /\ (fst (fst r) = ok Undefined
      \/ fst (fst r) = err (createError Unknown "Logout failed" 0 None None))
  /\ (attempts w (snd r) <= 1)%nat
  /\ (forall w', disconnect http net sm' w'
                 = (ok Undefined, sm', enter CallLogout w'))
  /\ (state sm <> None ->
      forall w',
        attempts w' (snd (ensureSession http net sm' w'))
        = if Str.truthy_opt (password sm) && Str.truthy (baseUrl http)
          then 1%nat else 0%nat).
Proof.
  cbn zeta. unfold disconnect.
  assert (Hlogout :
            state (snd (fst (logout http net sm w))) = None
            /\ password (snd (fst (logout http net sm w))) = password sm
            /\ (state sm <> None ->
                refreshPromise (snd (fst (logout http net sm w))) = None)
            /\ (attempts w (snd (logout http net sm w)) <= 1)%nat).
  { unfold logout. destruct (state sm) as [s|] eqn:Hs.
    - pose proof (request_since http net logoutOptions (getAuthHeaders sm)
                    (enter CallLogout w)) as (k & Hk & Hatt).
      pose proof (request_events http net logoutOptions (getAuthHeaders sm)
                    (enter CallLogout w)) as (He & _).
      assert (Hone : (k <= 1)%nat).
      { destruct (Str.truthy (baseUrl http)) eqn:Hbase.
        - rewrite <- Hatt, attempts_request by exact Hbase.
          apply attemptsMade_le.
        - rewrite (request_unconfigured http net _ _ _ Hbase) in Hatt.
          cbn [snd] in Hatt. unfold attempts in Hatt.
          rewrite since_enter in Hatt. cbn in Hatt. lia. }
      assert (Hbound : (attempts w
                          (snd (Http.request http net logoutOptions
                                  (getAuthHeaders sm) (enter CallLogout w)))
                        <= 1)%nat).
      { unfold attempts in *.
        rewrite (since_trans w _ _ (extends_enter _ _) He), fetch_count_app.
        rewrite since_enter, Hatt. cbn. exact Hone. }
      destruct (Http.request http net logoutOptions (getAuthHeaders sm)
                  (enter CallLogout w)) as [result w1].
      destruct result as [d|e]; [|destruct (status e =? 401)];
        cbn [fst snd clear state password refreshPromise]; repeat split;
        exact Hbound.
    - cbn [fst snd]. repeat split; [exact Hs|congruence|].
      unfold attempts. rewrite since_enter. cbn. lia. }
  destruct Hlogout as (Hstate & Hpw & Hpromise & Hbound).
  destruct (logout http net sm w) as [[success sm1] w1].
  cbn [fst snd] in *.
  destruct success; cbn [fst snd];
    (split; [intros t; unfold isConnected, hasSession; now rewrite Hstate|]);
    (split; [unfold getAuthHeaders; now rewrite Hstate|]);
    (split; [exact Hpw|]);
    (split; [solve [now left|now right]|]);
    (split; [exact Hbound|]);
    (split; [intros w'; unfold logout; now rewrite Hstate|]);
    intros Hsome w';
    destruct (ensureSession_cost_cases http net sm1 w') as [Hcost _];
    rewrite Hcost, (usable_absent sm1 _ Hstate), (Hpromise Hsome), Hpw;
    reflexivity.
Qed.

(** X24. [testConnection] asks the server once, without auth headers, and
    makes no request without a base URL. It never fails with the status 401:
    it is [ok] exactly when the server answered 401, or answered 2xx either
    with the status 204 or with a JSON body; a fetch that throws, any other
    status, and a 2xx page that is not JSON are failures. *)
Theorem testConnection_outcomes http net w :
  let r := testConnection http net w in
  let req := fetchReq http testConnectionOptions None
               (timeoutOf http testConnectionOptions) in
  requestsOf (since w (snd r)) = [(testConnectionOptions, None)]
  /\ fetchesOf (since w (snd r))
     = (if Str.truthy (baseUrl http) then [req] else [])
  /\ f_headers req = [("Content-Type", "application/json")]%string
  /\ (forall e, fst r = err e -> status e <> 401)
  /\ (Str.truthy (baseUrl http) = false -> isOk (fst r) = false)
  /\ (Str.truthy (baseUrl http) = true ->
      isOk (fst r)
      = match Http.outcome (net (fetch_count (trace w)) req) with
        | Rejects _ => false
        | Resolves response =>
            (r_status response =? 401)
            || response_ok response
               && ((r_status response =? 204)
                   || match r_body response with
                      | Json _ => true
                      | NotJson => false
                      end)
        end).
Proof.
  cbn zeta. unfold testConnection.
  pose proof (request_events http net testConnectionOptions None w)
    as (_ & Hreqs & _).
  pose proof (request_since http net testConnectionOptions None w)
    as (k & Hs & Hk).
  assert (Hfetches :
            fetchesOf (since w (snd (Http.request http net
                                      testConnectionOptions None w)))
            = if Str.truthy (baseUrl http)
              then [fetchReq http testConnectionOptions None
                      (timeoutOf http testConnectionOptions)]
              else []).
  { rewrite Hs. cbn [fetchesOf]. rewrite fetchesOf_loopEvents.
    destruct (Str.truthy (baseUrl http)) eqn:Hbase.
    - destruct (request_once http net testConnectionOptions None w Hbase
                  eq_refl) as [_ Hone].
      rewrite Hk in Hone. rewrite Hone. reflexivity.
    - rewrite (request_unconfigured http net _ _ w Hbase) in Hk.
      cbn [snd] in Hk. unfold attempts in Hk. rewrite since_enter in Hk.
      rewrite <- Hk. reflexivity. }
  assert (Hres : fst (Http.request http net testConnectionOptions None w)
                 = if Str.truthy (baseUrl http)
                   then attemptResult http net testConnectionOptions None
                          (timeoutOf http testConnectionOptions)
                          (fetch_count (trace w))
                   else err (createError BadRequest "Base URL not configured"
                               0 None None)).
  { destruct (Str.truthy (baseUrl http)) eqn:Hbase.
    - apply (request_once http net testConnectionOptions None w Hbase eq_refl).
    - now rewrite (request_unconfigured http net _ _ w Hbase). }
  destruct (Http.request http net testConnectionOptions None w)
    as [result w1].
  cbn [fst snd] in *. clear Hs Hk.
  assert (Hw : snd (match result with
                    | ok _ => (result, w1)
                    | err error =>
                        if status error =? 401 then (ok Undefined, w1)
                        else (result, w1)
                    end) = w1)
    by (destruct result as [d|e]; [|destruct (status e =? 401)]; reflexivity).
  rewrite Hw. split; [exact Hreqs|]. split; [exact Hfetches|].
  split; [reflexivity|]. split; [|split].
  - intros e. destruct result as [d|e0]; [discriminate|].
    destruct (Z.eqb_spec (status e0) 401); [discriminate|].
    cbn [fst]. now intros [= <-].
  - intros Hbase. rewrite Hbase in Hres. now subst result.
  - intros Hbase. rewrite Hbase in Hres. subst result.
    unfold attemptResult.
    destruct (Http.outcome (net _ _)) as [thrown|response].
    + pose proof (handleFetchError_status thrown) as Hst.
      destruct (status (handleFetchError thrown) =? 401) eqn:H401;
        [apply Z.eqb_eq in H401; lia|reflexivity].
    + pose proof (handleResponse_cases response) as (Hok & _ & Hst & _).
      destruct (handleResponse response) as [d|e] eqn:Hh.
      * cbn [fst]. rewrite Hok.
        destruct (Z.eqb_spec (r_status response) 401) as [H401|];
          [|reflexivity].
        cbn in Hok. symmetry in Hok. apply andb_prop in Hok as [Hr _].
        unfold response_ok in Hr. rewrite H401 in Hr. discriminate.
      * rewrite (Hst e eq_refl).
        destruct (r_status response =? 401); [reflexivity|].
        cbn [fst orb]. exact Hok.
Qed.

(** X25. The paths of the facade that do not recover: when [ensureSession]
    returns [false] the facade answers [Unauthorized], status 401, without
    calling the HTTP client for the request and without re-authenticating,
    although that failure has the status 401; when the delegated call
    succeeds, or fails with a status other than 401 (a 403 included), its
    result is returned as it is after that one call, again without
    re-authentication. *)
Theorem facade_passthrough http net m p b sm w :
  let options :=
    {| method := m; path := p; body := b; headers := None;
       opt_timeout := None; noRetry := false |} in
  let ens := ensureSession http net sm (enter CallClientRequest w) in
  let sm1 := snd (fst ens) in
  let first := Http.request http net options (getAuthHeaders sm1) (snd ens) in
  let out := Client.request http net m p b sm w in
  (fst (fst ens) = Returned false ->
   out = (Returned
            (err (createError Unauthorized "Not authenticated" 401 None None)),
          sm1, snd ens)
   /\ reauthentications (since w (snd out)) = 0%nat
   /\ ~ In (options, getAuthHeaders sm1) (requestsOf (since w (snd out)))
   /\ (attempts w (snd out) <= 1)%nat)
  /\ (fst (fst ens) = Returned true ->
      (forall e, fst first = err e -> status e <> 401) ->
      out = (Returned (fst first), sm1, snd first)
      /\ reauthentications (since w (snd out)) = 0%nat
      /\ requestsOf (since (snd ens) (snd out))
         = [(options, getAuthHeaders sm1)]).
Proof.
  cbn zeta.
  set (options := {| method := m; path := p; body := b; headers := None;
                     opt_timeout := None; noRetry := false |}).
  set (w0 := enter CallClientRequest w).
  assert (He0 : extends w w0) by apply extends_enter.
  assert (Hs0 : since w w0 = [EvCall CallClientRequest]) by apply since_enter.
  pose proof (ensureSession_events http net sm w0) as (He1 & Ha1).
  pose proof (ensureSession_cost_cases http net sm w0) as [Hcost _].
  assert (Hlogin : requestsOf (since w0 (snd (ensureSession http net sm w0)))
                   = []
                   \/ exists pw,
                       requestsOf
                         (since w0 (snd (ensureSession http net sm w0)))
                       = [(loginOptions pw None, None)]).
  { unfold ensureSession.
    assert (Hq : since w0 (enter CallEnsureSession w0)
                 = [EvCall CallEnsureSession]) by apply since_enter.
    destruct (hasSession _ _ && negb (needsRefresh _ _));
      [cbn [snd]; rewrite Hq; now left|].
    destruct (refreshPromise sm); [cbn [snd]; rewrite Hq; now left|].
    pose proof (authenticate_events http net None sm
                  (enter CallEnsureSession w0)) as (He & _ & Hr).
    destruct (authenticate http net None sm (enter CallEnsureSession w0))
      as [[c sm1] w1].
    cbn [snd] in *.
    assert (Hsince : since w0 w1
                     = EvCall CallEnsureSession
                         :: since (enter CallEnsureSession w0) w1).
    { rewrite (since_trans w0 _ w1 (extends_enter _ _) He). now rewrite Hq. }
    destruct c; cbn [snd]; rewrite Hsince; cbn [requestsOf]; exact Hr. }
  unfold Client.request. fold options. fold w0.
  destruct (ensureSession http net sm w0) as [[c sm1] w1].
  cbn [fst snd] in *. split.
  - intros ->. cbn [fst snd]. split; [reflexivity|].
    rewrite (since_trans w w0 w1 He0 He1), Hs0.
    split; [cbn; exact Ha1|]. split.
    + cbn [app requestsOf].
      destruct Hlogin as [-> | [pw ->]]; [intros []|].
      intros [Heq|[]].
      apply (f_equal (fun c => noRetry (fst c))) in Heq. discriminate.
    + unfold attempts in *.
      rewrite (since_trans w w0 w1 He0 He1), Hs0, fetch_count_app.
      change (fetch_count [EvCall CallClientRequest]) with 0%nat.
      rewrite Hcost.
      destruct (usable sm (now w0)); [lia|].
      destruct (refreshPromise sm); [lia|]. destruct (_ && _); lia.
  - intros -> Hnot.
    pose proof (request_events http net options (getAuthHeaders sm1) w1)
      as (He2 & Hr2 & Ha2).
    destruct (Http.request http net options (getAuthHeaders sm1) w1)
      as [result w2].
    cbn [fst snd] in *.
    assert (Hout : match result with
                   | ok _ => (Returned result, sm1, w2)
                   | err error =>
                       if status error =? 401
                       then
                         let '(c2, sm3, w3) :=
                           handleUnauthorized http net sm1 w2 in
                         match c2 with
                         | Returned true =>
                             let '(retried, w4) :=
                               Http.request http net options
                                 (getAuthHeaders sm3) w3 in
                             (Returned retried, sm3, w4)
                         | Returned false => (Returned result, sm3, w3)
                         | Threw => (Threw, sm3, w3)
                         end
                       else (Returned result, sm1, w2)
                   end = (Returned result, sm1, w2)).
    { destruct result as [d|e]; [reflexivity|].
      destruct (Z.eqb_spec (status e) 401) as [H401|]; [|reflexivity].
      now contradiction (Hnot e eq_refl). }
    rewrite Hout. cbn [fst snd]. split; [reflexivity|]. split; [|exact Hr2].
    assert (He02 : extends w0 w2) by (eapply extends_trans; eassumption).
    rewrite (since_trans w w0 w2 He0 He02), (since_trans w0 w1 w2 He1 He2).
    rewrite !reauthentications_app, Hs0, Ha1, Ha2. reflexivity.
Qed.

(** X26. One call of the facade makes at most [2 * (maxRetries + 1) + 2]
    fetches: a login, the request with its retries, a login again and the
    request with its retries again. (With [maxRetries] negative or
    [undefined] the request gets no attempt, and the bound is 2.) *)
Theorem facade_fetch_bound http net m p b sm w :
  (attempts w (snd (Client.request http net m p b sm w))
   <= 2 * match maxRetries http with
          | Some retries => Z.to_nat (retries + 1)
          | None => 0
          end + 2)%nat.
Proof.
  set (options := {| method := m; path := p; body := b; headers := None;
                     opt_timeout := None; noRetry := false |}).
  replace (match maxRetries http with
           | Some retries => Z.to_nat (retries + 1)
           | None => 0%nat
           end) with (iterations (maxAttemptsOf http options))
    by (unfold maxAttemptsOf; cbn; now destruct (maxRetries http)).
  set (budget := iterations (maxAttemptsOf http options)).
  assert (Hreq : forall authHeaders v,
             extends v (snd (Http.request http net options authHeaders v))
             /\ (attempts v (snd (Http.request http net options authHeaders v))
                 <= budget)%nat).
  { intros authHeaders v.
    pose proof (request_events http net options authHeaders v) as (He & _).
    split; [exact He|].
    destruct (Str.truthy (baseUrl http)) eqn:Hbase.
    - rewrite attempts_request by exact Hbase. apply attemptsMade_le.
    - rewrite (request_unconfigured http net _ _ v Hbase). cbn [snd].
      unfold attempts. rewrite since_enter. cbn. lia. }
  assert (Hauth : forall m0 v,
             (attempts v (snd (authenticate http net None m0 v)) <= 1)%nat).
  { intros m0 v. rewrite authenticate_attempts. destruct (_ && _); lia. }
  set (w0 := enter CallClientRequest w).
  assert (He0 : extends w w0) by apply extends_enter.
  assert (Hs0 : attempts w w0 = 0%nat)
    by (unfold attempts, w0; now rewrite since_enter).
  pose proof (ensureSession_events http net sm w0) as (He1 & _).
  pose proof (ensureSession_cost_cases http net sm w0) as [Hcost _].
  assert (Hens : (attempts w0 (snd (ensureSession http net sm w0)) <= 1)%nat).
  { rewrite Hcost. destruct (usable sm (now w0)); [lia|].
    destruct (refreshPromise sm); [lia|]. destruct (_ && _); lia. }
  clear Hcost.
  assert (Hadd : forall a b c, extends a b -> extends b c ->
                               attempts a c
                               = (attempts a b + attempts b c)%nat).
  { intros a b0 c Hab Hbc. unfold attempts.
    now rewrite (since_trans a b0 c Hab Hbc), fetch_count_app. }
  unfold Client.request. fold options. fold w0.
  destruct (ensureSession http net sm w0) as [[c sm1] w1].
  cbn [fst snd] in *.
  assert (H01 : (attempts w w1 <= 1)%nat)
    by (rewrite (Hadd w w0 w1 He0 He1); lia).
  assert (He01 : extends w w1) by (eapply extends_trans; eassumption).
  destruct c as [[|]|]; cbn [snd]; [|lia|lia].
  destruct (Hreq (getAuthHeaders sm1) w1) as [He2 Ha2].
  destruct (Http.request http net options (getAuthHeaders sm1) w1)
    as [result w2].
  cbn [fst snd] in *.
  assert (He02 : extends w w2) by (eapply extends_trans; eassumption).
  assert (H02 : (attempts w w2 <= 1 + budget)%nat)
    by (rewrite (Hadd w w1 w2 He01 He2); lia).
  destruct result as [d|e]; cbn [snd]; [lia|].
  destruct (status e =? 401); cbn [snd]; [|lia].
  pose proof (handleUnauthorized_events http net sm1 w2) as (He3 & _).
  assert (Ha3 : (attempts w2 (snd (handleUnauthorized http net sm1 w2))
                 <= 1)%nat).
  { unfold handleUnauthorized.
    pose proof (authenticate_events http net None (set_state None sm1)
                  (enter CallHandleUnauthorized w2)) as (He & _).
    rewrite (Hadd w2 _ _ (extends_enter _ _) He).
    specialize (Hauth (set_state None sm1) (enter CallHandleUnauthorized w2)).
    assert (Hz : attempts w2 (enter CallHandleUnauthorized w2) = 0%nat)
      by (unfold attempts; now rewrite since_enter).
    lia. }
  destruct (handleUnauthorized http net sm1 w2) as [[c2 sm3] w3].
  cbn [fst snd] in *.
  assert (He03 : extends w w3) by (eapply extends_trans; eassumption).
  assert (H03 : (attempts w w3 <= 2 + budget)%nat)
    by (rewrite (Hadd w w2 w3 He02 He3); lia).
  destruct c2 as [[|]|]; cbn [snd]; [|lia|lia].
  destruct (Hreq (getAuthHeaders sm3) w3) as [He4 Ha4].
  destruct (Http.request http net options (getAuthHeaders sm3) w3)
    as [retried w4].
  cbn [fst snd] in *. rewrite (Hadd w w3 w4 He03 He4). lia.
Qed.

(** X27. [getEndpoints] goes to the HTTP client directly: it never logs in
    and never re-authenticates, makes its call also without a session, and
    sends whatever session the manager holds, an expired one included; each
    of its fetches goes to [/api/endpoints] with the identifier and the
    token of that session as headers, and with neither when there is no
    session. *)
Theorem getEndpoints_sends_held_session http net sm w :
  let r := getEndpoints http net sm w in
  requestsOf (since w (snd r)) = [(getEndpointsOptions, getAuthHeaders sm)]
  /\ reauthentications (since w (snd r)) = 0%nat
  /\ Forall (fun req =>
               f_url req = (baseUrl http ++ "/api/endpoints")%string
               /\ getHeader "X-FTL-SID" (f_headers req)
                  = option_map sid (state sm)
               /\ getHeader "X-FTL-CSRF" (f_headers req)
                  = option_map csrf (state sm))
       (fetchesOf (since w (snd r)))
  /\ (Str.truthy (baseUrl http) = true ->
      forall retries, maxRetries http = Some retries -> 0 <= retries ->
      (1 <= attempts w (snd r))%nat).
Proof.
  cbn zeta. unfold getEndpoints.
  pose proof (request_events http net getEndpointsOptions (getAuthHeaders sm)
                w) as (_ & Hr & Ha).
  split; [exact Hr|]. split; [exact Ha|]. split.
  - destruct (request_since http net getEndpointsOptions (getAuthHeaders sm) w)
      as (k & Hs & _).
    rewrite Hs. cbn [fetchesOf]. rewrite fetchesOf_loopEvents.
    apply Forall_forall. intros req Hin. apply repeat_spec in Hin. subst req.
    unfold getAuthHeaders. destruct (state sm) as [s|]; now repeat split.
  - intros Hbase retries Hsome Hretries.
    rewrite attempts_request by exact Hbase.
    apply attemptsMade_pos. unfold maxAttemptsOf. rewrite Hsome. cbn. lia.
Qed.

(** X28. The HTTP client a [PiholeClient] builds: its base URL is the given
    one without the slashes at its end, its delays are the defaults, and its
    [timeout] and [maxRetries] are the ones given to [new PiholeClient],
    [undefined] when they were omitted, because the members the facade passes
    on replace the defaults 10000 and 3 whatever their value. With
    [maxRetries] omitted every request that is not [noRetry] fails with
    [Unknown], "Request failed", without any fetch, and so does every request
    of the facade once its session is ensured. *)
Theorem constructed_client_retries config now0 net w :
  let http := fst (PiholeClient.constructor config now0) in
  let failed := err (createError Unknown "Request failed" 0 None None) in
  http
  = {| baseUrl := stripTrailingSlashes (c_baseUrl config);
       timeout := c_timeout config;
       maxRetries := c_maxRetries config;
       retryDelayBase := 1000; retryDelayMax := 10000;
       backoffMultiplier := 2 |}
  /\ (c_maxRetries config = None ->
      Str.truthy (baseUrl http) = true ->
      (forall options authHeaders,
         noRetry options = false ->
         Http.request http net options authHeaders w
         = (failed, enter (CallHttpRequest options authHeaders) w))
      /\ (forall m p b sm,
            fst (fst (ensureSession http net sm (enter CallClientRequest w)))
            = Returned true ->
            fst (fst (Client.request http net m p b sm w)) = Returned failed
            /\ attempts w (snd (Client.request http net m p b sm w))
               = attempts w
                   (snd (ensureSession http net sm
                           (enter CallClientRequest w))))).
Proof.
  cbn zeta. split; [reflexivity|].
  set (http := fst (PiholeClient.constructor config now0)).
  intros Hnone Hbase.
  assert (Hreq : forall options authHeaders v,
             noRetry options = false ->
             Http.request http net options authHeaders v
             = (err (createError Unknown "Request failed" 0 None None),
                enter (CallHttpRequest options authHeaders) v)).
  { intros options authHeaders v Hno. unfold Http.request.
    rewrite Hbase. cbn [negb]. unfold maxAttemptsOf. rewrite Hno.
    change (maxRetries http) with (c_maxRetries config). rewrite Hnone.
    reflexivity. }
  split; [intros options authHeaders; apply Hreq|].
  intros m p b sm Hens. unfold Client.request.
  pose proof (ensureSession_events http net sm (enter CallClientRequest w))
    as (He & _).
  destruct (ensureSession http net sm (enter CallClientRequest w))
    as [[c sm1] w1].
  cbn [fst snd] in *. subst c. rewrite Hreq by reflexivity.
  cbn [status createError Z.eqb fst snd]. split; [reflexivity|].
  assert (Hext : extends w w1)
    by (eapply extends_trans; [apply extends_enter|exact He]).
  destruct (attempts_extend w w1 (enter (CallHttpRequest
              {| method := m; path := p; body := b; headers := None;
                 opt_timeout := None; noRetry := false |}
              (getAuthHeaders sm1)) w1) _ Hext eq_refl) as [_ ->].
  cbn. lia.
Qed.
